(** * Grimm perception core: speech segmenter, trigger spotter, scripted source

    A shallow embedding of three classes of the repository,

    - [VoiceActivityDetector]  (src/vad/index.ts),
    - [WakeWordDetector]       (src/wake-word/index.ts),
    - [EmulatedChannel]        (src/audio/emulated-channel.ts),

    together with the properties the specification states about them, and
    of the code next to them,

    - [EndOfSpeechDetector]    (src/vad/index.ts),
    - the WAV reader and writer and [concatenateAudio]
                               (src/audio/utils.ts),

    with further properties of all five.

    Conventions.  A JavaScript number that holds a probability or a tensor
    entry is a rational [Q] (every finite double is one; the code compares
    them, and where it scales a tensor entry the exact value stands for the
    rounded one); millisecond clock readings and 16-bit samples are
    integers [Z]; array lengths and cursors are [nat].  A number a caller
    hands to a constructor (a threshold, a duration, a sample rate) is a
    [number]: a value, an infinity or NaN, compared the way JavaScript
    compares them.  An object is a record, a method is a function from
    the object to its next state, and a method that can throw returns the
    exception next to the state it leaves behind.

    Libraries.  The avr-vad engine and the ONNX inference sessions are not
    code of the repository.  A call into them while a frame is processed
    is represented by what it makes observable to the caller (the callbacks
    it invokes, the tensor it returns) and is taken to return.  The calls a
    shutdown path makes ([pause()], a session's [release()]) carry their
    outcome, returned or thrown, since shutdown is specified not to throw
    whatever they do.  [Date.now()] is an argument of the method that reads
    it; [process.cwd()], [existsSync] and [path.join] belong to the
    environment a detector is created in. *)

From Stdlib Require Import Ascii String.
From Stdlib Require Import DecimalString.
From Stdlib Require Import ZArith QArith List Bool Lia PeanoNat.
Import ListNotations.

Local Open Scope Z_scope.

(** ** JavaScript comparisons on finite numbers *)

(** [x > y] on numbers. *)
Definition Qgtb (x y : Q) : bool := negb (Qle_bool x y).

(** [x < y] on numbers. *)
Definition Qltb (x y : Q) : bool := negb (Qle_bool y x).

(** ** JavaScript numbers

    A number as a caller can pass it: a value, plus or minus infinity, or
    NaN. *)
Inductive number (A : Type) : Type :=
| Finite (a : A)
| PositiveInfinity
| NegativeInfinity
| NaN.

Arguments Finite {A} a.
Arguments PositiveInfinity {A}.
Arguments NegativeInfinity {A}.
Arguments NaN {A}.

(** [x < y], given [<] on values.  A comparison with NaN is false. *)
Definition less {A : Type} (lt : A -> A -> bool) (x y : number A) : bool :=
  match x, y with
  | NaN, _ => false
  | _, NaN => false
  | PositiveInfinity, _ => false
  | _, NegativeInfinity => false
  | NegativeInfinity, _ => true
  | _, PositiveInfinity => true
  | Finite a, Finite b => lt a b
  end.

(** [x < y] and [x > y] (that is, [y < x]) on thresholds and on
    durations. *)
Definition ltQ (x y : number Q) : bool := less Qltb x y.
Definition gtQ (x y : number Q) : bool := ltQ y x.
Definition ltZ (x y : number Z) : bool := less Z.ltb x y.
Definition gtZ (x y : number Z) : bool := ltZ y x.

(** An optional field read with [??]. *)
Definition orDefault {A : Type} (o : option A) (dflt : A) : A :=
  match o with Some a => a | None => dflt end.

Notation "o ?? d" := (orDefault o d) (at level 45, left associativity).

(** What a call did: it came back, or it threw. *)
Inductive Outcome (E : Type) : Type :=
| Returned : Outcome E
| Threw : E -> Outcome E.
Arguments Returned {E}.
Arguments Threw {E} _.

(** * VoiceActivityDetector *)

Module VAD.

Inductive VADStatus : Type := Continue | End | Timeout.

Record VADResult : Type := mkResult {
  status : VADStatus;
  probability : Q;
  isSpeech : bool;
  audio : option (list Z)
}.

Record VoiceActivityDetectorOptions : Type := mkOptions {
  opt_speechThreshold : option (number Q);
  opt_silenceThreshold : option (number Q);
  opt_silenceDuration : option (number Z);
  opt_maxRecordingDuration : option (number Z);
  opt_minSpeechDuration : option (number Z);
  opt_inputSampleRate : option (number Z)
}.

Definition noOptions : VoiceActivityDetectorOptions :=
  mkOptions None None None None None None.

Inductive VADError : Type := mkVADError (message : string).

Definition TARGET_SAMPLE_RATE : Z := 16000.
Definition VAD_FRAME_SAMPLES : nat := 1536.

(** The read-only fields of the class. *)
Record Config : Type := mkConfig {
  speechThreshold : number Q;
  silenceThreshold : number Q;
  silenceDuration : number Z;
  maxRecordingDuration : number Z;
  minSpeechDuration : number Z;
  inputSampleRate : number Z
}.

(** The handle on the avr-vad engine; the engine itself is a library. *)
Inductive RealTimeVAD : Type := EngineHandle.

Record Detector : Type := mkDetector {
  cfg : Config;
  vad : option RealTimeVAD;
  audioBuffer : list (list Z);
  silenceStartTime : option Z;
  recordingStartTime : option Z;
  hasDetectedSpeech : bool;
  speechStartTime : option Z;
  isReleased : bool;
  isInitialized : bool;
  lastProbability : Q;
  lastIsSpeech : bool
}.

(** *** Field assignments *)

Definition set_vad (v : option RealTimeVAD) (d : Detector) : Detector :=
  mkDetector (cfg d) v (audioBuffer d) (silenceStartTime d)
    (recordingStartTime d) (hasDetectedSpeech d) (speechStartTime d)
    (isReleased d) (isInitialized d) (lastProbability d) (lastIsSpeech d).

Definition set_audioBuffer (b : list (list Z)) (d : Detector) : Detector :=
  mkDetector (cfg d) (vad d) b (silenceStartTime d)
    (recordingStartTime d) (hasDetectedSpeech d) (speechStartTime d)
    (isReleased d) (isInitialized d) (lastProbability d) (lastIsSpeech d).

Definition set_silenceStartTime (t : option Z) (d : Detector) : Detector :=
  mkDetector (cfg d) (vad d) (audioBuffer d) t
    (recordingStartTime d) (hasDetectedSpeech d) (speechStartTime d)
    (isReleased d) (isInitialized d) (lastProbability d) (lastIsSpeech d).

Definition set_recordingStartTime (t : option Z) (d : Detector) : Detector :=
  mkDetector (cfg d) (vad d) (audioBuffer d) (silenceStartTime d)
    t (hasDetectedSpeech d) (speechStartTime d)
    (isReleased d) (isInitialized d) (lastProbability d) (lastIsSpeech d).

Definition set_hasDetectedSpeech (b : bool) (d : Detector) : Detector :=
  mkDetector (cfg d) (vad d) (audioBuffer d) (silenceStartTime d)
    (recordingStartTime d) b (speechStartTime d)
    (isReleased d) (isInitialized d) (lastProbability d) (lastIsSpeech d).

Definition set_speechStartTime (t : option Z) (d : Detector) : Detector :=
  mkDetector (cfg d) (vad d) (audioBuffer d) (silenceStartTime d)
    (recordingStartTime d) (hasDetectedSpeech d) t
    (isReleased d) (isInitialized d) (lastProbability d) (lastIsSpeech d).

Definition set_isReleased (b : bool) (d : Detector) : Detector :=
  mkDetector (cfg d) (vad d) (audioBuffer d) (silenceStartTime d)
    (recordingStartTime d) (hasDetectedSpeech d) (speechStartTime d)
    b (isInitialized d) (lastProbability d) (lastIsSpeech d).

Definition set_isInitialized (b : bool) (d : Detector) : Detector :=
  mkDetector (cfg d) (vad d) (audioBuffer d) (silenceStartTime d)
    (recordingStartTime d) (hasDetectedSpeech d) (speechStartTime d)
    (isReleased d) b (lastProbability d) (lastIsSpeech d).

Definition set_lastProbability (p : Q) (d : Detector) : Detector :=
  mkDetector (cfg d) (vad d) (audioBuffer d) (silenceStartTime d)
    (recordingStartTime d) (hasDetectedSpeech d) (speechStartTime d)
    (isReleased d) (isInitialized d) p (lastIsSpeech d).

Definition set_lastIsSpeech (b : bool) (d : Detector) : Detector :=
  mkDetector (cfg d) (vad d) (audioBuffer d) (silenceStartTime d)
    (recordingStartTime d) (hasDetectedSpeech d) (speechStartTime d)
    (isReleased d) (isInitialized d) (lastProbability d) b.

Arguments set_vad _ _ /.
Arguments set_audioBuffer _ _ /.
Arguments set_silenceStartTime _ _ /.
Arguments set_recordingStartTime _ _ /.
Arguments set_hasDetectedSpeech _ _ /.
Arguments set_speechStartTime _ _ /.
Arguments set_isReleased _ _ /.
Arguments set_isInitialized _ _ /.
Arguments set_lastProbability _ _ /.
Arguments set_lastIsSpeech _ _ /.

(** *** Construction *)

(** The private constructor: defaults, then validation. *)
Definition construct (options : VoiceActivityDetectorOptions)
  : VADError + Detector :=
  let c := mkConfig
             (opt_speechThreshold options ?? Finite (1 # 2)%Q)
             (opt_silenceThreshold options ?? Finite (35 # 100)%Q)
             (opt_silenceDuration options ?? Finite 700)
             (opt_maxRecordingDuration options ?? Finite 30000)
             (opt_minSpeechDuration options ?? Finite 200)
             (opt_inputSampleRate options ?? Finite TARGET_SAMPLE_RATE) in
  if ltQ (speechThreshold c) (Finite 0%Q)
     || gtQ (speechThreshold c) (Finite 1%Q) then
    inl (mkVADError "Speech threshold must be between 0.0 and 1.0")
  else if ltQ (silenceThreshold c) (Finite 0%Q)
          || gtQ (silenceThreshold c) (Finite 1%Q) then
    inl (mkVADError "Silence threshold must be between 0.0 and 1.0")
  else if ltZ (silenceDuration c) (Finite 0) then
    inl (mkVADError "Silence duration must be non-negative")
  else if ltZ (maxRecordingDuration c) (Finite 0) then
    inl (mkVADError "Max recording duration must be non-negative")
  else
    inr (mkDetector c None [] None None false None false false 0%Q false).

(** What [RealTimeVAD.new] does when [initialize] calls it. *)
Inductive EngineLoad : Type :=
| EngineLoaded
| EngineLoadFails (message : string).

Definition initialize (load : EngineLoad) (d : Detector)
  : VADError + Detector :=
  match load with
  | EngineLoaded => inr (set_isInitialized true (set_vad (Some EngineHandle) d))
  | EngineLoadFails m =>
      inl (mkVADError (String.append "Failed to initialize VAD: " m))
  end.

Definition create (options : VoiceActivityDetectorOptions) (load : EngineLoad)
  : VADError + Detector :=
  match construct options with
  | inl e => inl e
  | inr detector => initialize load detector
  end.

(** *** The engine's callbacks

    [vad.processAudio] answers by invoking the callbacks registered in
    [initialize]; which ones, and in which order, is the engine's business.
    One call is the list of callbacks it made.  [SpeechStart] carries the
    value [Date.now()] has when the callback runs. *)
Inductive EngineEvent : Type :=
| FrameProcessed (p : Q)
| SpeechStart (t : Z)
| SpeechRealStart
| SpeechEnd
| VADMisfire.

Definition onEvent (d : Detector) (ev : EngineEvent) : Detector :=
  match ev with
  | FrameProcessed p =>
      set_lastIsSpeech (gtQ (Finite p) (speechThreshold (cfg d)))
        (set_lastProbability p d)
  | SpeechStart t =>
      set_silenceStartTime None
        (set_speechStartTime (Some t) (set_hasDetectedSpeech true d))
  | SpeechRealStart => d
  | SpeechEnd => d
  | VADMisfire =>
      set_speechStartTime None (set_hasDetectedSpeech false d)
  end.

Definition processAudio (d : Detector) (evs : list EngineEvent) : Detector :=
  fold_left onEvent evs d.

(** *** Methods *)

Definition getBufferedAudio (d : Detector) : list Z :=
  concat (audioBuffer d).

(** [reset()].  Its last statement, [this.vad.reset()], acts on the engine
    and leaves the fields alone. *)
Definition reset (d : Detector) : Outcome VADError * Detector :=
  if isReleased d then (Threw (mkVADError "VAD has been released"), d)
  else
    (Returned,
     set_lastIsSpeech false
       (set_lastProbability 0%Q
          (set_speechStartTime None
             (set_hasDetectedSpeech false
                (set_recordingStartTime None
                   (set_silenceStartTime None
                      (set_audioBuffer [] d))))))).

(** A nullable timestamp used as a number, and as a condition. *)
Definition toNumber (t : option Z) : Z := t ?? 0.

Definition truthy (t : option Z) : bool :=
  match t with Some v => negb (v =? 0) | None => false end.

Definition continueWith (d : Detector) : (VADError + VADResult) * Detector :=
  (inr (mkResult Continue (lastProbability d) (lastIsSpeech d) None), d).

(** [processFrame(frame)], called when [Date.now()] reads [now] and the
    engine answers [processAudio] with the callbacks [evs]. *)
Definition processFrame (d : Detector) (now : Z) (frame : list Z)
    (evs : list EngineEvent) : (VADError + VADResult) * Detector :=
  if isReleased d then (inl (mkVADError "VAD has been released"), d)
  else if negb (isInitialized d)
          || match vad d with None => true | Some _ => false end then
    (inl (mkVADError "VAD not initialized"), d)
  else
    let d1 := match recordingStartTime d with
              | None => set_recordingStartTime (Some now) d
              | Some _ => d
              end in
    let d2 := set_audioBuffer (audioBuffer d1 ++ [frame]) d1 in
    let d3 := processAudio d2 evs in
    let probability := lastProbability d3 in
    let isSpeech := lastIsSpeech d3 in
    if gtZ (Finite (now - toNumber (recordingStartTime d3)))
           (maxRecordingDuration (cfg d3)) then
      let audio := getBufferedAudio d3 in
      match reset d3 with
      | (Threw e, d') => (inl e, d')
      | (Returned, d') =>
          (inr (mkResult Timeout probability isSpeech (Some audio)), d')
      end
    else
      let d4 := if isSpeech && negb (hasDetectedSpeech d3) then
                  set_silenceStartTime None
                    (set_speechStartTime (Some now)
                       (set_hasDetectedSpeech true d3))
                else d3 in
      if isSpeech then
        (inr (mkResult Continue probability isSpeech None),
         set_silenceStartTime None d4)
      else if negb (hasDetectedSpeech d4) then
        (inr (mkResult Continue probability isSpeech None), d4)
      else
        let speechDuration :=
          if truthy (speechStartTime d4)
          then now - toNumber (speechStartTime d4) else 0 in
        if ltZ (Finite speechDuration) (minSpeechDuration (cfg d4)) then
          (inr (mkResult Continue probability isSpeech None), d4)
        else
          let d5 := match silenceStartTime d4 with
                    | None => set_silenceStartTime (Some now) d4
                    | Some _ => d4
                    end in
          if gtZ (Finite (now - toNumber (silenceStartTime d5)))
                 (silenceDuration (cfg d5)) then
            let audio := getBufferedAudio d5 in
            match reset d5 with
            | (Threw e, d') => (inl e, d')
            | (Returned, d') =>
                (inr (mkResult End probability isSpeech (Some audio)), d')
            end
          else
            (inr (mkResult Continue probability isSpeech None), d5).

Definition hasSpeech (d : Detector) : bool := hasDetectedSpeech d.

Definition getFrameLength (d : Detector) : VADError + nat :=
  if isReleased d then inl (mkVADError "VAD has been released")
  else inr VAD_FRAME_SAMPLES.

Definition getRecordingDuration (d : Detector) (now : Z) : Z :=
  match recordingStartTime d with
  | None => 0
  | Some t => now - t
  end.

(** [release()].  [pause] is what the engine's [pause()] does when called;
    the method catches whatever it throws. *)
Definition release (d : Detector) (pause : Outcome string)
  : Outcome VADError * Detector :=
  if negb (isReleased d) then
    let d1 := match vad d with
              | Some _ =>
                  match pause with
                  | Returned => set_vad None d
                  | Threw _ => set_vad None d
                  end
              | None => d
              end in
    (Returned,
     set_isInitialized false (set_isReleased true (set_audioBuffer [] d1)))
  else (Returned, d).

(** *** Feeding a frame sequence *)

Record Input : Type := mkInput {
  now : Z;
  frame : list Z;
  events : list EngineEvent
}.

Fixpoint run (d : Detector) (ins : list Input)
  : list (VADError + VADResult) * Detector :=
  match ins with
  | [] => ([], d)
  | i :: rest =>
      let '(r, d') := processFrame d (now i) (frame i) (events i) in
      let '(rs, d'') := run d' rest in
      (r :: rs, d'')
  end.

Definition statusOf (r : VADError + VADResult) : option VADStatus :=
  match r with inl _ => None | inr v => Some (status v) end.

Definition audioOf (r : VADError + VADResult) : option (list Z) :=
  match r with inl _ => None | inr v => audio v end.

End VAD.

(** * WakeWordDetector *)

Module WakeWord.

Local Open Scope nat_scope.

Inductive WakeWord : Type := hey_jarvis | alexa.

Definition wakeWordName (w : WakeWord) : string :=
  match w with hey_jarvis => "hey_jarvis" | alexa => "alexa" end.

Record WakeWordDetectorOptions : Type := mkOptions {
  opt_modelPath : option string;
  opt_wakeWord : option WakeWord;
  opt_sensitivity : option (number Q)
}.

Definition noOptions : WakeWordDetectorOptions := mkOptions None None None.

(** What a method of the class can throw: its own two error classes, and
    whatever the runtime or a session throws ([RuntimeError]). *)
Inductive Thrown : Type :=
| WakeWordError (message : string)
| WakeWordModelError (message : string)
| RuntimeError (message : string).

Definition SAMPLE_RATE : Z := 16000%Z.
Definition FRAME_LENGTH : nat := 1280.
Definition MEL_FRAMES_PER_CHUNK : nat := 5.
Definition MEL_BUFFER_SIZE : nat := 76.
Definition EMBEDDING_WINDOW_SLIDE : nat := 8.

Record Tensor : Type := mkTensor {
  tensorType : string;
  tensorData : list Q;
  tensorDims : list nat
}.

(** An ONNX inference session: [run] gives the data of the first output for
    the tensor fed to the first input; [releaseOutcome] is what the
    session's own [release()] does when awaited. *)
Record InferenceSession : Type := mkSession {
  run : Tensor -> list Q;
  releaseOutcome : Outcome string
}.

Record Detector : Type := mkDetector {
  melSession : option InferenceSession;
  embeddingSession : option InferenceSession;
  wakeWordSession : option InferenceSession;
  melBuffer : list (list Q);
  embeddingBuffer : list (list Q);
  sensitivity : number Q;
  isReleased : bool;
  isInitialized : bool;
  modelPath : string;
  wakeWord : WakeWord
}.

Definition set_melSession (v : option InferenceSession) (d : Detector) :=
  mkDetector v (embeddingSession d) (wakeWordSession d) (melBuffer d)
    (embeddingBuffer d) (sensitivity d) (isReleased d) (isInitialized d)
    (modelPath d) (wakeWord d).

Definition set_embeddingSession (v : option InferenceSession) (d : Detector) :=
  mkDetector (melSession d) v (wakeWordSession d) (melBuffer d)
    (embeddingBuffer d) (sensitivity d) (isReleased d) (isInitialized d)
    (modelPath d) (wakeWord d).

Definition set_wakeWordSession (v : option InferenceSession) (d : Detector) :=
  mkDetector (melSession d) (embeddingSession d) v (melBuffer d)
    (embeddingBuffer d) (sensitivity d) (isReleased d) (isInitialized d)
    (modelPath d) (wakeWord d).

Definition set_melBuffer (v : list (list Q)) (d : Detector) :=
  mkDetector (melSession d) (embeddingSession d) (wakeWordSession d) v
    (embeddingBuffer d) (sensitivity d) (isReleased d) (isInitialized d)
    (modelPath d) (wakeWord d).

Definition set_embeddingBuffer (v : list (list Q)) (d : Detector) :=
  mkDetector (melSession d) (embeddingSession d) (wakeWordSession d)
    (melBuffer d) v (sensitivity d) (isReleased d) (isInitialized d)
    (modelPath d) (wakeWord d).

Definition set_isReleased (v : bool) (d : Detector) :=
  mkDetector (melSession d) (embeddingSession d) (wakeWordSession d)
    (melBuffer d) (embeddingBuffer d) (sensitivity d) v (isInitialized d)
    (modelPath d) (wakeWord d).

Definition set_isInitialized (v : bool) (d : Detector) :=
  mkDetector (melSession d) (embeddingSession d) (wakeWordSession d)
    (melBuffer d) (embeddingBuffer d) (sensitivity d) (isReleased d) v
    (modelPath d) (wakeWord d).

Arguments set_melSession _ _ /.
Arguments set_embeddingSession _ _ /.
Arguments set_wakeWordSession _ _ /.
Arguments set_melBuffer _ _ /.
Arguments set_embeddingBuffer _ _ /.
Arguments set_isReleased _ _ /.
Arguments set_isInitialized _ _ /.

(** *** Methods run on the detector and may throw *)

Definition M (A : Type) : Type := Detector -> (Thrown + A) * Detector.

Definition ret {A : Type} (a : A) : M A := fun d => (inr a, d).

Definition bind {A B : Type} (m : M A) (k : A -> M B) : M B :=
  fun d => match m d with
           | (inl e, d') => (inl e, d')
           | (inr a, d') => k a d'
           end.

Definition throw {A : Type} (e : Thrown) : M A := fun d => (inl e, d).

Definition get : M Detector := fun d => (inr d, d).

Definition modify (f : Detector -> Detector) : M unit :=
  fun d => (inr tt, f d).

Definition lift {A : Type} (r : Thrown + A) : M A := fun d => (r, d).

Notation "x <- m ;; k" := (bind m (fun x => k))
  (at level 61, m at next level, right associativity).
Notation "m ;;; k" := (bind m (fun _ => k))
  (at level 61, right associativity).

(** *** Arrays *)

(** [a.slice(start, end)] for indices that are not negative. *)
Definition slice {A : Type} (a : list A) (start stop : nat) : list A :=
  firstn (stop - start) (skipn start a).

(** [a.slice(start)]. *)
Definition sliceFrom {A : Type} (a : list A) (start : nat) : list A :=
  skipn start a.

(** [a.slice(-n)]: the last [n] entries. *)
Definition sliceLast {A : Type} (a : list A) (n : nat) : list A :=
  skipn (length a - n) a.

(** [dst.set(src, offset)] on a typed array. *)
Definition typedSet (dst src : list Q) (offset : nat) : Thrown + list Q :=
  if offset + length src <=? length dst then
    inr (firstn offset dst ++ src ++ skipn (offset + length src) dst)
  else inl (RuntimeError "RangeError: offset is out of bounds").

(** [for (let i = from; i < from + count; i++) dst.set(rows[i], i * width)]. *)
Fixpoint setRows (rows : list (list Q)) (width from count : nat)
    (dst : list Q) : Thrown + list Q :=
  match count with
  | O => inr dst
  | S count' =>
      match nth_error rows from with
      | None => inl (RuntimeError "TypeError: undefined is not an object")
      | Some row =>
          match typedSet dst row (from * width) with
          | inl e => inl e
          | inr dst' => setRows rows width (S from) count' dst'
          end
      end
  end.

(** [new Float32Array(count * width)] filled row by row. *)
Definition packRows (rows : list (list Q)) (count width : nat)
  : Thrown + list Q :=
  setRows rows width 0 count (repeat 0%Q (count * width)).

(** *** Construction *)

(** The process around the detector: working directory, the runtime's
    [path.join] on two segments, file system, and
    [ort.InferenceSession.create]. *)
Record Env : Type := mkEnv {
  cwd : string;
  join : string -> string -> string;
  existsSync : string -> bool;
  createSession : string -> string + InferenceSession
}.

(** The calls [create] makes on its environment, in order. *)
Inductive EnvCall : Type :=
| ExistsSync (path : string)
| CreateSession (path : string).

Definition construct (env : Env) (options : WakeWordDetectorOptions)
  : Thrown + Detector :=
  let modelPath := opt_modelPath options ?? join env (cwd env) "models" in
  let wakeWord := opt_wakeWord options ?? hey_jarvis in
  let sensitivity := opt_sensitivity options ?? Finite (1 # 2)%Q in
  if ltQ sensitivity (Finite 0%Q) || gtQ sensitivity (Finite 1%Q) then
    inl (WakeWordError "Sensitivity must be between 0.0 and 1.0")
  else
    inr (mkDetector None None None [] [] sensitivity false false
           modelPath wakeWord).

Definition notFound (what path : string) : Thrown :=
  WakeWordModelError
    (String.append what
       (String.append " not found at "
          (String.append path ". Run 'bun run models:download' first."))).

Definition loadFailed (m : string) : Thrown :=
  WakeWordModelError (String.append "Failed to initialize ONNX models: " m).

Definition initialize (env : Env) (d : Detector)
  : (Outcome Thrown * Detector) * list EnvCall :=
  let melPath := join env (modelPath d) "melspectrogram.onnx" in
  let embeddingPath := join env (modelPath d) "embedding_model.onnx" in
  let wakeWordPath :=
    join env (modelPath d)
         (String.append (wakeWordName (wakeWord d)) "_v0.1.onnx") in
  if negb (existsSync env melPath) then
    ((Threw (notFound "Melspectrogram model" melPath), d),
     [ExistsSync melPath])
  else if negb (existsSync env embeddingPath) then
    ((Threw (notFound "Embedding model" embeddingPath), d),
     [ExistsSync melPath; ExistsSync embeddingPath])
  else if negb (existsSync env wakeWordPath) then
    ((Threw (notFound "Wake word model" wakeWordPath), d),
     [ExistsSync melPath; ExistsSync embeddingPath; ExistsSync wakeWordPath])
  else
    let checks :=
      [ExistsSync melPath; ExistsSync embeddingPath; ExistsSync wakeWordPath] in
    match createSession env melPath with
    | inl m => ((Threw (loadFailed m), d), checks ++ [CreateSession melPath])
    | inr s1 =>
        let d1 := set_melSession (Some s1) d in
        match createSession env embeddingPath with
        | inl m =>
            ((Threw (loadFailed m), d1),
             checks ++ [CreateSession melPath; CreateSession embeddingPath])
        | inr s2 =>
            let d2 := set_embeddingSession (Some s2) d1 in
            let calls :=
              checks ++ [CreateSession melPath; CreateSession embeddingPath;
                         CreateSession wakeWordPath] in
            match createSession env wakeWordPath with
            | inl m => ((Threw (loadFailed m), d2), calls)
            | inr s3 =>
                ((Returned,
                  set_isInitialized true (set_wakeWordSession (Some s3) d2)),
                 calls)
            end
        end
    end.

(** [WakeWordDetector.create(options)]: the detector or the error, and the
    calls made on the environment on the way. *)
Definition create (env : Env) (options : WakeWordDetectorOptions)
  : (Thrown + Detector) * list EnvCall :=
  match construct env options with
  | inl e => (inl e, [])
  | inr detector =>
      match initialize env detector with
      | ((Threw e, _), calls) => (inl e, calls)
      | ((Returned, detector'), calls) => (inr detector', calls)
      end
  end.

(** *** The three inference stages *)

Definition computeMelspectrogram (audio : list Q) : M (list (list Q)) :=
  d <- get ;;
  match melSession d with
  | None => throw (WakeWordError "Mel session not initialized")
  | Some session =>
      let inputTensor := mkTensor "float32" audio [1; length audio] in
      let melData := run session inputTensor in
      let transformedMel := map (fun v => (v / 10 + 2)%Q) melData in
      let melBins := 32 in
      let numFrames := length transformedMel / melBins in
      ret (map (fun i =>
                  slice transformedMel (i * melBins) ((i + 1) * melBins))
               (seq 0 numFrames))
  end.

Definition computeEmbedding : M (list Q) :=
  d <- get ;;
  match embeddingSession d with
  | None => throw (WakeWordError "Embedding session not initialized")
  | Some session =>
      let melWindow := slice (melBuffer d) 0 MEL_BUFFER_SIZE in
      let melBins := 32 in
      melData <- lift (packRows melWindow MEL_BUFFER_SIZE melBins) ;;
      let inputTensor :=
        mkTensor "float32" melData [1; MEL_BUFFER_SIZE; melBins; 1] in
      ret (run session inputTensor)
  end.

(** The score is [scores[scores.length - 1]], undefined on an empty output. *)
Definition computeWakeWordScore : M (option Q) :=
  d <- get ;;
  match wakeWordSession d with
  | None => throw (WakeWordError "Wake word session not initialized")
  | Some session =>
      let numEmbeddings := 16 in
      let embeddingSize := 96 in
      let embeddings := sliceLast (embeddingBuffer d) numEmbeddings in
      embeddingData <- lift (packRows embeddings numEmbeddings embeddingSize) ;;
      let inputTensor :=
        mkTensor "float32" embeddingData [1; numEmbeddings; embeddingSize] in
      let scores := run session inputTensor in
      ret (nth_error scores (length scores - 1))
  end.

(** *** processFrame *)

(** [while (this.melBuffer.length >= MEL_BUFFER_SIZE) { ... }].  Every turn
    drops [EMBEDDING_WINDOW_SLIDE] entries of a buffer that holds at least
    [MEL_BUFFER_SIZE], so a number of turns equal to the buffer's length
    is never used up. *)
Fixpoint embedLoop (fuel : nat) : M unit :=
  d <- get ;;
  if MEL_BUFFER_SIZE <=? length (melBuffer d) then
    match fuel with
    | O => ret tt
    | S fuel' =>
        embedding <- computeEmbedding ;;
        modify (fun d => set_embeddingBuffer (embeddingBuffer d ++ [embedding]) d) ;;;
        modify (fun d =>
                  set_melBuffer (sliceFrom (melBuffer d) EMBEDDING_WINDOW_SLIDE) d) ;;;
        embedLoop fuel'
    end
  else ret tt.

Definition showNat (n : nat) : string :=
  NilZero.string_of_uint (Nat.to_uint n).

Definition invalidFrameLength (got : nat) : Thrown :=
  WakeWordError
    (String.append "Invalid frame length: expected "
       (String.append (showNat FRAME_LENGTH)
          (String.append ", got " (showNat got)))).

(** [x > sensitivity] where [x] may be undefined. *)
Definition exceeds (score : option Q) (threshold : number Q) : bool :=
  match score with Some s => gtQ (Finite s) threshold | None => false end.

Definition processFrame (frame : list Z) : M bool :=
  d <- get ;;
  if isReleased d then throw (WakeWordError "Detector has been released")
  else if negb (isInitialized d) then
    throw (WakeWordError "Detector not initialized")
  else if negb (length frame =? FRAME_LENGTH) then
    throw (invalidFrameLength (length frame))
  else
    let audioFloat := map (fun x => (inject_Z x / 32768)%Q) frame in
    melFrames <- computeMelspectrogram audioFloat ;;
    modify (fun d => set_melBuffer (melBuffer d ++ melFrames) d) ;;;
    d1 <- get ;;
    embedLoop (length (melBuffer d1)) ;;;
    let requiredEmbeddings := 16 in
    d2 <- get ;;
    if requiredEmbeddings <=? length (embeddingBuffer d2) then
      score <- computeWakeWordScore ;;
      modify (fun d => set_embeddingBuffer (sliceFrom (embeddingBuffer d) 1) d) ;;;
      d3 <- get ;;
      if exceeds score (sensitivity d3) then
        modify (fun d => set_embeddingBuffer [] (set_melBuffer [] d)) ;;;
        ret true
      else ret false
    else ret false.

Definition getFrameLength : M nat :=
  d <- get ;;
  if isReleased d then throw (WakeWordError "Detector has been released")
  else ret FRAME_LENGTH.

Definition reset : M unit :=
  d <- get ;;
  if isReleased d then throw (WakeWordError "Detector has been released")
  else modify (fun d => set_embeddingBuffer [] (set_melBuffer [] d)).

(** [if (session) { await session.release(); field = null; }] *)
Definition releaseSession (field : Detector -> option InferenceSession)
    (clear : Detector -> Detector) : M unit :=
  d <- get ;;
  match field d with
  | Some session =>
      match releaseOutcome session with
      | Threw m => throw (RuntimeError m)
      | Returned => modify clear
      end
  | None => ret tt
  end.

Definition release : M unit :=
  d <- get ;;
  if negb (isReleased d) then
    releaseSession melSession (set_melSession None) ;;;
    releaseSession embeddingSession (set_embeddingSession None) ;;;
    releaseSession wakeWordSession (set_wakeWordSession None) ;;;
    modify (fun d =>
              set_isInitialized false
                (set_isReleased true
                   (set_embeddingBuffer [] (set_melBuffer [] d))))
  else ret tt.

(** *** Feeding a frame sequence *)

Fixpoint runFrames (d : Detector) (frames : list (list Z))
  : list (Thrown + bool) * Detector :=
  match frames with
  | [] => ([], d)
  | f :: rest =>
      let '(r, d') := processFrame f d in
      let '(rs, d'') := runFrames d' rest in
      (r :: rs, d'')
  end.

End WakeWord.

(** * EmulatedChannel *)

Module Emulated.

Local Open Scope nat_scope.

Definition SAMPLE_RATE : Z := 16000%Z.
Definition FRAME_LENGTH : nat := 512.

(** A frame callback is client code.  The model keeps what the channel can
    see of it: whether, while handling the frame, it called [stop()] on
    the channel. *)
Definition FrameCallback : Type := list Z -> bool.

Record EmulatedChannelOptions : Type := mkOptions {
  opt_audioBuffer : option (list Z);
  opt_realtime : option bool;
  opt_frameLength : option nat;
  opt_sampleRate : option Z
}.

Definition noOptions : EmulatedChannelOptions := mkOptions None None None None.

(** The fields of the class, and [delivered]: the frames passed to the
    callback so far, oldest first. *)
Record Channel : Type := mkChannel {
  audioBuffer : list Z;
  frameCallback : option FrameCallback;
  running : bool;
  released : bool;
  position : nat;
  frameLength : nat;
  sampleRate : Z;
  realtime : bool;
  delivered : list (list Z)
}.

Definition set_audioBuffer (v : list Z) (c : Channel) :=
  mkChannel v (frameCallback c) (running c) (released c) (position c)
    (frameLength c) (sampleRate c) (realtime c) (delivered c).

Definition set_frameCallback (v : option FrameCallback) (c : Channel) :=
  mkChannel (audioBuffer c) v (running c) (released c) (position c)
    (frameLength c) (sampleRate c) (realtime c) (delivered c).

Definition set_running (v : bool) (c : Channel) :=
  mkChannel (audioBuffer c) (frameCallback c) v (released c) (position c)
    (frameLength c) (sampleRate c) (realtime c) (delivered c).

Definition set_released (v : bool) (c : Channel) :=
  mkChannel (audioBuffer c) (frameCallback c) (running c) v (position c)
    (frameLength c) (sampleRate c) (realtime c) (delivered c).

Definition set_position (v : nat) (c : Channel) :=
  mkChannel (audioBuffer c) (frameCallback c) (running c) (released c) v
    (frameLength c) (sampleRate c) (realtime c) (delivered c).

Definition set_delivered (v : list (list Z)) (c : Channel) :=
  mkChannel (audioBuffer c) (frameCallback c) (running c) (released c)
    (position c) (frameLength c) (sampleRate c) (realtime c) v.

Arguments set_audioBuffer _ _ /.
Arguments set_frameCallback _ _ /.
Arguments set_running _ _ /.
Arguments set_released _ _ /.
Arguments set_position _ _ /.
Arguments set_delivered _ _ /.

Definition new (options : EmulatedChannelOptions) : Channel :=
  mkChannel (opt_audioBuffer options ?? [])
    None false false 0
    (opt_frameLength options ?? FRAME_LENGTH)
    (opt_sampleRate options ?? SAMPLE_RATE)
    (opt_realtime options ?? true)
    [].

(** [fromBuffer(buffer, options)]: the options with [audioBuffer] replaced. *)
Definition fromBuffer (buffer : list Z) (options : EmulatedChannelOptions)
  : Channel :=
  new (mkOptions (Some buffer) (opt_realtime options)
         (opt_frameLength options) (opt_sampleRate options)).

Definition concatenateAudio (a b : list Z) : list Z := a ++ b.

Definition setAudioBuffer (buffer : list Z) (c : Channel) : Channel :=
  set_position 0 (set_audioBuffer buffer c).

Definition prependAudio (prependBuffer : list Z) (c : Channel) : Channel :=
  set_position 0
    (set_audioBuffer (concatenateAudio prependBuffer (audioBuffer c)) c).

Definition appendAudio (appendBuffer : list Z) (c : Channel) : Channel :=
  set_audioBuffer (concatenateAudio (audioBuffer c) appendBuffer) c.

(** [Math.ceil(a / b)] for a positive [b]. *)
Definition ceilDiv (a b : nat) : nat :=
  a / b + (if a mod b =? 0 then 0 else 1).

Definition getTotalFrames (c : Channel) : nat :=
  ceilDiv (length (audioBuffer c)) (frameLength c).

Definition getPosition (c : Channel) : nat := position c.

Definition isComplete (c : Channel) : bool :=
  length (audioBuffer c) <=? position c.

Definition reset (c : Channel) : Channel := set_position 0 c.

Definition onFrame (callback : FrameCallback) (c : Channel) : Channel :=
  set_frameCallback (Some callback) c.

Definition isRunning (c : Channel) : bool := running c.
Definition isReleased (c : Channel) : bool := released c.
Definition getFrameLength (c : Channel) : nat := frameLength c.

Definition stop (c : Channel) : Outcome string * Channel :=
  (Returned, set_running false c).

Definition release (c : Channel) : Outcome string * Channel :=
  if released c then (Returned, c)
  else
    match stop c with
    | (Threw e, c1) => (Threw e, c1)
    | (Returned, c1) =>
        (Returned,
         set_frameCallback None (set_audioBuffer [] (set_released true c1)))
    end.

(** [a.slice(start, end)] for indices that are not negative. *)
Definition slice (a : list Z) (start stop : nat) : list Z :=
  firstn (stop - start) (skipn start a).

(** The frame cut at the cursor: [new Int16Array(frameLength)] holds zeros,
    and [frame.set(frameData)] overwrites its first entries. *)
Definition frameAt (c : Channel) : list Z :=
  let endPos := Nat.min (position c + frameLength c) (length (audioBuffer c)) in
  let frameData := slice (audioBuffer c) (position c) endPos in
  if length frameData <? frameLength c then
    frameData ++ skipn (length frameData) (repeat 0%Z (frameLength c))
  else frameData.

(** The callback is invoked: the frame is recorded, and the channel stops
    if the callback asked for it. *)
Definition invoke (callback : FrameCallback) (frame : list Z) (c : Channel)
  : Channel :=
  let c1 := set_delivered (delivered c ++ [frame]) c in
  if callback frame then snd (stop c1) else c1.

(** The emission loop.  [stoppedAsleep p] tells whether some other code
    called [stop()] while the loop was suspended in [Bun.sleep] with the
    cursor at [p].  The result is [None] when [fuel] turns do not finish
    the loop. *)
Fixpoint emitLoop (stoppedAsleep : nat -> bool) (fuel : nat) (c : Channel)
  : option Channel :=
  if running c && negb (released c)
     && (position c <? length (audioBuffer c)) then
    match fuel with
    | O => None
    | S fuel' =>
        let frame := frameAt c in
        let c1 := match frameCallback c with
                  | Some callback =>
                      if running c then invoke callback frame c else c
                  | None => c
                  end in
        let c2 := set_position (position c1 + frameLength c1) c1 in
        let c3 := if realtime c2 && running c2
                     && (position c2 <? length (audioBuffer c2)) then
                    if stoppedAsleep (position c2)
                    then snd (stop c2) else c2
                  else c2 in
        emitLoop stoppedAsleep fuel' c3
    end
  else Some (set_running false c).

(** [start()], with the emission loop run to its end. *)
Definition start (stoppedAsleep : nat -> bool) (fuel : nat) (c : Channel)
  : option (Outcome string * Channel) :=
  if released c then
    Some (Threw "EmulatedChannel has been released"%string, c)
  else if running c then Some (Returned, c)
  else if length (audioBuffer c) =? 0 then
    Some (Threw "EmulatedChannel has no audio data to emit"%string, c)
  else
    match emitLoop stoppedAsleep fuel (set_running true c) with
    | Some c' => Some (Returned, c')
    | None => None
    end.

End Emulated.

(** * Audio utilities (src/audio/utils.ts) *)

Module Wav.

Local Open Scope nat_scope.

(** What a function of the module throws: an [Error] of its own, or a
    [RangeError] of the runtime's [Buffer] and typed arrays. *)
Inductive Thrown : Type :=
| Error (message : string)
| RangeError (message : string).

Definition bindE {A B : Type} (m : Thrown + A) (k : A -> Thrown + B)
  : Thrown + B :=
  match m with inl e => inl e | inr a => k a end.

Notation "x <~ m ;; k" := (bindE m (fun x => k))
  (at level 61, m at next level, right associativity).

(** ** The runtime's [Buffer]

    A buffer is the list of its bytes; offsets and lengths are [nat], the
    numbers read and written are [Z]. *)

Definition byteValue (b : Byte.byte) : Z := Z.of_N (Byte.to_N b).

(** The byte that holds the low eight bits of [v]. *)
Definition byteOf (v : Z) : Byte.byte :=
  match Byte.of_N (Z.to_N (v mod 256)) with
  | Some b => b
  | None => Byte.x00
  end.

(** [Buffer.alloc(size)]. *)
Definition alloc (size : nat) : list Byte.byte := repeat Byte.x00 size.

(** [buffer.subarray(start, end)], indices clamped to the buffer. *)
Definition subarray (buffer : list Byte.byte) (start stop : nat)
  : list Byte.byte :=
  firstn (stop - start) (skipn start buffer).

(** [buffer.toString("ascii", start, end)]: the bytes with their high bit
    cleared. *)
Definition asciiChar (b : Byte.byte) : Ascii.ascii :=
  Ascii.ascii_of_N (N.land (Byte.to_N b) 127).

Definition toStringAscii (buffer : list Byte.byte) (start stop : nat)
  : string :=
  string_of_list_ascii (map asciiChar (subarray buffer start stop)).

(** [bytes] stored in [buffer] from [offset] on. *)
Definition store (buffer : list Byte.byte) (offset : nat)
    (bytes : list Byte.byte) : list Byte.byte :=
  firstn offset buffer ++ bytes ++ skipn (offset + length bytes) buffer.

(** [buffer.write(s, offset)]: as many bytes of [s] as fit. *)
Definition write (s : string) (offset : nat) (buffer : list Byte.byte)
  : Thrown + list Byte.byte :=
  if length buffer <? offset then
    inl (RangeError "The value of offset is out of range")
  else
    inr (store buffer offset
           (firstn (length buffer - offset) (list_byte_of_string s))).

(** The low [width] bytes of [v], least significant first; a negative [v]
    comes out in two's complement. *)
Definition littleEndian (width : nat) (v : Z) : list Byte.byte :=
  map (fun k => byteOf (v / 256 ^ Z.of_nat k)) (seq 0 width).

Definition fromLittleEndian (bytes : list Byte.byte) : Z :=
  fold_right (fun b acc => (byteValue b + 256 * acc)%Z) 0%Z bytes.

Definition writeUIntLE (width : nat) (value : Z) (offset : nat)
    (buffer : list Byte.byte) : Thrown + list Byte.byte :=
  if (value <? 0)%Z || (256 ^ Z.of_nat width <=? value)%Z then
    inl (RangeError "The value of value is out of range")
  else if length buffer <? offset + width then
    inl (RangeError "The value of offset is out of range")
  else inr (store buffer offset (littleEndian width value)).

Definition writeUInt16LE := writeUIntLE 2.
Definition writeUInt32LE := writeUIntLE 4.

Definition writeInt16LE (value : Z) (offset : nat) (buffer : list Byte.byte)
  : Thrown + list Byte.byte :=
  if (value <? -32768)%Z || (32767 <? value)%Z then
    inl (RangeError "The value of value is out of range")
  else if length buffer <? offset + 2 then
    inl (RangeError "The value of offset is out of range")
  else inr (store buffer offset (littleEndian 2 value)).

Definition readUIntLE (width : nat) (buffer : list Byte.byte) (offset : nat)
  : Thrown + Z :=
  if length buffer <? offset + width then
    inl (RangeError "The value of offset is out of range")
  else inr (fromLittleEndian (subarray buffer offset (offset + width))).

Definition readUInt16LE := readUIntLE 2.
Definition readUInt32LE := readUIntLE 4.

(** A 16-bit pattern read as a signed number. *)
Definition toSigned16 (v : Z) : Z :=
  if (32768 <=? v)%Z then (v - 65536)%Z else v.

(** [new Int16Array(buffer, byteOffset, count)]: a view on the bytes, in
    the byte order of the platform (little endian). *)
Definition int16View (buffer : list Byte.byte) (byteOffset count : nat)
  : Thrown + list Z :=
  if negb (byteOffset mod 2 =? 0) then
    inl (RangeError "start offset of Int16Array should be a multiple of 2")
  else if length buffer <? byteOffset + count * 2 then
    inl (RangeError "Invalid typed array length")
  else
    inr (map (fun i =>
                toSigned16
                  (fromLittleEndian
                     (subarray buffer (byteOffset + i * 2)
                               (byteOffset + i * 2 + 2))))
             (seq 0 count)).

(** A number inside a template string. *)
Definition showZ (v : Z) : string := NilZero.string_of_int (Z.to_int v).

(** ** WAV files *)

Record WavHeader : Type := mkWavHeader {
  riffId : string;
  fileSize : Z;
  waveId : string;
  fmtId : string;
  fmtSize : Z;
  audioFormat : Z;
  numChannels : Z;
  sampleRate : Z;
  byteRate : Z;
  blockAlign : Z;
  bitsPerSample : Z;
  dataId : string;
  dataSize : Z;
  dataOffset : nat
}.

(** [AUDIO_FORMAT.SAMPLE_RATE] of src/audio/types.ts. *)
Definition SAMPLE_RATE : Z := 16000%Z.

(** The two chunk searches of [parseWavHeader]:

      while (offset < buffer.length - 8) {
        chunkId = ...; chunkSize = ...;
        if (chunkId === name) { ...; break; }
        offset += 8 + chunkSize;
      }

    The result is the offset and the size of the chunk found, if any.  A
    turn that does not find the chunk moves [offset] forward by at least 8,
    so [length buffer] turns are never used up. *)
Fixpoint findChunk (name : string) (buffer : list Byte.byte)
    (fuel offset : nat) : Thrown + option (nat * Z) :=
  if offset <? length buffer - 8 then
    let chunkId := toStringAscii buffer offset (offset + 4) in
    chunkSize <~ readUInt32LE buffer (offset + 4) ;;
    if String.eqb chunkId name then inr (Some (offset, chunkSize))
    else
      match fuel with
      | O => inr None
      | S fuel' =>
          findChunk name buffer fuel' (offset + 8 + Z.to_nat chunkSize)
      end
  else inr None.

Definition parseWavHeader (buffer : list Byte.byte) : Thrown + WavHeader :=
  let riffId := toStringAscii buffer 0 4 in
  if negb (String.eqb riffId "RIFF") then
    inl (Error "Invalid WAV file: missing RIFF header")
  else
    fileSize <~ readUInt32LE buffer 4 ;;
    let waveId := toStringAscii buffer 8 12 in
    if negb (String.eqb waveId "WAVE") then
      inl (Error "Invalid WAV file: missing WAVE header")
    else
      fmt <~ findChunk "fmt " buffer (length buffer) 12 ;;
      match fmt with
      | None => inl (Error "Invalid WAV file: missing fmt chunk")
      | Some (offset, fmtSize) =>
          let fmtOffset := offset + 8 in
          audioFormat <~ readUInt16LE buffer fmtOffset ;;
          numChannels <~ readUInt16LE buffer (fmtOffset + 2) ;;
          sampleRate <~ readUInt32LE buffer (fmtOffset + 4) ;;
          byteRate <~ readUInt32LE buffer (fmtOffset + 8) ;;
          blockAlign <~ readUInt16LE buffer (fmtOffset + 12) ;;
          bitsPerSample <~ readUInt16LE buffer (fmtOffset + 14) ;;
          data <~ findChunk "data" buffer (length buffer)
                    (fmtOffset + Z.to_nat fmtSize) ;;
          match data with
          | None => inl (Error "Invalid WAV file: missing data chunk")
          | Some (offset, dataSize) =>
              inr (mkWavHeader riffId fileSize waveId "fmt " fmtSize
                     audioFormat numChannels sampleRate byteRate blockAlign
                     bitsPerSample "data" dataSize (offset + 8))
          end
      end.

(** [loadWavFile(filePath)], where [file] is what the file system holds at
    [filePath]: nothing, or the bytes of the file. *)
Definition loadWavFile (file : option (list Byte.byte)) (filePath : string)
  : Thrown + list Z :=
  match file with
  | None => inl (Error (String.append "WAV file not found: " filePath))
  | Some buffer =>
      header <~ parseWavHeader buffer ;;
      if negb (audioFormat header =? 1)%Z then
        inl (Error (String.append "Unsupported audio format: "
                      (String.append (showZ (audioFormat header))
                                     " (only PCM/1 is supported)")))
      else if negb (bitsPerSample header =? 16)%Z then
        inl (Error (String.append "Unsupported bit depth: "
                      (String.append (showZ (bitsPerSample header))
                                     " (only 16-bit is supported)")))
      else if negb (numChannels header =? 1)%Z then
        inl (Error (String.append "Unsupported channel count: "
                      (String.append (showZ (numChannels header))
                                     " (only mono is supported)")))
      else if negb (sampleRate header =? SAMPLE_RATE)%Z then
        inl (Error (String.append "Unsupported sample rate: "
                      (String.append (showZ (sampleRate header))
                         (String.append " (expected "
                            (String.append (showZ SAMPLE_RATE) ")")))))
      else
        let dataBuffer :=
          subarray buffer (dataOffset header)
                   (dataOffset header + Z.to_nat (dataSize header)) in
        int16View buffer (dataOffset header) (length dataBuffer / 2)
  end.

(** [for (let i = 0; i < samples.length; i++) {
       buffer.writeInt16LE(samples[i], offset); offset += 2; }] *)
Fixpoint writeSamples (samples : list Z) (offset : nat)
    (buffer : list Byte.byte) : Thrown + list Byte.byte :=
  match samples with
  | [] => inr buffer
  | sample :: rest =>
      buffer' <~ writeInt16LE sample offset buffer ;;
      writeSamples rest (offset + 2) buffer'
  end.

Definition createWavBuffer (samples : list Z) (sampleRate : option Z)
  : Thrown + list Byte.byte :=
  let sampleRate := sampleRate ?? SAMPLE_RATE in
  let numChannels := 1%Z in
  let bitsPerSample := 16%Z in
  let byteRate := (sampleRate * numChannels * (bitsPerSample / 8))%Z in
  let blockAlign := (numChannels * (bitsPerSample / 8))%Z in
  let dataSize := length samples * 2 in
  let fileSize := 36 + dataSize in
  let buffer := alloc (44 + dataSize) in
  buffer <~ write "RIFF" 0 buffer ;;
  buffer <~ writeUInt32LE (Z.of_nat fileSize) 4 buffer ;;
  buffer <~ write "WAVE" 8 buffer ;;
  buffer <~ write "fmt " 12 buffer ;;
  buffer <~ writeUInt32LE 16 16 buffer ;;
  buffer <~ writeUInt16LE 1 20 buffer ;;
  buffer <~ writeUInt16LE numChannels 22 buffer ;;
  buffer <~ writeUInt32LE sampleRate 24 buffer ;;
  buffer <~ writeUInt32LE byteRate 28 buffer ;;
  buffer <~ writeUInt16LE blockAlign 32 buffer ;;
  buffer <~ writeUInt16LE bitsPerSample 34 buffer ;;
  buffer <~ write "data" 36 buffer ;;
  buffer <~ writeUInt32LE (Z.of_nat dataSize) 40 buffer ;;
  writeSamples samples 44 buffer.

(** [result.set(src, offset)] on an [Int16Array]. *)
Definition typedSet (dst src : list Z) (offset : nat) : Thrown + list Z :=
  if offset + length src <=? length dst then
    inr (firstn offset dst ++ src ++ skipn (offset + length src) dst)
  else inl (RangeError "offset is out of bounds").

Definition concatenateAudio (a b : list Z) : Thrown + list Z :=
  let result := repeat 0%Z (length a + length b) in
  result <~ typedSet result a 0 ;;
  typedSet result b (length a).

End Wav.

(** * EndOfSpeechDetector (src/vad/index.ts) *)

Module EOS.

Record Detector : Type := mkDetector {
  speechThreshold : number Q;
  silenceDuration : number Z;
  maxDuration : number Z;
  silenceStartTime : option Z;
  recordingStartTime : option Z;
  hasDetectedSpeech : bool
}.

Definition set_silenceStartTime (t : option Z) (d : Detector) : Detector :=
  mkDetector (speechThreshold d) (silenceDuration d) (maxDuration d)
    t (recordingStartTime d) (hasDetectedSpeech d).

Definition set_recordingStartTime (t : option Z) (d : Detector) : Detector :=
  mkDetector (speechThreshold d) (silenceDuration d) (maxDuration d)
    (silenceStartTime d) t (hasDetectedSpeech d).

Definition set_hasDetectedSpeech (b : bool) (d : Detector) : Detector :=
  mkDetector (speechThreshold d) (silenceDuration d) (maxDuration d)
    (silenceStartTime d) (recordingStartTime d) b.

Arguments set_silenceStartTime _ _ /.
Arguments set_recordingStartTime _ _ /.
Arguments set_hasDetectedSpeech _ _ /.

(** The constructor: three optional arguments with defaults, no checks. *)
Definition new (speechThreshold : option (number Q))
    (silenceDuration maxDuration : option (number Z)) : Detector :=
  mkDetector (speechThreshold ?? Finite (1 # 2)%Q)
    (silenceDuration ?? Finite 700) (maxDuration ?? Finite 30000)
    None None false.

(** [processFrame(voiceProbability)], called when [Date.now()] reads [now]. *)
Definition processFrame (d : Detector) (now : Z) (voiceProbability : Q)
  : VAD.VADStatus * Detector :=
  let d1 := match recordingStartTime d with
            | None => set_recordingStartTime (Some now) d
            | Some _ => d
            end in
  if gtZ (Finite (now - VAD.toNumber (recordingStartTime d1)))
         (maxDuration d1) then
    (VAD.Timeout, d1)
  else if gtQ (Finite voiceProbability) (speechThreshold d1) then
    (VAD.Continue, set_silenceStartTime None (set_hasDetectedSpeech true d1))
  else if negb (hasDetectedSpeech d1) then (VAD.Continue, d1)
  else
    let d2 := match silenceStartTime d1 with
              | None => set_silenceStartTime (Some now) d1
              | Some _ => d1
              end in
    if gtZ (Finite (now - VAD.toNumber (silenceStartTime d2)))
           (silenceDuration d2) then
      (VAD.End, d2)
    else (VAD.Continue, d2).

Definition reset (d : Detector) : Detector :=
  set_hasDetectedSpeech false
    (set_recordingStartTime None (set_silenceStartTime None d)).

(** A sequence of calls: the clock reading and the probability of each. *)
Fixpoint run (d : Detector) (ins : list (Z * Q))
  : list VAD.VADStatus * Detector :=
  match ins with
  | [] => ([], d)
  | (now, p) :: rest =>
      let '(s, d') := processFrame d now p in
      let '(ss, d'') := run d' rest in
      (s :: ss, d'')
  end.

End EOS.

(** * Notions used in the statements *)

(** ** Comparisons with a configured number

    [Qabove p t] says that the code's test [p > t] succeeds for the
    probability [p] and the configured threshold [t]; [Zabove v n] and
    [Zbelow v n] say the same of [v > n] and [v < n] for a time span [v]
    and a configured duration [n].  None of them holds of NaN. *)
Definition Qabove (p : Q) (t : number Q) : Prop := gtQ (Finite p) t = true.
Definition Qbelow (p : Q) (t : number Q) : Prop := ltQ (Finite p) t = true.
Definition Zabove (v : Z) (n : number Z) : Prop := gtZ (Finite v) n = true.
Definition Zbelow (v : Z) (n : number Z) : Prop := ltZ (Finite v) n = true.

(** A threshold in the unit interval, and a duration that is not negative:
    a value from 0 on, or plus infinity. *)
Definition unitInterval (t : number Q) : Prop :=
  exists q, t = Finite q /\ (0 <= q /\ q <= 1)%Q.

Definition nonNegative (n : number Z) : Prop :=
  n = PositiveInfinity \/ exists v, n = Finite v /\ 0 <= v.

Module VADSpec.

Import VAD.

(** A detector that [create] has initialised and nobody has released. *)
Definition live (d : Detector) : Prop :=
  isReleased d = false /\ isInitialized d = true /\ vad d = Some EngineHandle.

(** The state in which [create] hands over a detector, and to which
    [reset] brings it back. *)
Definition pristine (c : Config) : Detector :=
  mkDetector c (Some EngineHandle) [] None None false None false true 0%Q false.

(** The configuration the constructor reads off the options. *)
Definition configOf (o : VoiceActivityDetectorOptions) : Config :=
  mkConfig (opt_speechThreshold o ?? Finite (1 # 2)%Q)
           (opt_silenceThreshold o ?? Finite (35 # 100)%Q)
           (opt_silenceDuration o ?? Finite 700)
           (opt_maxRecordingDuration o ?? Finite 30000)
           (opt_minSpeechDuration o ?? Finite 200)
           (opt_inputSampleRate o ?? Finite TARGET_SAMPLE_RATE).

Definition defaultConfig : Config := configOf noOptions.

(** What the constructor's four checks let through: thresholds in [0, 1]
    and durations that are not negative, and NaN for any of them. *)
Definition accepted (c : Config) : Prop :=
  (speechThreshold c = NaN \/ unitInterval (speechThreshold c)) /\
  (silenceThreshold c = NaN \/ unitInterval (silenceThreshold c)) /\
  (silenceDuration c = NaN \/ nonNegative (silenceDuration c)) /\
  (maxRecordingDuration c = NaN \/ nonNegative (maxRecordingDuration c)).

(** The error with which a detector that is not live turns a call down. *)
Definition rejection (d : Detector) : VADError :=
  if isReleased d then mkVADError "VAD has been released"
  else mkVADError "VAD not initialized".

(** The detector as [processFrame] sees it once the engine has answered:
    recording started, frame buffered, callbacks run. *)
Definition entered (d : Detector) (now : Z) (frame : list Z)
    (evs : list EngineEvent) : Detector :=
  let d1 := match recordingStartTime d with
            | None => set_recordingStartTime (Some now) d
            | Some _ => d
            end in
  processAudio (set_audioBuffer (audioBuffer d1 ++ [frame]) d1) evs.

(** The clock reading at which the current recording started, for a frame
    that arrives at [now]. *)
Definition startOf (d : Detector) (now : Z) : Z :=
  match recordingStartTime d with Some t => t | None => now end.

(** The probability the engine reported last during one [processAudio]. *)
Definition reported (evs : list EngineEvent) : option Q :=
  fold_left (fun acc ev =>
               match ev with FrameProcessed p => Some p | _ => acc end)
            evs None.

Definition isSpeechStart (ev : EngineEvent) : bool :=
  match ev with SpeechStart _ => true | _ => false end.

(** A frame whose probability lies strictly between the two thresholds. *)
Definition dips (c : Config) (i : Input) : Prop :=
  exists p, reported (events i) = Some p /\
            Qabove p (silenceThreshold c) /\ Qbelow p (speechThreshold c).

(** A frame whose probability is strictly above the onset threshold. *)
Definition aboveOnset (c : Config) (i : Input) : Prop :=
  exists p, reported (events i) = Some p /\ Qabove p (speechThreshold c).

(** A frame during which the engine observes no speech: no speech-start
    callback, and no probability above the onset threshold. *)
Definition quiet (c : Config) (i : Input) : Prop :=
  forallb (fun ev => negb (isSpeechStart ev)) (events i) = true /\
  forall p, In (FrameProcessed p) (events i) ->
            ~ Qabove p (speechThreshold c).

Definition neverEnds (rs : list (VADError + VADResult)) : Prop :=
  Forall (fun r => statusOf r <> Some End) rs.

(** The hysteresis sentence of the specification: once speech has begun,
    frames that dip between the thresholds never end the utterance. *)
Definition hysteresis_claim : Prop :=
  forall (c : Config) (onset tail : list Input),
    accepted c ->
    hasSpeech (snd (run (pristine c) onset)) = true ->
    Forall (dips c) tail ->
    neverEnds (fst (run (snd (run (pristine c) onset)) tail)).

(** The detector with another offset (silence) threshold. *)
Definition withSilenceThreshold (s : number Q) (d : Detector) : Detector :=
  mkDetector
    (mkConfig (speechThreshold (cfg d)) s (silenceDuration (cfg d))
       (maxRecordingDuration (cfg d)) (minSpeechDuration (cfg d))
       (inputSampleRate (cfg d)))
    (vad d) (audioBuffer d) (silenceStartTime d) (recordingStartTime d)
    (hasDetectedSpeech d) (speechStartTime d) (isReleased d)
    (isInitialized d) (lastProbability d) (lastIsSpeech d).










(** The part of [processFrame] that follows the engine's answer. *)
Definition afterAudio (e : Detector) (now : Z)
  : (VADError + VADResult) * Detector :=
  let probability := lastProbability e in
  let isSpeech := lastIsSpeech e in
  if gtZ (Finite (now - toNumber (recordingStartTime e)))
         (maxRecordingDuration (cfg e)) then
    let audio := getBufferedAudio e in
    match reset e with
    | (Threw x, d') => (inl x, d')
    | (Returned, d') =>
        (inr (mkResult Timeout probability isSpeech (Some audio)), d')
    end
  else
    let d4 := if isSpeech && negb (hasDetectedSpeech e) then
                set_silenceStartTime None
                  (set_speechStartTime (Some now)
                     (set_hasDetectedSpeech true e))
              else e in
    if isSpeech then
      (inr (mkResult Continue probability isSpeech None),
       set_silenceStartTime None d4)
    else if negb (hasDetectedSpeech d4) then
      (inr (mkResult Continue probability isSpeech None), d4)
    else
      let speechDuration :=
        if truthy (speechStartTime d4)
        then now - toNumber (speechStartTime d4) else 0 in
      if ltZ (Finite speechDuration) (minSpeechDuration (cfg d4)) then
        (inr (mkResult Continue probability isSpeech None), d4)
      else
        let d5 := match silenceStartTime d4 with
                  | None => set_silenceStartTime (Some now) d4
                  | Some _ => d4
                  end in
        if gtZ (Finite (now - toNumber (silenceStartTime d5)))
               (silenceDuration (cfg d5)) then
          let audio := getBufferedAudio d5 in
          match reset d5 with
          | (Threw x, d') => (inl x, d')
          | (Returned, d') =>
              (inr (mkResult End probability isSpeech (Some audio)), d')
          end
        else
          (inr (mkResult Continue probability isSpeech None), d5).

(** No speech seen so far in this recording. *)
Definition unspoken (d : Detector) : Prop :=
  hasDetectedSpeech d = false /\ lastIsSpeech d = false /\
  silenceStartTime d = None.

Definition continues (r : VADError + VADResult) : Prop :=
  statusOf r = Some Continue.

(** Some result has status "end". *)
Definition endsSomewhere (rs : list (VADError + VADResult)) : bool :=
  existsb (fun r => match statusOf r with Some End => true | _ => false end) rs.

(** The inputs of scenario A: frames of digital silence. *)
Definition silentFrame : list Z := repeat 0 VAD_FRAME_SAMPLES.

(** *** Sample runs *)

(** A frame rated 0.8 that opens the utterance, then two frames rated 0.4,
    300 ms and 1100 ms later. *)
Definition onsetRun : list Input :=
  [mkInput 1000 silentFrame [FrameProcessed (8 # 10); SpeechStart 1000]].

Definition dipRun : list Input :=
  [mkInput 1300 silentFrame [FrameProcessed (4 # 10)];
   mkInput 2100 silentFrame [FrameProcessed (4 # 10)]].


Definition slowRun : list Input :=
  [mkInput 1000 silentFrame [FrameProcessed (8 # 10); SpeechStart 1000];
   mkInput 1300 silentFrame [FrameProcessed (1 # 10)];
   mkInput 2100 silentFrame [FrameProcessed (1 # 10)]].

(** Three frames of speech. *)
Definition speechRun : list Input :=
  [mkInput 1000 silentFrame [FrameProcessed (8 # 10); SpeechStart 1000];
   mkInput 1096 silentFrame [FrameProcessed (9 # 10)];
   mkInput 1192 silentFrame [FrameProcessed (6 # 10)]].

(** Three frames of silence, the third one past the 30 s bound. *)
Definition silentRun : list Input :=
  [mkInput 1000 silentFrame [FrameProcessed (1 # 10)];
   mkInput 20000 silentFrame [FrameProcessed (1 # 10)]].

Definition lateFrame : Input :=
  mkInput 31001 silentFrame [FrameProcessed (1 # 10)].

Definition lateResult : VADResult :=
  mkResult Timeout (1 # 10) false (Some (repeat 0 (3 * VAD_FRAME_SAMPLES))).

(** Options that ask for a negative minimum speech duration. *)
Definition negativeMinSpeech : VoiceActivityDetectorOptions :=
  mkOptions None None None None (Some (Finite (-1))) None.

(** *** Results *)

(** A result that reports no speech in its frame. *)
Definition silentResult (r : VADError + VADResult) : Prop :=
  match r with inr v => isSpeech v = false | inl _ => False end.

(** A result whose speech flag is its probability compared with the onset
    threshold. *)
Definition flagged (c : Config) (r : VADError + VADResult) : Prop :=
  match r with
  | inr v => isSpeech v = gtQ (Finite (probability v)) (speechThreshold c)
  | inl _ => False
  end.

(** The detector's last probability and speech flag agree in that way. *)
Definition coherent (d : Detector) : Prop :=
  lastIsSpeech d
  = gtQ (Finite (lastProbability d)) (speechThreshold (cfg d)).

End VADSpec.

Module WWSpec.

Import WakeWord.

Local Open Scope nat_scope.

(** A detector that [create] has initialised with the three sessions and
    nobody has released. *)
Definition ready (d : Detector) (mel emb ww : InferenceSession) : Prop :=
  isReleased d = false /\ isInitialized d = true /\
  melSession d = Some mel /\ embeddingSession d = Some emb /\
  wakeWordSession d = Some ww.

(** The tensor shapes the models fix: mel frames of 32 bins, embeddings of
    96 entries. *)
Definition melShaped (rows : list (list Q)) : Prop :=
  Forall (fun r => length r = 32) rows.

Definition embeddingShaped (rows : list (list Q)) : Prop :=
  Forall (fun r => length r = 96) rows.

(** Both windows replaced. *)
Definition withWindows (mel emb : list (list Q)) (d : Detector) : Detector :=
  set_embeddingBuffer emb (set_melBuffer mel d).

(** Stage 1 on one audio frame: the mel frames it yields. *)
Definition melFramesOf (mel : InferenceSession) (frame : list Z)
  : list (list Q) :=
  let audioFloat := map (fun x => (inject_Z x / 32768)%Q) frame in
  let melData := run mel (mkTensor "float32" audioFloat [1; length audioFloat]) in
  let transformedMel := map (fun v => (v / 10 + 2)%Q) melData in
  map (fun i => slice transformedMel (i * 32) ((i + 1) * 32))
      (seq 0 (length transformedMel / 32)).

(** How often the embedding stage runs on a mel window of [n] frames: not
    at all below capacity, then once per stride that still leaves a full
    window. *)
Definition turns (n : nat) : nat :=
  if n <? MEL_BUFFER_SIZE then 0
  else (n - MEL_BUFFER_SIZE) / EMBEDDING_WINDOW_SLIDE + 1.

(** Stage 2 on the full window that starts [k] strides into [mel]. *)
Definition embeddingAt (emb : InferenceSession) (mel : list (list Q))
    (k : nat) : list Q :=
  run emb
    (mkTensor "float32"
       (concat (firstn MEL_BUFFER_SIZE (skipn (EMBEDDING_WINDOW_SLIDE * k) mel)))
       [1; MEL_BUFFER_SIZE; 32; 1]).

(** Stage 3 on the last 16 embeddings. *)
Definition scoreOf (ww : InferenceSession) (embs : list (list Q)) : option Q :=
  let scores :=
    run ww (mkTensor "float32" (concat (sliceLast embs 16)) [1; 16; 96]) in
  nth_error scores (length scores - 1).

(** *** [path.join] on a POSIX system

    The [path.join] of the sample environments below; the statements hold
    for whatever [path.join] an environment has.  The segments that are
    not empty are joined by "/" and the result is normalised: empty
    segments and "." dropped, ".." taking back the segment before it (or
    kept, in a relative path that has none), a trailing "/" kept. *)

(** The pieces of [s] between the separators. *)
Fixpoint segments (s : string) : list string :=
  match s with
  | EmptyString => [EmptyString]
  | String c rest =>
      if Ascii.eqb c "/"%char then EmptyString :: segments rest
      else match segments rest with
           | seg :: segs => String c seg :: segs
           | [] => [String c EmptyString]
           end
  end.

(** One piece met by the normaliser; [kept] holds the segments kept so far,
    the last one first. *)
Definition normalizeStep (allowAboveRoot : bool) (kept : list string)
    (seg : string) : list string :=
  if String.eqb seg "" || String.eqb seg "." then kept
  else if String.eqb seg ".." then
    match kept with
    | last :: before =>
        if String.eqb last ".." then
          if allowAboveRoot then seg :: kept else kept
        else before
    | [] => if allowAboveRoot then [seg] else []
    end
  else seg :: kept.

Definition endsWithSeparator (path : string) : bool :=
  match String.get (String.length path - 1) path with
  | Some c => Ascii.eqb c "/"%char
  | None => false
  end.

Definition normalize (path : string) : string :=
  if String.eqb path "" then "."%string
  else
    let isAbsolute := String.prefix "/" path in
    let trailingSeparator := endsWithSeparator path in
    let kept :=
      fold_left (normalizeStep (negb isAbsolute)) (segments path) [] in
    let body := String.concat "/" (rev kept) in
    if String.eqb body "" then
      if isAbsolute then "/"%string
      else if trailingSeparator then "./"%string else "."%string
    else
      let body := if trailingSeparator then String.append body "/" else body in
      if isAbsolute then String.append "/" body else body.

Definition posixJoin (a b : string) : string :=
  match filter (fun s => negb (String.eqb s "")) [a; b] with
  | [] => "."%string
  | parts => normalize (String.concat "/" parts)
  end.

(** *** Sample sessions *)

(** A mel model that yields five frames per chunk, an embedding model and a
    classifier with fixed outputs; the classifier scores 0.1. *)
Definition melFive : InferenceSession :=
  mkSession (fun _ => repeat (1 # 1)%Q (5 * 32)) Returned.

Definition embFixed : InferenceSession :=
  mkSession (fun _ => repeat (1 # 2)%Q 96) Returned.

Definition classifier (score : Q) : InferenceSession :=
  mkSession (fun _ => [score]) Returned.

(** A session whose own [release()] rejects. *)
Definition stubborn : InferenceSession :=
  mkSession (fun _ => repeat (1 # 1)%Q (5 * 32)) (Threw "dispose failed"%string).

Definition sampleEnv (mel : InferenceSession) (score : Q) : Env :=
  mkEnv "/srv/grimm" posixJoin (fun _ => true)
    (fun path =>
       if String.eqb path "/srv/grimm/models/melspectrogram.onnx" then inr mel
       else if String.eqb path "/srv/grimm/models/embedding_model.onnx"
            then inr embFixed
            else inr (classifier score)).

(** The detector [create] returns in that environment. *)
Definition sampleDetector (mel : InferenceSession) (score : Q) : Detector :=
  mkDetector (Some mel) (Some embFixed) (Some (classifier score)) [] []
    (Finite (1 # 2)%Q) false true "/srv/grimm/models" hey_jarvis.

(** The same detector one mel frame short of a full feature window and one
    embedding short of a full embedding window. *)
Definition primed (score : Q) : Detector :=
  withWindows (repeat (repeat (21 # 10)%Q 32) 75)
              (repeat (repeat (1 # 2)%Q 96) 15)
              (sampleDetector melFive score).

Definition tooSensitive : WakeWordDetectorOptions :=
  mkOptions None None (Some (Finite (15 # 10)%Q)).

(** Options whose sensitivity is NaN, as [parseFloat] returns it for a
    text that is not a number. *)
Definition notANumber : WakeWordDetectorOptions :=
  mkOptions None None (Some NaN).

Definition zeroFrame : list Z := repeat 0%Z FRAME_LENGTH.

(** *** Creation *)

(** The directory and the wake word the constructor reads off the
    options. *)
Definition modelDir (env : Env) (options : WakeWordDetectorOptions) : string :=
  opt_modelPath options ?? join env (cwd env) "models".

Definition wakeWordOf (options : WakeWordDetectorOptions) : WakeWord :=
  opt_wakeWord options ?? hey_jarvis.

Definition sensitivityOf (options : WakeWordDetectorOptions) : number Q :=
  opt_sensitivity options ?? Finite (1 # 2)%Q.

(** The three model files [initialize] looks for, in its order. *)
Definition melFile (env : Env) (options : WakeWordDetectorOptions) : string :=
  join env (modelDir env options) "melspectrogram.onnx".

Definition embeddingFile (env : Env) (options : WakeWordDetectorOptions)
  : string :=
  join env (modelDir env options) "embedding_model.onnx".

Definition wakeWordFile (env : Env) (options : WakeWordDetectorOptions)
  : string :=
  join env (modelDir env options)
       (String.append (wakeWordName (wakeWordOf options)) "_v0.1.onnx").

Definition isSessionCreation (call : EnvCall) : bool :=
  match call with CreateSession _ => true | ExistsSync _ => false end.

(** An environment in which the embedding model has not been downloaded. *)
Definition incompleteEnv : Env :=
  mkEnv "/srv/grimm" posixJoin
    (fun path =>
       negb (String.eqb path "/srv/grimm/models/embedding_model.onnx"))
    (fun _ => inr melFive).

(** A call that returned. *)
Definition returned (r : Thrown + bool) : Prop := exists b, r = inr b.

End WWSpec.

Module ECSpec.

Import Emulated.

Local Open Scope nat_scope.

(** The frame that starts at sample [p]: up to [F] samples of the buffer,
    then zeros up to length [F]. *)
Definition chunkAt (buffer : list Z) (F p : nat) : list Z :=
  let data := firstn F (skipn p buffer) in
  data ++ repeat 0%Z (F - length data).

(** [n] consecutive frames from sample [p] on. *)
Definition chunks (buffer : list Z) (F p n : nat) : list (list Z) :=
  map (fun k => chunkAt buffer F (p + k * F)) (seq 0 n).

(** A callback that never stops the channel it listens to. *)
Definition attentive (callback : FrameCallback) : Prop :=
  forall f, callback f = false.

(** Nobody stops the channel while its loop sleeps. *)
Definition undisturbed (stoppedAsleep : nat -> bool) : Prop :=
  forall p, stoppedAsleep p = false.

(** *** Sample channel: 600 samples of value 1000, frames of 512 *)

Definition sampleBuffer : list Z := repeat 1000%Z 600.

Definition fastOptions : EmulatedChannelOptions :=
  mkOptions None (Some false) None None.

Definition listener : FrameCallback := fun _ => false.

Definition nobody : nat -> bool := fun _ => false.

(** *** Callbacks that stop the channel *)

(** The frames a callback gets to hear out of [frames]: all of them up to
    and including the first on which it calls [stop()]. *)
Fixpoint heard (callback : FrameCallback) (frames : list (list Z))
  : list (list Z) :=
  match frames with
  | [] => []
  | f :: rest => if callback f then [f] else f :: heard callback rest
  end.


(** A callback that stops the channel on the first frame it hears. *)
Definition impatient : FrameCallback := fun _ => true.


(** 1200 samples: two full frames of 512 and a rest of 176. *)
Definition longBuffer : list Z := repeat 7%Z 1200.

End ECSpec.

Module WavSpec.

Import Wav.

Local Open Scope nat_scope.

(** A value an [Int16Array] can hold. *)
Definition int16 (v : Z) : Prop := (-32768 <= v <= 32767)%Z.

(** The 44 bytes of a canonical header: mono, 16 bits, PCM, for [count]
    samples at [rate] samples a second. *)
Definition headerBytes (rate : Z) (count : nat) : list Byte.byte :=
  list_byte_of_string "RIFF"
  ++ littleEndian 4 (Z.of_nat (36 + count * 2))
  ++ list_byte_of_string "WAVE"
  ++ list_byte_of_string "fmt "
  ++ littleEndian 4 16
  ++ littleEndian 2 1
  ++ littleEndian 2 1
  ++ littleEndian 4 rate
  ++ littleEndian 4 (rate * 2)
  ++ littleEndian 2 2
  ++ littleEndian 2 16
  ++ list_byte_of_string "data"
  ++ littleEndian 4 (Z.of_nat (count * 2)).

(** The samples as 16-bit little-endian PCM. *)
Definition pcm (samples : list Z) : list Byte.byte :=
  flat_map (littleEndian 2) samples.

(** What [parseWavHeader] reads off a canonical header. *)
Definition headerOf (rate : Z) (count : nat) : WavHeader :=
  mkWavHeader "RIFF" (Z.of_nat (36 + count * 2)) "WAVE" "fmt " 16 1 1
    rate (rate * 2) 2 16 "data" (Z.of_nat (count * 2)) 44.

(** Sample rates and sample counts whose header fields fit 32 bits. *)
Definition fits (rate : Z) (count : nat) : Prop :=
  (0 <= rate < 2147483648)%Z /\ (Z.of_nat (36 + count * 2) < 4294967296)%Z.

(** *** Sample recording *)

Definition threeSamples : list Z := [1000; -2; 32767]%Z.

End WavSpec.

Module EOSSpec.

Import VAD.

(** The standalone detector made for a segmenter's configuration. *)
Definition standalone (c : Config) : EOS.Detector :=
  EOS.new (Some (speechThreshold c)) (Some (silenceDuration c))
          (Some (maxRecordingDuration c)).

(** A frame for which the engine reports its probability and nothing else:
    a clock reading and a probability, and the samples. *)
Definition rated (x : (Z * Q) * list Z) : Input :=
  mkInput (fst (fst x)) (snd x) [FrameProcessed (snd (fst x))].

(** Clock readings that never go back. *)
Fixpoint notBefore (t : Z) (nows : list Z) : Prop :=
  match nows with
  | [] => True
  | x :: rest => t <= x /\ notBefore x rest
  end.

Definition ascending (nows : list Z) : Prop :=
  match nows with
  | [] => True
  | t :: rest => notBefore t rest
  end.

(** The statuses up to and including the first that is not "continue". *)
Fixpoint untilVerdict (ss : list (option VADStatus))
  : list (option VADStatus) :=
  match ss with
  | [] => []
  | Some Continue :: rest => Some Continue :: untilVerdict rest
  | s :: _ => [s]
  end.

(** The standalone detector holds what the segmenter holds, and the
    segmenter's speech start is not after [t]. *)
Definition mirrors (t : Z) (d : Detector) (e : EOS.Detector) : Prop :=
  VADSpec.live d /\
  speechThreshold (cfg d) = EOS.speechThreshold e /\
  silenceDuration (cfg d) = EOS.silenceDuration e /\
  maxRecordingDuration (cfg d) = EOS.maxDuration e /\
  recordingStartTime d = EOS.recordingStartTime e /\
  silenceStartTime d = EOS.silenceStartTime e /\
  hasDetectedSpeech d = EOS.hasDetectedSpeech e /\
  forall s, speechStartTime d = Some s -> s <= t.

(** *** Sample utterance: speech, then silence, 300 ms and 1100 ms later *)

Definition utterance : list ((Z * Q) * list Z) :=
  [((1000, (8 # 10)%Q), VADSpec.silentFrame);
   ((1300, (1 # 10)%Q), VADSpec.silentFrame);
   ((2100, (1 # 10)%Q), VADSpec.silentFrame)].

Definition promptConfig : Config :=
  mkConfig (Finite (1 # 2)%Q) (Finite (35 # 100)%Q) (Finite 700)
    (Finite 30000) (Finite 0) (Finite 16000).

(** A standalone detector whose recording started at 1000. *)
Definition recording : EOS.Detector :=
  EOS.mkDetector (Finite (1 # 2)%Q) (Finite 700) (Finite 30000)
    None (Some 1000) false.

End EOSSpec.

(** * Properties *)

(** ** Comparisons *)

Lemma Qgtb_true (x y : Q) : Qgtb x y = true <-> (y < x)%Q.
Proof.
  unfold Qgtb. rewrite negb_true_iff.
  split; intro H.
  - apply Qnot_le_lt. intro Hle. apply Qle_bool_iff in Hle. congruence.
  - destruct (Qle_bool x y) eqn:E; [|reflexivity].
    apply Qle_bool_iff in E. exfalso. exact (Qlt_not_le _ _ H E).
Qed.

Lemma Qgtb_false (x y : Q) : Qgtb x y = false <-> (x <= y)%Q.
Proof.
  unfold Qgtb. rewrite negb_false_iff. apply Qle_bool_iff.
Qed.

Lemma Qltb_true (x y : Q) : Qltb x y = true <-> (x < y)%Q.
Proof. exact (Qgtb_true y x). Qed.

Lemma Qltb_false (x y : Q) : Qltb x y = false <-> (y <= x)%Q.
Proof. exact (Qgtb_false y x). Qed.

(** ** Comparisons with a configured number *)

Lemma not_Qabove (p : Q) (t : number Q) :
  ~ Qabove p t <-> gtQ (Finite p) t = false.
Proof. unfold Qabove. apply not_true_iff_false. Qed.

Lemma not_Zabove (v : Z) (n : number Z) :
  ~ Zabove v n <-> gtZ (Finite v) n = false.
Proof. unfold Zabove. apply not_true_iff_false. Qed.

Lemma not_Zbelow (v : Z) (n : number Z) :
  ~ Zbelow v n <-> ltZ (Finite v) n = false.
Proof. unfold Zbelow. apply not_true_iff_false. Qed.

(** A threshold passes the test [t < 0 || t > 1] when it lies in the unit
    interval, and when it is NaN. *)
Lemma threshold_check (t : number Q) :
  ltQ t (Finite 0%Q) || gtQ t (Finite 1%Q) = false
  <-> t = NaN \/ unitInterval t.
Proof.
  unfold unitInterval.
  destruct t as [q| | |]; cbn [ltQ gtQ less orb].
  - split.
    + intro H. apply orb_false_elim in H as [H0 H1].
      apply Qltb_false in H0. apply Qltb_false in H1.
      right. exists q. split; [reflexivity|]. split; assumption.
    + intros [H|(q' & E & H0 & H1)]; [discriminate H|].
      injection E as <-.
      apply Qltb_false in H0. apply Qltb_false in H1. rewrite H0, H1.
      reflexivity.
  - split; [discriminate|]. intros [H|(q & H & _)]; discriminate H.
  - split; [discriminate|]. intros [H|(q & H & _)]; discriminate H.
  - split; [left; reflexivity|reflexivity].
Qed.

(** A duration passes the test [n < 0] when it is not negative, and when it
    is NaN. *)
Lemma duration_check (n : number Z) :
  ltZ n (Finite 0) = false <-> n = NaN \/ nonNegative n.
Proof.
  unfold nonNegative. destruct n as [v| | |]; cbn [ltZ less].
  - rewrite Z.ltb_ge. split.
    + intro H. right. right. exists v. split; [reflexivity|exact H].
    + intros [H|[H|(v' & E & H)]]; try discriminate H.
      injection E as <-. exact H.
  - split; [right; left; reflexivity|reflexivity].
  - split; [discriminate|].
    intros [H|[H|(v & H & _)]]; discriminate H.
  - split; [left; reflexivity|reflexivity].
Qed.

(** [v > n] and [v < n] in the time span [v]. *)
Lemma Zabove_mono (v v' : Z) (n : number Z) :
  v <= v' -> Zabove v n -> Zabove v' n.
Proof.
  unfold Zabove. destruct n as [b| | |]; cbn [gtZ ltZ less]; intros L H;
    try exact H. apply Z.ltb_lt in H. apply Z.ltb_lt. lia.
Qed.

Lemma Zbelow_anti (v v' : Z) (n : number Z) :
  v <= v' -> Zbelow v' n -> Zbelow v n.
Proof.
  unfold Zbelow. destruct n as [b| | |]; cbn [ltZ less]; intros L H;
    try exact H. apply Z.ltb_lt in H. apply Z.ltb_lt. lia.
Qed.

(** No time has passed beyond a duration the constructor accepts. *)
Lemma accepted_duration_covers (v : Z) (n : number Z) :
  n = NaN \/ nonNegative n -> v <= 0 -> gtZ (Finite v) n = false.
Proof.
  intros [->|[->|(b & -> & Hb)]] Hv; cbn [gtZ ltZ less]; try reflexivity.
  apply Z.ltb_ge. lia.
Qed.

(** Probability 0 is not above a threshold the constructor accepts. *)
Lemma accepted_threshold_covers (t : number Q) :
  t = NaN \/ unitInterval t -> gtQ (Finite 0%Q) t = false.
Proof.
  intros [->|(q & -> & H0 & _)]; cbn [gtQ ltQ less]; [reflexivity|].
  apply Qltb_false. exact H0.
Qed.

(** ** The speech segmenter *)

Section VADFacts.

Import VAD VADSpec.

Ltac vad_fields :=
  cbn [set_vad set_audioBuffer set_silenceStartTime
       set_recordingStartTime set_hasDetectedSpeech set_speechStartTime
       set_isReleased set_isInitialized set_lastProbability set_lastIsSpeech
       cfg vad audioBuffer silenceStartTime recordingStartTime
       hasDetectedSpeech speechStartTime isReleased isInitialized
       lastProbability lastIsSpeech].

Lemma construct_inr (o : VoiceActivityDetectorOptions) (d : Detector) :
  construct o = inr d <->
  accepted (configOf o) /\
  d = mkDetector (configOf o) None [] None None false None false false 0%Q false.
Proof.
  unfold construct, accepted. fold (configOf o).
  rewrite <- !threshold_check, <- !duration_check.
  destruct (ltQ (speechThreshold (configOf o)) (Finite 0%Q)
            || gtQ (speechThreshold (configOf o)) (Finite 1%Q));
    [split; [discriminate|intros [(A & _) _]; discriminate A]|].
  destruct (ltQ (silenceThreshold (configOf o)) (Finite 0%Q)
            || gtQ (silenceThreshold (configOf o)) (Finite 1%Q));
    [split; [discriminate|intros [(_ & A & _) _]; discriminate A]|].
  destruct (ltZ (silenceDuration (configOf o)) (Finite 0));
    [split; [discriminate|intros [(_ & _ & A & _) _]; discriminate A]|].
  destruct (ltZ (maxRecordingDuration (configOf o)) (Finite 0));
    [split; [discriminate|intros [(_ & _ & _ & A) _]; discriminate A]|].
  split.
  - intro H. injection H as <-. repeat split.
  - intros [_ ->]. reflexivity.
Qed.

Lemma create_inr (o : VoiceActivityDetectorOptions) (d : Detector) :
  create o EngineLoaded = inr d <->
  accepted (configOf o) /\ d = pristine (configOf o).
Proof.
  unfold create. split.
  - destruct (construct o) as [e|d0] eqn:E; [discriminate|].
    apply construct_inr in E as [Hacc ->]. cbn. intro H. injection H as <-.
    split; [assumption|reflexivity].
  - intros [Hacc ->].
    assert (E : construct o = inr (mkDetector (configOf o) None [] None None
                                     false None false false 0%Q false))
      by (apply construct_inr; split; [assumption|reflexivity]).
    rewrite E. reflexivity.
Qed.

Lemma pristine_live (c : Config) : live (pristine c).
Proof. repeat split. Qed.

(** The callbacks leave the configuration, the engine handle, the buffered
    audio, the recording start and the life-cycle flags alone. *)
Lemma processAudio_frame (d : Detector) (evs : list EngineEvent) :
  cfg (processAudio d evs) = cfg d /\
  vad (processAudio d evs) = vad d /\
  audioBuffer (processAudio d evs) = audioBuffer d /\
  recordingStartTime (processAudio d evs) = recordingStartTime d /\
  isReleased (processAudio d evs) = isReleased d /\
  isInitialized (processAudio d evs) = isInitialized d.
Proof.
  unfold processAudio. revert d.
  induction evs as [|ev evs IH]; intro d; cbn [fold_left].
  - repeat split.
  - destruct (IH (onEvent d ev)) as (H1 & H2 & H3 & H4 & H5 & H6).
    rewrite H1, H2, H3, H4, H5, H6. destruct ev; repeat split.
Qed.

Lemma entered_frame (d : Detector) (now : Z) (frame : list Z)
    (evs : list EngineEvent) :
  cfg (entered d now frame evs) = cfg d /\
  vad (entered d now frame evs) = vad d /\
  audioBuffer (entered d now frame evs) = audioBuffer d ++ [frame] /\
  recordingStartTime (entered d now frame evs) = Some (startOf d now) /\
  isReleased (entered d now frame evs) = isReleased d /\
  isInitialized (entered d now frame evs) = isInitialized d.
Proof.
  unfold entered, startOf. cbv zeta.
  match goal with |- context [processAudio ?x evs] =>
    destruct (processAudio_frame x evs) as (H1 & H2 & H3 & H4 & H5 & H6) end.
  rewrite H1, H2, H3, H4, H5, H6.
  destruct (recordingStartTime d) eqn:R; cbn; rewrite ?R; repeat split.
Qed.

Lemma processFrame_afterAudio (d : Detector) (now : Z) (frame : list Z)
    (evs : list EngineEvent) :
  live d ->
  processFrame d now frame evs = afterAudio (entered d now frame evs) now.
Proof.
  intros (Hrel & Hini & Hvad).
  unfold processFrame. rewrite Hrel, Hini, Hvad. reflexivity.
Qed.

Lemma afterAudio_cases (e : Detector) (now : Z) :
  isReleased e = false ->
  exists r d',
    afterAudio e now = (inr r, d') /\
    probability r = lastProbability e /\
    isSpeech r = lastIsSpeech e /\
    ( (status r = Timeout /\
       Zabove (now - toNumber (recordingStartTime e))
              (maxRecordingDuration (cfg e)) /\
       audio r = Some (concat (audioBuffer e)) /\ d' = snd (reset e))
   \/ (status r = End /\
       ~ Zabove (now - toNumber (recordingStartTime e))
                (maxRecordingDuration (cfg e)) /\
       lastIsSpeech e = false /\ hasDetectedSpeech e = true /\
       audio r = Some (concat (audioBuffer e)) /\ d' = snd (reset e))
   \/ (status r = Continue /\
       ~ Zabove (now - toNumber (recordingStartTime e))
                (maxRecordingDuration (cfg e)) /\
       audio r = None /\
       cfg d' = cfg e /\ vad d' = vad e /\ isReleased d' = isReleased e /\
       isInitialized d' = isInitialized e /\
       recordingStartTime d' = recordingStartTime e /\
       audioBuffer d' = audioBuffer e) ).
Proof.
  intro Hrel.
  destruct e as [c v ab sil rec hs sp rel ini lp ls].
  cbn [isReleased] in Hrel. subst rel.
  unfold afterAudio, reset, getBufferedAudio. vad_fields.
  destruct (gtZ (Finite (now - toNumber rec)) (maxRecordingDuration c))
    eqn:Tmo.
  { eexists _, _. split; [reflexivity|]. split; [reflexivity|].
    split; [reflexivity|]. left.
    split; [reflexivity|]. split; [exact Tmo|]. split; reflexivity. }
  assert (Hle : ~ Zabove (now - toNumber rec) (maxRecordingDuration c))
    by (apply not_Zabove; exact Tmo).
  destruct ls.
  { eexists _, _. split; [reflexivity|]. split; [reflexivity|].
    split; [reflexivity|]. right; right.
    split; [reflexivity|]. split; [exact Hle|]. split; [reflexivity|].
    destruct hs; repeat split. }
  cbn [andb].
  destruct hs; vad_fields; cbn [negb].
  2:{ eexists _, _. split; [reflexivity|]. split; [reflexivity|].
      split; [reflexivity|]. right; right.
      split; [reflexivity|]. split; [exact Hle|]. repeat split. }
  destruct (ltZ (Finite (if truthy sp then now - toNumber sp else 0))
                (minSpeechDuration c)).
  { eexists _, _. split; [reflexivity|]. split; [reflexivity|].
    split; [reflexivity|]. right; right.
    split; [reflexivity|]. split; [exact Hle|]. repeat split. }
  destruct sil as [s|]; vad_fields;
    match goal with
    | |- context [if gtZ ?a ?b then _ else _] => destruct (gtZ a b)
    end;
    eexists _, _; (split; [reflexivity|]); (split; [reflexivity|]);
    (split; [reflexivity|]).
  - right; left. split; [reflexivity|]. split; [exact Hle|]. repeat split.
  - right; right. split; [reflexivity|]. split; [exact Hle|]. repeat split.
  - right; left. split; [reflexivity|]. split; [exact Hle|]. repeat split.
  - right; right. split; [reflexivity|]. split; [exact Hle|]. repeat split.
Qed.

Lemma processFrame_cases (d : Detector) (now : Z) (frame : list Z)
    (evs : list EngineEvent) :
  live d ->
  let e := entered d now frame evs in
  let buffered := concat (audioBuffer d ++ [frame]) in
  exists r d',
    processFrame d now frame evs = (inr r, d') /\
    probability r = lastProbability e /\
    isSpeech r = lastIsSpeech e /\
    ( (status r = Timeout /\
       Zabove (now - startOf d now) (maxRecordingDuration (cfg d)) /\
       audio r = Some buffered /\ d' = pristine (cfg d))
   \/ (status r = End /\
       ~ Zabove (now - startOf d now) (maxRecordingDuration (cfg d)) /\
       lastIsSpeech e = false /\ hasDetectedSpeech e = true /\
       audio r = Some buffered /\ d' = pristine (cfg d))
   \/ (status r = Continue /\
       ~ Zabove (now - startOf d now) (maxRecordingDuration (cfg d)) /\
       audio r = None /\ live d' /\ cfg d' = cfg d /\
       recordingStartTime d' = Some (startOf d now) /\
       audioBuffer d' = audioBuffer d ++ [frame]) ).
Proof.
  intros L. cbv zeta. pose proof L as (Hrel & Hini & Hvad).
  destruct (entered_frame d now frame evs) as (E1 & E2 & E3 & E4 & E5 & E6).
  rewrite processFrame_afterAudio by exact L.
  set (e := entered d now frame evs) in *. clearbody e.
  assert (Hcl : snd (reset e) = pristine (cfg d)).
  { unfold reset. rewrite E5, Hrel. cbn [snd]. unfold pristine. vad_fields.
    rewrite E1, E2, E5, E6, Hrel, Hini, Hvad. reflexivity. }
  destruct (afterAudio_cases e now) as (r & d' & E & P1 & P2 & C).
  { rewrite E5. exact Hrel. }
  exists r, d'. split; [exact E|]. split; [exact P1|]. split; [exact P2|].
  rewrite E4, E1, E3, Hcl in C. cbn [toNumber orDefault] in C.
  destruct C as [C|[C|C]].
  - left. exact C.
  - right; left. exact C.
  - right; right. destruct C as (C1 & C2 & C3 & C4 & C5 & C6 & C7 & C8 & C9).
    unfold live. rewrite C5, C6, C7, E2, E5, E6.
    repeat split; assumption.
Qed.

(** A detector that is released or was never initialised rejects the frame
    and keeps its state. *)
Lemma processFrame_rejects (d : Detector) (now : Z) (frame : list Z)
    (evs : list EngineEvent) :
  ~ live d ->
  processFrame d now frame evs = (inl (rejection d), d).
Proof.
  intro Hdead. unfold processFrame, rejection.
  destruct (isReleased d) eqn:Hrel; [reflexivity|].
  destruct (isInitialized d) eqn:Hini; cbn [negb orb]; [|reflexivity].
  destruct (vad d) as [[]|] eqn:Hvad; [|reflexivity].
  exfalso. apply Hdead. repeat split; assumption.
Qed.

Lemma live_dec (d : Detector) : live d \/ ~ live d.
Proof.
  unfold live.
  destruct (isReleased d); [right; intros (H & _); discriminate|].
  destruct (isInitialized d); [|right; intros (_ & H & _); discriminate].
  destruct (vad d) as [[]|]; [left; repeat split|].
  right; intros (_ & _ & H); discriminate.
Qed.

Lemma processFrame_cfg (d : Detector) (now : Z) (frame : list Z)
    (evs : list EngineEvent) :
  cfg (snd (processFrame d now frame evs)) = cfg d.
Proof.
  destruct (live_dec d) as [L|D].
  - destruct (processFrame_cases d now frame evs L)
      as (r & d' & E & _ & _ & [C|[C|C]]); rewrite E; cbn [snd].
    + destruct C as (_ & _ & _ & ->). reflexivity.
    + destruct C as (_ & _ & _ & _ & _ & ->). reflexivity.
    + destruct C as (_ & _ & _ & _ & -> & _). reflexivity.
  - rewrite (processFrame_rejects d now frame evs D). reflexivity.
Qed.

Lemma reported_snoc (evs : list EngineEvent) (ev : EngineEvent) :
  reported (evs ++ [ev]) =
  match ev with FrameProcessed p => Some p | _ => reported evs end.
Proof.
  unfold reported. rewrite fold_left_app. reflexivity.
Qed.

Lemma processAudio_snoc (d : Detector) (evs : list EngineEvent)
    (ev : EngineEvent) :
  processAudio d (evs ++ [ev]) = onEvent (processAudio d evs) ev.
Proof.
  unfold processAudio. rewrite fold_left_app. reflexivity.
Qed.

(** After the callbacks, [lastIsSpeech] compares the probability reported
    last with the onset threshold. *)
Lemma lastIsSpeech_processAudio (d : Detector) (evs : list EngineEvent) :
  lastIsSpeech (processAudio d evs) =
  match reported evs with
  | Some p => gtQ (Finite p) (speechThreshold (cfg d))
  | None => lastIsSpeech d
  end.
Proof.
  induction evs as [|ev evs IH] using rev_ind.
  - reflexivity.
  - rewrite processAudio_snoc, reported_snoc.
    destruct (processAudio_frame d evs) as (Hc & _).
    destruct ev; cbn; rewrite ?Hc; try exact IH; reflexivity.
Qed.

Lemma lastIsSpeech_entered (d : Detector) (now : Z) (frame : list Z)
    (evs : list EngineEvent) (p : Q) :
  reported evs = Some p ->
  lastIsSpeech (entered d now frame evs)
  = gtQ (Finite p) (speechThreshold (cfg d)).
Proof.
  intro R. unfold entered. cbv zeta.
  rewrite lastIsSpeech_processAudio, R.
  destruct (recordingStartTime d); reflexivity.
Qed.

(** Callbacks that observe no speech neither set the speech flag nor touch
    the silence timer. *)
Lemma processAudio_quiet (evs : list EngineEvent) (d : Detector) :
  hasDetectedSpeech d = false ->
  lastIsSpeech d = false ->
  forallb (fun ev => negb (isSpeechStart ev)) evs = true ->
  (forall p, In (FrameProcessed p) evs ->
             ~ Qabove p (speechThreshold (cfg d))) ->
  hasDetectedSpeech (processAudio d evs) = false /\
  lastIsSpeech (processAudio d evs) = false /\
  silenceStartTime (processAudio d evs) = silenceStartTime d.
Proof.
  revert d. induction evs as [|ev evs IH]; intros d Hs Hl Hq Hp.
  - repeat split; assumption.
  - cbn [forallb] in Hq. apply andb_prop in Hq as [Hev Hq].
    change (processAudio d (ev :: evs)) with (processAudio (onEvent d ev) evs).
    assert (Hstep : hasDetectedSpeech (onEvent d ev) = false /\
                    lastIsSpeech (onEvent d ev) = false /\
                    silenceStartTime (onEvent d ev) = silenceStartTime d /\
                    cfg (onEvent d ev) = cfg d).
    { destruct ev; cbn in Hev |- *; try discriminate Hev;
        repeat split; try assumption.
      apply not_Qabove. apply Hp. left. reflexivity. }
    destruct Hstep as (S1 & S2 & S3 & S4).
    destruct (IH (onEvent d ev) S1 S2 Hq) as (I1 & I2 & I3).
    { intros p Hin. rewrite S4. apply Hp. right. exact Hin. }
    rewrite I1, I2, I3, S3. repeat split.
Qed.

Lemma run_cons (d : Detector) (i : Input) (rest : list Input) :
  run d (i :: rest) =
  (fst (processFrame d (now i) (frame i) (events i))
     :: fst (run (snd (processFrame d (now i) (frame i) (events i))) rest),
   snd (run (snd (processFrame d (now i) (frame i) (events i))) rest)).
Proof.
  cbn [run].
  destruct (processFrame d (now i) (frame i) (events i)) as [r d'].
  cbn [fst snd]. destruct (run d' rest) as [rs d'']. reflexivity.
Qed.

Lemma run_app (ins1 ins2 : list Input) (d : Detector) :
  run d (ins1 ++ ins2) =
  (fst (run d ins1) ++ fst (run (snd (run d ins1)) ins2),
   snd (run (snd (run d ins1)) ins2)).
Proof.
  revert d. induction ins1 as [|i ins1 IH]; intro d.
  - cbn [app run fst snd]. destruct (run d ins2). reflexivity.
  - rewrite <- app_comm_cons, !run_cons, IH. reflexivity.
Qed.

Lemma run_cfg (ins : list Input) (d : Detector) :
  cfg (snd (run d ins)) = cfg d.
Proof.
  revert d. induction ins as [|i ins IH]; intro d; [reflexivity|].
  rewrite run_cons. cbn [snd]. rewrite IH. apply processFrame_cfg.
Qed.

(** A frame the engine rates above the onset threshold does not end the
    utterance, whatever state the detector is in. *)
Lemma aboveOnset_no_end (d : Detector) (i : Input) :
  aboveOnset (cfg d) i ->
  statusOf (fst (processFrame d (now i) (frame i) (events i))) <> Some End.
Proof.
  intros (p & R & Hp).
  destruct (live_dec d) as [L|D].
  - destruct (processFrame_cases d (now i) (frame i) (events i) L)
      as (r & d' & E & _ & _ & [C|[C|C]]); rewrite E; cbn [fst statusOf].
    + destruct C as (-> & _). discriminate.
    + destruct C as (_ & _ & Hl & _).
      rewrite (lastIsSpeech_entered d _ _ _ p R) in Hl.
      unfold Qabove in Hp. congruence.
    + destruct C as (-> & _). discriminate.
  - rewrite (processFrame_rejects d (now i) (frame i) (events i) D).
    discriminate.
Qed.

(** C1, as amended.  While the per-frame probabilities stay strictly above
    the onset (speech) threshold, [processFrame] never returns status
    "end": the end of speech is decided against the onset threshold alone,
    so it is a frame at or below that threshold which counts as silence,
    also when it stays above the offset threshold. *)
Theorem end_needs_probability_at_most_onset
    (d : Detector) (ins : list Input) :
  Forall (aboveOnset (cfg d)) ins ->
  neverEnds (fst (run d ins)).
Proof.
  revert d. induction ins as [|i ins IH]; intros d H.
  - constructor.
  - rewrite run_cons. cbn [fst].
    pose proof (Forall_inv H) as Hi.
    pose proof (Forall_inv_tail H) as Hrest.
    constructor.
    + apply aboveOnset_no_end. exact Hi.
    + apply IH. rewrite processFrame_cfg. exact Hrest.
Qed.

(** C10.  When [processFrame] returns "end" or "timeout" the detector is
    already back in the state [create] left it in: empty audio buffer, the
    three timestamps null, [hasSpeech()] false.  A call to [reset()] would
    change nothing, and the next frame opens a new recording: it is
    accepted, its clock reading becomes the recording start, and the
    buffer holds that frame alone. *)
Theorem terminal_result_clears_state
    (d : Detector) (now : Z) (frame : list Z) (evs : list EngineEvent)
    (r : VADResult) (d' : Detector) :
  processFrame d now frame evs = (inr r, d') ->
  status r = End \/ status r = Timeout ->
  audioBuffer d' = [] /\
  recordingStartTime d' = None /\
  silenceStartTime d' = None /\
  speechStartTime d' = None /\
  hasSpeech d' = false /\
  d' = pristine (cfg d) /\
  reset d' = (Returned, d') /\
  forall (now2 : Z) (frame2 : list Z) (evs2 : list EngineEvent),
    exists r2 d2,
      processFrame d' now2 frame2 evs2 = (inr r2, d2) /\
      (status r2 = Continue ->
       recordingStartTime d2 = Some now2 /\ audioBuffer d2 = [frame2]) /\
      (forall a, audio r2 = Some a -> a = frame2).
Proof.
  intros E Hst.
  assert (L : live d).
  { destruct (live_dec d) as [L|D]; [exact L|].
    rewrite (processFrame_rejects d now frame evs D) in E.
    discriminate E. }
  assert (Hd' : d' = pristine (cfg d)).
  { destruct (processFrame_cases d now frame evs L)
      as (r0 & d0 & E0 & _ & _ & C).
    rewrite E0 in E. injection E as <- <-.
    destruct C as [C|[C|C]].
    - destruct C as (_ & _ & _ & ->). reflexivity.
    - destruct C as (_ & _ & _ & _ & _ & ->). reflexivity.
    - destruct C as (C & _). rewrite C in Hst. destruct Hst; discriminate. }
  subst d'. repeat (split; [reflexivity|]).
  intros now2 frame2 evs2.
  destruct (processFrame_cases (pristine (cfg d)) now2 frame2 evs2
              (pristine_live _)) as (r2 & d2 & E2 & _ & _ & C).
  exists r2, d2. split; [exact E2|].
  cbn [pristine audioBuffer app startOf recordingStartTime concat] in C.
  rewrite app_nil_r in C.
  destruct C as [C|[C|C]].
  - destruct C as (S & _ & A & _). split.
    + intro S'. rewrite S in S'. discriminate.
    + intros a Ha. rewrite A in Ha. injection Ha as <-. reflexivity.
  - destruct C as (S & _ & _ & _ & A & _). split.
    + intro S'. rewrite S in S'. discriminate.
    + intros a Ha. rewrite A in Ha. injection Ha as <-. reflexivity.
  - destruct C as (_ & _ & A & _ & _ & R & B). split.
    + intros _. split; assumption.
    + intros a Ha. rewrite A in Ha. discriminate.
Qed.

(** [processFrame] does not read the offset threshold: with another one
    it returns the same result and makes the same changes. *)
Lemma processAudio_silenceThreshold (s : number Q) (evs : list EngineEvent)
    (d : Detector) :
  processAudio (withSilenceThreshold s d) evs
  = withSilenceThreshold s (processAudio d evs).
Proof.
  revert d. induction evs as [|ev evs IH]; intro d; [reflexivity|].
  change (processAudio ?x (ev :: evs)) with (processAudio (onEvent x ev) evs).
  rewrite <- IH. f_equal. destruct ev; reflexivity.
Qed.

Lemma afterAudio_silenceThreshold (s : number Q) (e : Detector) (now : Z) :
  afterAudio (withSilenceThreshold s e) now
  = (fst (afterAudio e now), withSilenceThreshold s (snd (afterAudio e now))).
Proof.
  destruct e as [[sp sl sd mx mn rate] v ab sil rec hs st rel ini lp ls].
  unfold afterAudio, withSilenceThreshold, reset, getBufferedAudio.
  destruct sil as [t|], hs, ls, rel;
    vad_fields; cbn [andb negb speechThreshold silenceThreshold silenceDuration
                     maxRecordingDuration minSpeechDuration inputSampleRate];
    vad_fields;
    repeat (match goal with
            | |- context [if ?b then _ else _] => destruct b
            end; vad_fields;
            cbn [speechThreshold silenceThreshold silenceDuration
                 maxRecordingDuration minSpeechDuration inputSampleRate]);
    reflexivity.
Qed.

Lemma processFrame_ignores_silenceThreshold (s : number Q) (d : Detector)
    (now : Z)
    (frame : list Z) (evs : list EngineEvent) :
  processFrame (withSilenceThreshold s d) now frame evs
  = (fst (processFrame d now frame evs),
     withSilenceThreshold s (snd (processFrame d now frame evs))).
Proof.
  destruct (live_dec d) as [L|D].
  - assert (L' : live (withSilenceThreshold s d)) by exact L.
    rewrite (processFrame_afterAudio d) by exact L.
    rewrite (processFrame_afterAudio (withSilenceThreshold s d)) by exact L'.
    replace (entered (withSilenceThreshold s d) now frame evs)
      with (withSilenceThreshold s (entered d now frame evs)).
    + apply afterAudio_silenceThreshold.
    + unfold entered. cbv zeta. rewrite <- processAudio_silenceThreshold.
      f_equal. destruct d as [c v ab sil [t|] hs st rel ini lp ls]; reflexivity.
  - assert (D' : ~ live (withSilenceThreshold s d)) by exact D.
    rewrite (processFrame_rejects d _ _ _ D).
    rewrite (processFrame_rejects (withSilenceThreshold s d) _ _ _ D').
    reflexivity.
Qed.

(** *** Frames without speech *)

Lemma pristine_unspoken (c : Config) : unspoken (pristine c).
Proof. repeat split. Qed.

Lemma entered_quiet (d : Detector) (i : Input) :
  unspoken d -> quiet (cfg d) i ->
  unspoken (entered d (now i) (frame i) (events i)).
Proof.
  intros (H1 & H2 & H3) (Q1 & Q2). unfold entered. cbv zeta.
  match goal with |- unspoken (processAudio ?x _) =>
    destruct (processAudio_quiet (events i) x) as (A & B & C) end.
  - destruct (recordingStartTime d); exact H1.
  - destruct (recordingStartTime d); exact H2.
  - exact Q1.
  - destruct (recordingStartTime d); exact Q2.
  - unfold unspoken. rewrite A, B, C.
    destruct (recordingStartTime d); repeat split; exact H3.
Qed.

(** With no speech seen, a frame either times the recording out or is
    buffered and nothing else changes. *)
Lemma afterAudio_unspoken (e : Detector) (now : Z) :
  unspoken e -> isReleased e = false ->
  afterAudio e now =
  if gtZ (Finite (now - toNumber (recordingStartTime e)))
         (maxRecordingDuration (cfg e))
  then (inr (mkResult Timeout (lastProbability e) false
               (Some (getBufferedAudio e))),
        snd (reset e))
  else (inr (mkResult Continue (lastProbability e) false None), e).
Proof.
  intros (H1 & H2 & H3) Hrel. unfold afterAudio. cbv zeta.
  rewrite H2. cbn [andb]. rewrite H1. cbn [negb].
  unfold reset. rewrite Hrel. reflexivity.
Qed.

Lemma quiet_step (d : Detector) (i : Input) :
  live d -> unspoken d -> quiet (cfg d) i ->
  ~ Zabove (now i - startOf d (now i)) (maxRecordingDuration (cfg d)) ->
  let d' := snd (processFrame d (now i) (frame i) (events i)) in
  statusOf (fst (processFrame d (now i) (frame i) (events i))) = Some Continue /\
  audioOf (fst (processFrame d (now i) (frame i) (events i))) = None /\
  live d' /\ unspoken d' /\ cfg d' = cfg d /\
  recordingStartTime d' = Some (startOf d (now i)) /\
  audioBuffer d' = audioBuffer d ++ [frame i].
Proof.
  intros L U Q T. cbv zeta.
  pose proof (entered_quiet d i U Q) as Ue.
  destruct (entered_frame d (now i) (frame i) (events i))
    as (E1 & E2 & E3 & E4 & E5 & E6).
  destruct L as (Hrel & Hini & Hvad).
  rewrite processFrame_afterAudio by (repeat split; assumption).
  rewrite afterAudio_unspoken by (try exact Ue; rewrite E5; exact Hrel).
  rewrite E4, E1. cbn [toNumber orDefault].
  apply not_Zabove in T. rewrite T.
  cbn [fst snd statusOf audioOf status audio].
  unfold live. rewrite E1, E2, E3, E4, E5, E6.
  repeat split; try assumption; apply Ue.
Qed.

Lemma quiet_run (ins : list Input) (d : Detector) (t0 : Z) :
  live d -> unspoken d -> recordingStartTime d = Some t0 ->
  Forall (quiet (cfg d)) ins ->
  Forall (fun i => ~ Zabove (now i - t0) (maxRecordingDuration (cfg d))) ins ->
  let d' := snd (run d ins) in
  map statusOf (fst (run d ins)) = repeat (Some Continue) (length ins) /\
  map audioOf (fst (run d ins)) = repeat None (length ins) /\
  live d' /\ unspoken d' /\ cfg d' = cfg d /\
  recordingStartTime d' = Some t0 /\
  audioBuffer d' = audioBuffer d ++ map frame ins.
Proof.
  revert d. induction ins as [|i ins IH]; intros d L U R Q T; cbv zeta.
  - cbn. rewrite app_nil_r.
    split; [reflexivity|]. split; [reflexivity|]. split; [exact L|].
    split; [exact U|]. repeat split. exact R.
  - pose proof (Forall_inv Q) as Qi. pose proof (Forall_inv_tail Q) as Qr.
    pose proof (Forall_inv T) as Ti. pose proof (Forall_inv_tail T) as Tr.
    assert (S0 : startOf d (now i) = t0) by (unfold startOf; rewrite R; reflexivity).
    destruct (quiet_step d i L U Qi) as (P1 & P2 & P3 & P4 & P5 & P6 & P7).
    { rewrite S0. exact Ti. }
    rewrite S0 in P6.
    rewrite run_cons. cbn [fst snd map length repeat].
    set (d1 := snd (processFrame d (now i) (frame i) (events i))) in *.
    destruct (IH d1 P3 P4 P6) as (I1 & I2 & I3 & I4 & I5 & I6 & I7).
    { rewrite P5. exact Qr. }
    { rewrite P5. exact Tr. }
    rewrite P1, P2, I1, I2, I5, I7, P5, P7, <- app_assoc.
    repeat split; first [assumption | reflexivity | apply I3 | apply I4].
Qed.

(** C6.  Through any run of frames in which no speech is observed, fed to
    a detector as [create] or [reset] leaves it, [processFrame] never
    returns "end", the speech flag stays unset and the silence timer is
    never started. *)
Theorem silence_before_speech_is_not_end (c : Config) (ins : list Input) :
  Forall (quiet c) ins ->
  neverEnds (fst (run (pristine c) ins)) /\
  hasSpeech (snd (run (pristine c) ins)) = false /\
  silenceStartTime (snd (run (pristine c) ins)) = None.
Proof.
  assert (G : forall (ins : list Input) (d : Detector),
             live d -> unspoken d -> Forall (quiet (cfg d)) ins ->
             neverEnds (fst (run d ins)) /\ unspoken (snd (run d ins))).
  { clear. induction ins as [|i ins IH]; intros d L U Q.
    - split; [constructor|exact U].
    - pose proof (Forall_inv Q) as Qi. pose proof (Forall_inv_tail Q) as Qr.
      rewrite run_cons. cbn [fst snd].
      pose proof (entered_quiet d i U Qi) as Ue.
      destruct (entered_frame d (now i) (frame i) (events i))
        as (E1 & E2 & E3 & E4 & E5 & E6).
      pose proof L as (Hrel & Hini & Hvad).
      assert (Hstep :
        statusOf (fst (processFrame d (now i) (frame i) (events i))) <> Some End /\
        live (snd (processFrame d (now i) (frame i) (events i))) /\
        unspoken (snd (processFrame d (now i) (frame i) (events i)))).
      { rewrite processFrame_afterAudio by exact L.
        rewrite afterAudio_unspoken by (try exact Ue; rewrite E5; exact Hrel).
        match goal with |- context [if ?b then _ else _] => destruct b end;
          cbn [fst snd statusOf status].
        - split; [discriminate|]. unfold reset. rewrite E5, Hrel. cbn [snd].
          unfold live, unspoken. vad_fields. rewrite E2, E5, E6.
          repeat split; first [assumption | reflexivity].
        - split; [discriminate|]. unfold live. rewrite E2, E5, E6.
          repeat split; first [assumption | apply Ue]. }
      destruct Hstep as (S1 & S2 & S3).
      destruct (IH _ S2 S3) as (I1 & I2).
      { rewrite processFrame_cfg. exact Qr. }
      split; [constructor; assumption|exact I2]. }
  intro Q.
  destruct (G ins (pristine c) (pristine_live c) (pristine_unspoken c) Q)
    as (N & U1 & _ & U3).
  repeat split; assumption.
Qed.

(** *** Recordings that run into the duration bound *)

Lemma timeout_step (d : Detector) (now : Z) (frame : list Z)
    (evs : list EngineEvent) :
  live d ->
  Zabove (now - startOf d now) (maxRecordingDuration (cfg d)) ->
  exists r,
    processFrame d now frame evs = (inr r, pristine (cfg d)) /\
    status r = Timeout /\
    audio r = Some (concat (audioBuffer d ++ [frame])).
Proof.
  intros L T.
  destruct (processFrame_cases d now frame evs L)
    as (r & d' & E & _ & _ & [C|[C|C]]).
  - destruct C as (S & _ & A & ->). exists r. repeat split; assumption.
  - destruct C as (_ & C & _). contradiction.
  - destruct C as (_ & C & _). contradiction.
Qed.

Lemma continue_step (d : Detector) (i : Input) :
  live d ->
  continues (fst (processFrame d (now i) (frame i) (events i))) ->
  let d' := snd (processFrame d (now i) (frame i) (events i)) in
  live d' /\ cfg d' = cfg d /\
  recordingStartTime d' = Some (startOf d (now i)) /\
  audioBuffer d' = audioBuffer d ++ [frame i].
Proof.
  intros L C. cbv zeta.
  destruct (processFrame_cases d (now i) (frame i) (events i) L)
    as (r & d' & E & _ & _ & K).
  rewrite E in C |- *. unfold continues in C. cbn [fst snd statusOf] in C |- *.
  destruct K as [K|[K|K]].
  - destruct K as (S & _). rewrite S in C. discriminate.
  - destruct K as (S & _). rewrite S in C. discriminate.
  - destruct K as (_ & _ & _ & L' & K1 & K2 & K3).
    split; [exact L'|]. repeat split; assumption.
Qed.

(** While every result is "continue", the recording keeps its start and
    the buffer collects every frame. *)
Lemma continue_run (ins : list Input) (d : Detector) :
  live d ->
  Forall continues (fst (run d ins)) ->
  let d' := snd (run d ins) in
  live d' /\ cfg d' = cfg d /\
  recordingStartTime d' =
    match ins with
    | [] => recordingStartTime d
    | i :: _ => Some (startOf d (now i))
    end /\
  audioBuffer d' = audioBuffer d ++ map frame ins.
Proof.
  revert d. induction ins as [|i ins IH]; intros d L C; cbv zeta.
  - cbn. rewrite app_nil_r. split; [exact L|]. repeat split.
  - rewrite run_cons in C |- *. cbn [fst snd] in C |- *.
    pose proof (Forall_inv C) as Ci. pose proof (Forall_inv_tail C) as Cr.
    destruct (continue_step d i L Ci) as (P1 & P2 & P3 & P4).
    destruct (IH _ P1 Cr) as (I1 & I2 & I3 & I4).
    rewrite I2, I4, P2, P4, <- app_assoc. cbn [map app].
    split; [exact I1|]. split; [reflexivity|]. split; [|reflexivity].
    rewrite I3. destruct ins as [|j ins']; [exact P3|].
    unfold startOf at 1. rewrite P3. reflexivity.
Qed.

Lemma quiet_run_fresh (i : Input) (ins : list Input) (d : Detector) :
  live d -> unspoken d -> recordingStartTime d = None ->
  Forall (quiet (cfg d)) (i :: ins) ->
  Forall (fun j => ~ Zabove (now j - now i) (maxRecordingDuration (cfg d)))
         (i :: ins) ->
  let d' := snd (run d (i :: ins)) in
  map statusOf (fst (run d (i :: ins)))
    = repeat (Some Continue) (length (i :: ins)) /\
  map audioOf (fst (run d (i :: ins))) = repeat None (length (i :: ins)) /\
  live d' /\ cfg d' = cfg d /\
  recordingStartTime d' = Some (now i) /\
  audioBuffer d' = audioBuffer d ++ map frame (i :: ins).
Proof.
  intros L U R Q T. cbv zeta.
  pose proof (Forall_inv Q) as Qi. pose proof (Forall_inv_tail Q) as Qr.
  pose proof (Forall_inv T) as Ti. pose proof (Forall_inv_tail T) as Tr.
  assert (S0 : startOf d (now i) = now i) by (unfold startOf; rewrite R; reflexivity).
  destruct (quiet_step d i L U Qi) as (P1 & P2 & P3 & P4 & P5 & P6 & P7).
  { rewrite S0. exact Ti. }
  rewrite S0 in P6.
  rewrite run_cons. cbn [fst snd map length repeat].
  set (d1 := snd (processFrame d (now i) (frame i) (events i))) in *.
  destruct (quiet_run ins d1 (now i) P3 P4 P6) as (I1 & I2 & I3 & I4 & I5 & I6 & I7).
  { rewrite P5. exact Qr. }
  { rewrite P5. exact Tr. }
  rewrite P1, P2, I1, I2, I5, I7, P5, P7, <- app_assoc.
  repeat split; first [assumption | reflexivity | apply I3].
Qed.

Lemma concat_silence (frames : list (list Z)) (n : nat) :
  Forall (fun f => f = repeat 0 n) frames ->
  concat frames = repeat 0 (length frames * n).
Proof.
  induction frames as [|f frames IH]; intro H; [reflexivity|].
  pose proof (Forall_inv H) as Hf. pose proof (Forall_inv_tail H) as Hr.
  cbn [concat length Nat.mul]. rewrite repeat_app, IH by exact Hr.
  rewrite Hf. reflexivity.
Qed.

(** C3.  First part: in a recording that has only returned "continue" so
    far, the frame that arrives more than [maxRecordingDuration] after the
    first one returns "timeout" with every frame of the recording, that
    frame included, whatever the engine reported about speech; the
    detector is left as [reset] leaves it.  Second part (scenario A): N
    all-zero frames through a default segmenter, the engine observing no
    speech, the first N-1 within [maxRecordingDuration] of the first and
    the N-th beyond it, return N-1 times "continue" without audio and then
    "timeout" with N times the frame length of zeros. *)
Theorem timeout_carries_recording :
  (forall (c : Config) (ins : list Input) (last : Input),
      Forall continues (fst (run (pristine c) ins)) ->
      Zabove (now last - now (hd last ins)) (maxRecordingDuration c) ->
      exists r,
        processFrame (snd (run (pristine c) ins))
          (now last) (frame last) (events last) = (inr r, pristine c) /\
        status r = Timeout /\
        audio r = Some (concat (map frame (ins ++ [last])))) /\
  (forall (d : Detector) (pre : list Input) (last : Input),
      create noOptions EngineLoaded = inr d ->
      Forall (fun i => frame i = silentFrame /\ quiet defaultConfig i)
             (pre ++ [last]) ->
      Forall (fun i => ~ Zabove (now i - now (hd last pre))
                                (maxRecordingDuration defaultConfig)) pre ->
      Zabove (now last - now (hd last pre))
             (maxRecordingDuration defaultConfig) ->
      map statusOf (fst (run d (pre ++ [last])))
        = repeat (Some Continue) (length pre) ++ [Some Timeout] /\
      map audioOf (fst (run d (pre ++ [last])))
        = repeat None (length pre)
          ++ [Some (repeat 0 (length (pre ++ [last]) * VAD_FRAME_SAMPLES))]).
Proof.
  split.
  - intros c ins last C T.
    destruct (continue_run ins (pristine c) (pristine_live c) C)
      as (L & K & R & B).
    cbn [pristine audioBuffer app recordingStartTime cfg] in K, R, B.
    destruct (timeout_step (snd (run (pristine c) ins))
                (now last) (frame last) (events last) L) as (r & E & S & A).
    + rewrite K. unfold startOf. rewrite R.
      destruct ins as [|i ins']; cbn [hd] in T; exact T.
    + exists r. rewrite K in E. rewrite B in A. rewrite map_app.
      repeat split; assumption.
  - intros d pre last Hd Hq Ht Hl.
    apply create_inr in Hd as [_ ->]. fold defaultConfig.
    destruct pre as [|i pre].
    { cbn [hd] in Hl. unfold Zabove in Hl.
      change (maxRecordingDuration defaultConfig) with (Finite 30000) in Hl.
      cbn [gtZ ltZ less] in Hl. lia. }
    cbn [hd] in Ht, Hl.
    apply Forall_app in Hq as [Hpre Hlast].
    pose proof (Forall_inv Hlast) as [Fl _].
    destruct (quiet_run_fresh i pre (pristine defaultConfig)
                (pristine_live _) (pristine_unspoken _) eq_refl)
      as (S & A & L & K & R & B).
    { apply (Forall_impl _ (fun a H => proj2 H) Hpre). }
    { exact Ht. }
    cbn [pristine audioBuffer app cfg] in K, B.
    destruct (timeout_step (snd (run (pristine defaultConfig) (i :: pre)))
                (now last) (frame last) (events last) L) as (r & E & Sr & Ar).
    { rewrite K. unfold startOf. rewrite R. exact Hl. }
    rewrite run_app. cbn [fst]. rewrite !map_app, S, A.
    rewrite (run_cons _ last []).
    change (run ?x []) with (@nil (VADError + VADResult), x).
    cbn [fst map]. rewrite E. cbn [fst statusOf audioOf].
    rewrite Sr, Ar, B. split; [reflexivity|].
    do 3 f_equal.
    rewrite (concat_silence _ VAD_FRAME_SAMPLES).
    + rewrite length_app, length_map, length_app. reflexivity.
    + apply Forall_app. split.
      * apply Forall_map. apply (Forall_impl _ (fun a H => proj1 H) Hpre).
      * constructor; [exact Fl|constructor].
Qed.

(** *** Replaying a run at another time *)











Lemma neverEnds_endsSomewhere (rs : list (VADError + VADResult)) :
  neverEnds rs -> endsSomewhere rs = false.
Proof.
  induction 1 as [|r rs Hr _ IH]; [reflexivity|].
  cbn [endsSomewhere existsb]. fold (endsSomewhere rs). rewrite IH.
  destruct (statusOf r) as [[]|]; try reflexivity. exfalso. apply Hr. reflexivity.
Qed.

Lemma defaultConfig_accepted : accepted defaultConfig.
Proof.
  unfold accepted. rewrite <- !threshold_check, <- !duration_check.
  repeat split.
Qed.

(** *** The claims of the specification that the code does not meet *)

(** C1, as stated, fails.  With the default thresholds 0.5 and 0.35: a
    frame rated 0.8 starts the utterance at t = 1000; frames rated 0.4
    follow at t = 1300 and t = 2100.  They stay above the offset threshold,
    yet the second one returns "end": 800 ms of frames that are not above
    the onset threshold is silence longer than [silenceDuration]. *)
Lemma hysteresis_claim_fails : ~ hysteresis_claim.
Proof.
  intro H.
  specialize (H defaultConfig onsetRun dipRun defaultConfig_accepted).
  assert (Hspeech : hasSpeech (snd (run (pristine defaultConfig) onsetRun)) = true)
    by (vm_compute; reflexivity).
  assert (Hdips : Forall (dips defaultConfig) dipRun).
  { repeat constructor; exists (4 # 10)%Q;
      (split; [reflexivity|]); split; reflexivity. }
  specialize (H Hspeech Hdips).
  apply neverEnds_endsSomewhere in H.
  vm_compute in H. discriminate H.
Qed.


(** C4: the failing input.  [create({ minSpeechDuration: -1 })] passes the
    constructor's checks and returns a detector whose minimum speech
    duration is -1, where the specification has it fail with a ConfigError. *)
Theorem create_accepts_negative_minSpeechDuration :
  create negativeMinSpeech EngineLoaded
  = inr (pristine (mkConfig (Finite (1 # 2)%Q) (Finite (35 # 100)%Q)
                     (Finite 700) (Finite 30000) (Finite (-1))
                     (Finite 16000))).
Proof. reflexivity. Qed.

(** The constructor's two sibling checks on durations. *)
Lemma construct_rejects_negative_durations (o : VoiceActivityDetectorOptions) :
  ltZ (silenceDuration (configOf o)) (Finite 0) = true \/
  ltZ (maxRecordingDuration (configOf o)) (Finite 0) = true ->
  exists e, construct o = inl e.
Proof.
  intro H. destruct (construct o) as [e|d] eqn:E; [exists e; reflexivity|].
  apply construct_inr in E as [(_ & _ & A & B) _].
  apply duration_check in A, B. destruct H; congruence.
Qed.


(** *** The theorems at sample inputs *)


Lemma quiet_intro (c : Config) (i : Input) :
  forallb (fun ev => match ev with
                     | SpeechStart _ => false
                     | FrameProcessed p =>
                         negb (gtQ (Finite p) (speechThreshold c))
                     | _ => true
                     end) (events i) = true ->
  quiet c i.
Proof.
  intro H. rewrite forallb_forall in H. split.
  - apply forallb_forall. intros ev Hin. specialize (H _ Hin).
    destruct ev; try reflexivity. discriminate H.
  - intros p Hin. specialize (H _ Hin). cbn beta iota in H.
    apply not_Qabove. apply negb_true_iff. exact H.
Qed.

Lemma aboveOnset_intro (c : Config) (i : Input) (p : Q) :
  reported (events i) = Some p -> gtQ (Finite p) (speechThreshold c) = true ->
  aboveOnset c i.
Proof.
  intros R H. exists p. split; [exact R|exact H].
Qed.

Lemma end_needs_probability_at_most_onset_witness :
  Forall (aboveOnset (cfg (pristine defaultConfig))) speechRun /\
  neverEnds (fst (run (pristine defaultConfig) speechRun)).
Proof.
  assert (H : Forall (aboveOnset (cfg (pristine defaultConfig))) speechRun).
  { unfold speechRun.
    apply Forall_cons; [apply (aboveOnset_intro _ _ (8 # 10)); reflexivity|].
    apply Forall_cons; [apply (aboveOnset_intro _ _ (9 # 10)); reflexivity|].
    apply Forall_cons; [apply (aboveOnset_intro _ _ (6 # 10)); reflexivity|].
    apply Forall_nil. }
  split; [exact H|].
  exact (end_needs_probability_at_most_onset (pristine defaultConfig) speechRun H).
Defined.

Lemma terminal_result_clears_state_witness :
  (processFrame (snd (run (pristine defaultConfig) silentRun))
     (now lateFrame) (frame lateFrame) (events lateFrame)
   = (inr lateResult, pristine defaultConfig) /\
   (status lateResult = End \/ status lateResult = Timeout)) /\
  audioBuffer (pristine defaultConfig) = [] /\
  hasSpeech (pristine defaultConfig) = false /\
  reset (pristine defaultConfig) = (Returned, pristine defaultConfig).
Proof.
  assert (H1 : processFrame (snd (run (pristine defaultConfig) silentRun))
                 (now lateFrame) (frame lateFrame) (events lateFrame)
               = (inr lateResult, pristine defaultConfig))
    by (vm_compute; reflexivity).
  assert (H2 : status lateResult = End \/ status lateResult = Timeout)
    by (right; reflexivity).
  destruct (terminal_result_clears_state _ _ _ _ _ _ H1 H2)
    as (A & _ & _ & _ & B & _ & C & _).
  split; [split; assumption|]. repeat split; assumption.
Defined.

Lemma silence_before_speech_is_not_end_witness :
  Forall (quiet defaultConfig) (silentRun ++ [lateFrame]) /\
  neverEnds (fst (run (pristine defaultConfig) (silentRun ++ [lateFrame]))) /\
  hasSpeech (snd (run (pristine defaultConfig) (silentRun ++ [lateFrame]))) = false /\
  silenceStartTime (snd (run (pristine defaultConfig) (silentRun ++ [lateFrame])))
    = None.
Proof.
  assert (H : Forall (quiet defaultConfig) (silentRun ++ [lateFrame])).
  { unfold silentRun. cbn [app].
    repeat (apply Forall_cons; [apply quiet_intro; reflexivity|]).
    apply Forall_nil. }
  split; [exact H|].
  exact (silence_before_speech_is_not_end defaultConfig _ H).
Defined.

Lemma timeout_carries_recording_witness :
  (Forall continues (fst (run (pristine defaultConfig) speechRun)) /\
   Zabove (now lateFrame - now (hd lateFrame speechRun))
          (maxRecordingDuration defaultConfig) /\
   exists r,
     processFrame (snd (run (pristine defaultConfig) speechRun))
       (now lateFrame) (frame lateFrame) (events lateFrame)
     = (inr r, pristine defaultConfig) /\
     status r = Timeout /\
     audio r = Some (concat (map frame (speechRun ++ [lateFrame])))) /\
  (create noOptions EngineLoaded = inr (pristine defaultConfig) /\
   Forall (fun i => frame i = silentFrame /\ quiet defaultConfig i)
          (silentRun ++ [lateFrame]) /\
   Forall (fun i => ~ Zabove (now i - now (hd lateFrame silentRun))
                             (maxRecordingDuration defaultConfig))
          silentRun /\
   Zabove (now lateFrame - now (hd lateFrame silentRun))
          (maxRecordingDuration defaultConfig) /\
   map statusOf (fst (run (pristine defaultConfig) (silentRun ++ [lateFrame])))
     = [Some Continue; Some Continue; Some Timeout] /\
   map audioOf (fst (run (pristine defaultConfig) (silentRun ++ [lateFrame])))
     = [None; None; Some (repeat 0 (3 * VAD_FRAME_SAMPLES))]).
Proof.
  assert (A1 : Forall continues (fst (run (pristine defaultConfig) speechRun)))
    by (vm_compute;
        repeat (apply Forall_cons; [reflexivity|]); apply Forall_nil).
  assert (A2 : Zabove (now lateFrame - now (hd lateFrame speechRun))
                      (maxRecordingDuration defaultConfig))
    by (vm_compute; reflexivity).
  assert (B1 : create noOptions EngineLoaded = inr (pristine defaultConfig))
    by reflexivity.
  assert (B2 : Forall (fun i => frame i = silentFrame /\ quiet defaultConfig i)
                 (silentRun ++ [lateFrame])).
  { unfold silentRun. cbn [app].
    repeat (apply Forall_cons;
            [split; [reflexivity | apply quiet_intro; reflexivity]|]).
    apply Forall_nil. }
  assert (B3 : Forall (fun i => ~ Zabove (now i - now (hd lateFrame silentRun))
                                         (maxRecordingDuration defaultConfig))
                      silentRun)
    by (unfold silentRun;
        repeat (apply Forall_cons; [apply not_Zabove; reflexivity|]);
        apply Forall_nil).
  assert (B4 : Zabove (now lateFrame - now (hd lateFrame silentRun))
                      (maxRecordingDuration defaultConfig))
    by (vm_compute; reflexivity).
  split.
  - split; [exact A1|]. split; [exact A2|].
    exact (proj1 timeout_carries_recording defaultConfig speechRun lateFrame A1 A2).
  - split; [exact B1|]. split; [exact B2|]. split; [exact B3|]. split; [exact B4|].
    exact (proj2 timeout_carries_recording _ silentRun lateFrame B1 B2 B3 B4).
Defined.


(** *** Shutdown *)

Lemma vad_release_never_throws (d : Detector) (pause : Outcome string) :
  fst (release d pause) = Returned.
Proof. unfold release. destruct (isReleased d); reflexivity. Qed.

Lemma vad_release_idempotent (d : Detector) (pause1 pause2 : Outcome string) :
  release (snd (release d pause1)) pause2 = (Returned, snd (release d pause1)).
Proof.
  unfold release. destruct (isReleased d) eqn:E; cbn [negb snd].
  - rewrite E. reflexivity.
  - vad_fields. reflexivity.
Qed.

End VADFacts.

(** ** The trigger spotter *)

Section WakeWordFacts.

Import WakeWord WWSpec.

Local Open Scope nat_scope.

Ltac ww_fields :=
  cbn [set_melSession set_embeddingSession set_wakeWordSession
       set_melBuffer set_embeddingBuffer set_isReleased set_isInitialized
       melSession embeddingSession wakeWordSession melBuffer embeddingBuffer
       sensitivity isReleased isInitialized modelPath wakeWord].

Ltac ww_run := unfold bind, get, ret, modify, lift, throw.

(** *** Construction *)

(** [create] with a sensitivity below 0 or above 1, such as 1.5, fails with
    the WakeWordError of the constructor and has made no call on its
    environment by then: no model file looked up, no session created. *)
Lemma create_rejects_sensitivity_before_loading
    (env : Env) (options : WakeWordDetectorOptions) (s : number Q) :
  opt_sensitivity options = Some s ->
  ltQ s (Finite 0%Q) = true \/ gtQ s (Finite 1%Q) = true ->
  create env options
  = (inl (WakeWordError "Sensitivity must be between 0.0 and 1.0"), []).
Proof.
  intros Hs Hout. unfold create, construct. rewrite Hs. cbn [orDefault].
  assert (E : ltQ s (Finite 0%Q) || gtQ s (Finite 1%Q) = true).
  { destruct Hout as [H|H]; rewrite H; [reflexivity|apply orb_true_r]. }
  rewrite E. reflexivity.
Qed.

(** Scenario C of the specification: a sensitivity of 1.5. *)
Lemma create_rejects_sensitivity_above_1 :
  create (sampleEnv melFive (1 # 10)%Q) tooSensitive
  = (inl (WakeWordError "Sensitivity must be between 0.0 and 1.0"), []).
Proof.
  apply (create_rejects_sensitivity_before_loading _ _ (Finite (15 # 10)%Q));
    [reflexivity|right; reflexivity].
Qed.

(** With a sensitivity that the constructor lets through, one inside [0, 1]
    or NaN, the first thing [create] does is to look for the
    melspectrogram model. *)
Lemma create_checks_models_first (env : Env)
    (options : WakeWordDetectorOptions) :
  sensitivityOf options = NaN \/ unitInterval (sensitivityOf options) ->
  exists rest,
    snd (create env options) = ExistsSync (melFile env options) :: rest.
Proof.
  intro H. apply threshold_check in H. unfold create, construct.
  fold (sensitivityOf options). rewrite H.
  unfold initialize, melFile, modelDir. ww_fields.
  repeat match goal with
         | |- context [if ?b then _ else _] => destruct b
         | |- context [match createSession ?e ?p with _ => _ end] =>
             destruct (createSession e p)
         end; cbn [snd app]; eexists; reflexivity.
Qed.

(** C5: the failing input.  [create({ sensitivity: NaN })]: NaN is neither
    below 0 nor above 1, so the constructor's test lets it through.
    [create] goes on to look for the three model files and to create the
    three sessions, and returns a detector whose sensitivity is NaN, where
    the specification has it fail with a ConfigError before any model file
    is looked up or any session created. *)
Theorem create_accepts_NaN_sensitivity :
  create (sampleEnv melFive (1 # 10)%Q) notANumber
  = (inr (mkDetector (Some melFive) (Some embFixed)
            (Some (classifier (1 # 10)%Q)) [] [] NaN false true
            "/srv/grimm/models" hey_jarvis),
     [ExistsSync "/srv/grimm/models/melspectrogram.onnx";
      ExistsSync "/srv/grimm/models/embedding_model.onnx";
      ExistsSync "/srv/grimm/models/hey_jarvis_v0.1.onnx";
      CreateSession "/srv/grimm/models/melspectrogram.onnx";
      CreateSession "/srv/grimm/models/embedding_model.onnx";
      CreateSession "/srv/grimm/models/hey_jarvis_v0.1.onnx"]).
Proof. reflexivity. Qed.

(** *** Packing rows into a tensor *)

Lemma skipn_nth_error {A : Type} (l : list A) (n : nat) (x : A) :
  nth_error l n = Some x -> skipn n l = x :: skipn (S n) l.
Proof.
  revert n. induction l as [|a l IH]; intros [|n] H; try discriminate H.
  - cbn in H. injection H as ->. reflexivity.
  - cbn in H |- *. apply IH. exact H.
Qed.

(** Filling rows of the right width one after the other writes their
    concatenation. *)
Lemma setRows_ok (rows : list (list Q)) (width count from : nat)
    (dst : list Q) :
  Forall (fun r => length r = width) rows ->
  from + count <= length rows ->
  (from + count) * width <= length dst ->
  setRows rows width from count dst
  = inr (firstn (from * width) dst
           ++ concat (firstn count (skipn from rows))
           ++ skipn ((from + count) * width) dst).
Proof.
  intro Hw. revert from dst.
  induction count as [|count IH]; intros from dst Hrows Hdst.
  - cbn [setRows firstn concat app]. rewrite Nat.add_0_r.
    rewrite firstn_skipn. reflexivity.
  - cbn [setRows].
    destruct (nth_error rows from) as [row|] eqn:Hrow.
    2:{ apply nth_error_None in Hrow. lia. }
    assert (Hlen : length row = width).
    { rewrite Forall_forall in Hw. apply Hw.
      apply nth_error_In with from. exact Hrow. }
    unfold typedSet. rewrite Hlen.
    assert (Hfit : from * width + width <= length dst) by nia.
    apply Nat.leb_le in Hfit as Hfit'. rewrite Hfit'.
    set (dst' := firstn (from * width) dst ++ row
                   ++ skipn (from * width + width) dst).
    assert (Hf : length (firstn (from * width) dst) = from * width)
      by (rewrite length_firstn; lia).
    assert (Hdst' : length dst' = length dst).
    { unfold dst'. rewrite !length_app, Hf, Hlen, length_skipn. lia. }
    rewrite IH by (rewrite ?Hdst'; lia || nia).
    f_equal.
    rewrite (skipn_nth_error rows from row Hrow).
    cbn [firstn concat].
    assert (E1 : firstn (S from * width) dst'
                 = firstn (from * width) dst ++ row).
    { unfold dst'. rewrite app_assoc.
      rewrite firstn_app.
      replace (S from * width
               - length (firstn (from * width) dst ++ row)) with 0
        by (rewrite length_app, Hf, Hlen; lia).
      cbn [firstn]. rewrite app_nil_r.
      apply firstn_all2. rewrite length_app, Hf, Hlen. lia. }
    assert (E2 : skipn ((S from + count) * width) dst'
                 = skipn ((from + S count) * width) dst).
    { unfold dst'. rewrite app_assoc.
      rewrite skipn_app.
      rewrite (skipn_all2 (firstn (from * width) dst ++ row))
        by (rewrite length_app, Hf, Hlen; nia).
      cbn [app]. rewrite length_app, Hf, Hlen.
      rewrite skipn_skipn. f_equal. nia. }
    rewrite E1, E2, <- !app_assoc. reflexivity.
Qed.

Lemma packRows_ok (rows : list (list Q)) (count width : nat) :
  Forall (fun r => length r = width) rows ->
  count <= length rows ->
  packRows rows count width = inr (concat (firstn count rows)).
Proof.
  intros Hw Hc. unfold packRows.
  rewrite setRows_ok; [|exact Hw|lia|rewrite repeat_length; lia].
  cbn [Nat.mul firstn app skipn Nat.add].
  rewrite skipn_all2 by (rewrite repeat_length; lia).
  rewrite app_nil_r. reflexivity.
Qed.

Lemma Forall_firstn {A : Type} (P : A -> Prop) (n : nat) (l : list A) :
  Forall P l -> Forall P (firstn n l).
Proof.
  intro H. rewrite <- (firstn_skipn n l) in H.
  apply Forall_app in H. apply H.
Qed.

Lemma Forall_skipn {A : Type} (P : A -> Prop) (n : nat) (l : list A) :
  Forall P l -> Forall P (skipn n l).
Proof.
  intro H. rewrite <- (firstn_skipn n l) in H.
  apply Forall_app in H. apply H.
Qed.

(** *** The three stages *)

Lemma melFramesOf_shaped (mel : InferenceSession) (frame : list Z) :
  melShaped (melFramesOf mel frame).
Proof.
  unfold melShaped, melFramesOf. cbv zeta.
  set (t := map _ (run mel _)).
  apply Forall_forall. intros row Hin.
  apply in_map_iff in Hin as (i & <- & Hi).
  apply in_seq in Hi as [_ Hi]. cbn [Nat.add] in Hi.
  unfold slice. rewrite length_firstn, length_skipn.
  assert (H : 32 * (length t / 32) <= length t)
    by (apply Nat.Div0.mul_div_le).
  lia.
Qed.

Lemma computeMelspectrogram_eq (d : Detector) (mel : InferenceSession)
    (frame : list Z) :
  melSession d = Some mel ->
  computeMelspectrogram (map (fun x => (inject_Z x / 32768)%Q) frame) d
  = (inr (melFramesOf mel frame), d).
Proof.
  intro H. unfold computeMelspectrogram. ww_run. rewrite H. reflexivity.
Qed.

Lemma computeEmbedding_eq (d : Detector) (emb : InferenceSession) :
  embeddingSession d = Some emb ->
  melShaped (melBuffer d) ->
  MEL_BUFFER_SIZE <= length (melBuffer d) ->
  computeEmbedding d = (inr (embeddingAt emb (melBuffer d) 0), d).
Proof.
  intros H Hs Hn. unfold computeEmbedding. ww_run. rewrite H.
  unfold slice. cbn [skipn Nat.sub].
  rewrite packRows_ok.
  - unfold embeddingAt. cbn [Nat.mul skipn].
    rewrite firstn_firstn, Nat.min_id. reflexivity.
  - apply Forall_firstn. exact Hs.
  - rewrite length_firstn. unfold MEL_BUFFER_SIZE in *. lia.
Qed.

Lemma computeWakeWordScore_eq (d : Detector) (ww : InferenceSession) :
  wakeWordSession d = Some ww ->
  embeddingShaped (embeddingBuffer d) ->
  16 <= length (embeddingBuffer d) ->
  computeWakeWordScore d = (inr (scoreOf ww (embeddingBuffer d)), d).
Proof.
  intros H Hs Hn. unfold computeWakeWordScore. ww_run. rewrite H. cbv zeta.
  assert (Hl : length (sliceLast (embeddingBuffer d) 16) = 16)
    by (unfold sliceLast; rewrite length_skipn; lia).
  rewrite packRows_ok.
  - unfold scoreOf. cbv zeta.
    rewrite firstn_all2 by lia. reflexivity.
  - apply Forall_skipn. exact Hs.
  - lia.
Qed.

(** *** The embedding loop *)

Lemma turns_below (n : nat) : n < MEL_BUFFER_SIZE -> turns n = 0.
Proof.
  intro H. unfold turns. apply Nat.ltb_lt in H. rewrite H. reflexivity.
Qed.

Lemma turns_step (n : nat) :
  MEL_BUFFER_SIZE <= n ->
  turns n = S (turns (n - EMBEDDING_WINDOW_SLIDE)).
Proof.
  unfold turns, MEL_BUFFER_SIZE, EMBEDDING_WINDOW_SLIDE. intro H.
  destruct (n <? 76) eqn:E1; [apply Nat.ltb_lt in E1; lia|].
  destruct (n - 8 <? 76) eqn:E2.
  - apply Nat.ltb_lt in E2. rewrite Nat.div_small by lia. reflexivity.
  - apply Nat.ltb_ge in E2.
    replace (n - 76) with ((n - 8 - 76) + 1 * 8) by lia.
    rewrite Nat.div_add by lia. lia.
Qed.

Lemma turns_le (n : nat) : turns n <= n.
Proof.
  unfold turns, MEL_BUFFER_SIZE, EMBEDDING_WINDOW_SLIDE.
  destruct (n <? 76) eqn:E; [lia|]. apply Nat.ltb_ge in E.
  assert (H : (n - 76) / 8 <= n - 76) by (apply Nat.Div0.div_le_upper_bound; lia).
  lia.
Qed.

(** After the loop the window is below capacity again, and every turn has
    taken exactly one stride off it. *)
Lemma turns_leaves (n : nat) :
  n - EMBEDDING_WINDOW_SLIDE * turns n < MEL_BUFFER_SIZE /\
  EMBEDDING_WINDOW_SLIDE * turns n <= n + (EMBEDDING_WINDOW_SLIDE - 1) /\
  (0 < turns n ->
   MEL_BUFFER_SIZE + EMBEDDING_WINDOW_SLIDE * (turns n - 1) <= n).
Proof.
  unfold turns, MEL_BUFFER_SIZE, EMBEDDING_WINDOW_SLIDE.
  destruct (n <? 76) eqn:E.
  - apply Nat.ltb_lt in E. lia.
  - apply Nat.ltb_ge in E.
    pose proof (Nat.div_mod_eq (n - 76) 8) as D.
    pose proof (Nat.mod_upper_bound (n - 76) 8) as U.
    lia.
Qed.

Lemma withWindows_same (d : Detector) :
  withWindows (melBuffer d) (embeddingBuffer d) d = d.
Proof. destruct d. reflexivity. Qed.

Lemma embedLoop_eq (emb : InferenceSession) (fuel : nat) (d : Detector) :
  embeddingSession d = Some emb ->
  melShaped (melBuffer d) ->
  turns (length (melBuffer d)) <= fuel ->
  embedLoop fuel d
  = (inr tt,
     withWindows
       (skipn (EMBEDDING_WINDOW_SLIDE * turns (length (melBuffer d)))
              (melBuffer d))
       (embeddingBuffer d
          ++ map (embeddingAt emb (melBuffer d))
                 (seq 0 (turns (length (melBuffer d)))))
       d).
Proof.
  revert d. induction fuel as [|fuel IH]; intros d He Hs Hf.
  - assert (T0 : turns (length (melBuffer d)) = 0) by lia.
    rewrite T0. cbn [embedLoop]. ww_run.
    destruct (MEL_BUFFER_SIZE <=? length (melBuffer d)) eqn:E.
    + apply Nat.leb_le in E. rewrite turns_step in T0 by exact E. discriminate.
    + cbn [Nat.mul seq map skipn]. rewrite Nat.mul_0_r. cbn [skipn].
      rewrite app_nil_r, withWindows_same. reflexivity.
  - cbn [embedLoop]. unfold bind at 1. unfold get at 1.
    destruct (MEL_BUFFER_SIZE <=? length (melBuffer d)) eqn:E.
    + apply Nat.leb_le in E.
      unfold bind at 1. rewrite (computeEmbedding_eq d emb He Hs E).
      unfold bind at 1. unfold modify at 1.
      unfold bind at 1. unfold modify at 1.
      rewrite turns_step in Hf |- * by exact E.
      rewrite IH.
      * ww_fields. unfold sliceFrom. rewrite length_skipn.
        unfold withWindows. ww_fields.
        rewrite skipn_skipn.
        replace (EMBEDDING_WINDOW_SLIDE
                 * turns (length (melBuffer d) - EMBEDDING_WINDOW_SLIDE)
                 + EMBEDDING_WINDOW_SLIDE)
          with (EMBEDDING_WINDOW_SLIDE
                * S (turns (length (melBuffer d) - EMBEDDING_WINDOW_SLIDE)))
          by lia.
        cbn [seq map]. rewrite <- app_assoc. cbn [app].
        rewrite <- seq_shift, map_map.
        do 4 f_equal.
        apply map_ext. intro k. unfold embeddingAt.
        rewrite skipn_skipn.
        replace (EMBEDDING_WINDOW_SLIDE * k + EMBEDDING_WINDOW_SLIDE)
          with (EMBEDDING_WINDOW_SLIDE * S k) by lia.
        reflexivity.
      * ww_fields. exact He.
      * ww_fields. apply Forall_skipn. exact Hs.
      * ww_fields. unfold sliceFrom. rewrite length_skipn. lia.
    + apply Nat.leb_gt in E. rewrite turns_below by exact E.
      unfold ret. rewrite Nat.mul_0_r. cbn [seq map skipn].
      rewrite app_nil_r, withWindows_same. reflexivity.
Qed.

(** *** processFrame *)

Lemma turns_one (n : nat) :
  MEL_BUFFER_SIZE <= n < MEL_BUFFER_SIZE + EMBEDDING_WINDOW_SLIDE ->
  turns n = 1.
Proof.
  unfold turns, MEL_BUFFER_SIZE, EMBEDDING_WINDOW_SLIDE. intro H.
  destruct (n <? 76) eqn:E; [apply Nat.ltb_lt in E; lia|].
  rewrite Nat.div_small by lia. reflexivity.
Qed.

(** One call of [processFrame] on a ready detector, in closed form. *)
Lemma processFrame_closed_form
    (d : Detector) (mel emb ww : InferenceSession) (frame : list Z) :
  ready d mel emb ww ->
  melShaped (melBuffer d) ->
  embeddingShaped (embeddingBuffer d) ->
  (forall t, length (run emb t) = 96) ->
  length frame = FRAME_LENGTH ->
  let mel0 := melBuffer d ++ melFramesOf mel frame in
  let k := turns (length mel0) in
  let emb1 := embeddingBuffer d ++ map (embeddingAt emb mel0) (seq 0 k) in
  let mel1 := skipn (EMBEDDING_WINDOW_SLIDE * k) mel0 in
  processFrame frame d
  = (if 16 <=? length emb1 then
       if exceeds (scoreOf ww emb1) (sensitivity d)
       then (inr true, withWindows [] [] d)
       else (inr false, withWindows mel1 (skipn 1 emb1) d)
     else (inr false, withWindows mel1 emb1 d)).
Proof.
  intros (Hrel & Hini & Hmel & Hemb & Hww) Sm Se Hshape Hlen. cbv zeta.
  set (mel0 := melBuffer d ++ melFramesOf mel frame).
  set (k := turns (length mel0)).
  unfold processFrame. unfold bind at 1. unfold get at 1.
  rewrite Hrel, Hini. cbn [negb]. rewrite Hlen, Nat.eqb_refl. cbn [negb].
  unfold bind at 1. rewrite (computeMelspectrogram_eq d mel frame Hmel).
  unfold bind at 1. unfold modify at 1.
  unfold bind at 1. unfold get at 1.
  unfold bind at 1. ww_fields. fold mel0.
  rewrite (embedLoop_eq emb); ww_fields; fold mel0; fold k;
    [| exact Hemb
     | apply Forall_app; split; [exact Sm|apply melFramesOf_shaped]
     | apply turns_le].
  unfold bind at 1. unfold get at 1.
  unfold withWindows at 1 2. ww_fields.
  set (emb1 := embeddingBuffer d ++ map (embeddingAt emb mel0) (seq 0 k)).
  assert (Se1 : embeddingShaped emb1).
  { unfold emb1. apply Forall_app. split; [exact Se|].
    apply Forall_forall. intros e He.
    apply in_map_iff in He as (j & <- & _). apply Hshape. }
  destruct (16 <=? length emb1) eqn:E16; [|reflexivity].
  apply Nat.leb_le in E16.
  unfold bind at 1.
  rewrite (computeWakeWordScore_eq _ ww); ww_fields;
    [| exact Hww | exact Se1 | exact E16].
  unfold bind at 1. unfold modify at 1.
  unfold bind at 1. unfold get at 1. ww_fields.
  destruct (exceeds (scoreOf ww emb1) (sensitivity d)).
  - unfold bind, modify, ret. reflexivity.
  - unfold ret. reflexivity.
Qed.

(** The shapes assumed of the windows are kept by [processFrame]. *)
Lemma processFrame_keeps_shape
    (d : Detector) (mel emb ww : InferenceSession) (frame : list Z) :
  ready d mel emb ww ->
  melShaped (melBuffer d) ->
  embeddingShaped (embeddingBuffer d) ->
  (forall t, length (run emb t) = 96) ->
  length frame = FRAME_LENGTH ->
  let d' := snd (processFrame frame d) in
  ready d' mel emb ww /\ melShaped (melBuffer d') /\
  embeddingShaped (embeddingBuffer d') /\ sensitivity d' = sensitivity d.
Proof.
  intros R Sm Se Hshape Hlen. cbv zeta.
  pose proof (processFrame_closed_form d mel emb ww frame R Sm Se Hshape Hlen)
    as E.
  cbv zeta in E. rewrite E. clear E.
  set (mel0 := melBuffer d ++ melFramesOf mel frame).
  set (emb1 := embeddingBuffer d ++ _).
  assert (Sm0 : melShaped mel0)
    by (apply Forall_app; split; [exact Sm|apply melFramesOf_shaped]).
  assert (Se1 : embeddingShaped emb1).
  { unfold emb1. apply Forall_app. split; [exact Se|].
    apply Forall_forall. intros e He.
    apply in_map_iff in He as (j & <- & _). apply Hshape. }
  destruct R as (R1 & R2 & R3 & R4 & R5).
  destruct (16 <=? length emb1);
    [destruct (exceeds (scoreOf ww emb1) (sensitivity d))|];
    cbn [snd]; unfold ready, withWindows; ww_fields;
    (split; [repeat split; assumption|]);
    (split; [|split; [|reflexivity]]);
    first [ apply Forall_nil | apply Forall_skipn; assumption | assumption ].
Qed.

(** C2.  One call of [processFrame] on a ready detector.  The mel frames
    of the audio frame are appended to the feature window [mel0].  The
    embedding stage then runs [turns (length mel0)] times: not at all while
    the window is below its capacity of 76, otherwise once on the first 76
    frames and once more for every further stride of 8 that still leaves
    76, each run appending exactly one embedding and each followed by
    dropping exactly the 8 oldest frames, so that the window ends below
    capacity.  If the embedding window then holds at least 16 entries, the
    classifier runs on the last 16 and the oldest entry is dropped; a
    score above the sensitivity returns [true] and empties both windows,
    anything else returns [false]. *)
Theorem processFrame_slides_windows
    (d : Detector) (mel emb ww : InferenceSession) (frame : list Z) :
  ready d mel emb ww ->
  melShaped (melBuffer d) ->
  embeddingShaped (embeddingBuffer d) ->
  (forall t, length (run emb t) = 96) ->
  length frame = FRAME_LENGTH ->
  let mel0 := melBuffer d ++ melFramesOf mel frame in
  let k := turns (length mel0) in
  let emb1 := embeddingBuffer d ++ map (embeddingAt emb mel0) (seq 0 k) in
  let mel1 := skipn (EMBEDDING_WINDOW_SLIDE * k) mel0 in
  processFrame frame d
  = (if 16 <=? length emb1 then
       if exceeds (scoreOf ww emb1) (sensitivity d)
       then (inr true, withWindows [] [] d)
       else (inr false, withWindows mel1 (skipn 1 emb1) d)
     else (inr false, withWindows mel1 emb1 d)) /\
  length emb1 = length (embeddingBuffer d) + k /\
  length mel1 = length mel0 - EMBEDDING_WINDOW_SLIDE * k /\
  length mel1 < MEL_BUFFER_SIZE /\
  (length mel0 < MEL_BUFFER_SIZE -> k = 0) /\
  (MEL_BUFFER_SIZE <= length mel0 < MEL_BUFFER_SIZE + EMBEDDING_WINDOW_SLIDE ->
   k = 1).
Proof.
  intros R Sm Se Hshape Hlen. cbv zeta.
  split; [exact (processFrame_closed_form d mel emb ww frame R Sm Se Hshape Hlen)|].
  split; [rewrite length_app, length_map, length_seq; reflexivity|].
  split; [rewrite length_skipn; reflexivity|].
  split; [rewrite length_skipn; apply turns_leaves|].
  split; [apply turns_below|apply turns_one].
Qed.

(** The sample environments' [path.join] normalises what it joins. *)
Lemma posixJoin_normalises :
  posixJoin "./models" "melspectrogram.onnx"
  = "models/melspectrogram.onnx"%string /\
  posixJoin "/" "models" = "/models"%string /\
  posixJoin "/srv/grimm/app/.." "models/" = "/srv/grimm/models/"%string.
Proof. repeat split. Qed.

Lemma create_sample (mel : InferenceSession) (score : Q) :
  create (sampleEnv mel score) noOptions
  = (inr (sampleDetector mel score),
     [ExistsSync "/srv/grimm/models/melspectrogram.onnx";
      ExistsSync "/srv/grimm/models/embedding_model.onnx";
      ExistsSync "/srv/grimm/models/hey_jarvis_v0.1.onnx";
      CreateSession "/srv/grimm/models/melspectrogram.onnx";
      CreateSession "/srv/grimm/models/embedding_model.onnx";
      CreateSession "/srv/grimm/models/hey_jarvis_v0.1.onnx"]).
Proof. reflexivity. Qed.

Lemma Forall_repeat {A : Type} (P : A -> Prop) (x : A) (n : nat) :
  P x -> Forall P (repeat x n).
Proof.
  intro H. apply Forall_forall. intros y Hy.
  apply repeat_spec in Hy. subst y. exact H.
Qed.

Lemma processFrame_slides_windows_witness :
  ready (primed (9 # 10)) melFive embFixed (classifier (9 # 10)) /\
  melShaped (melBuffer (primed (9 # 10))) /\
  embeddingShaped (embeddingBuffer (primed (9 # 10))) /\
  (forall t, length (run embFixed t) = 96) /\
  length zeroFrame = FRAME_LENGTH /\
  processFrame zeroFrame (primed (9 # 10))
  = (inr true, withWindows [] [] (primed (9 # 10))) /\
  processFrame zeroFrame (primed (1 # 10))
  = (inr false,
     withWindows
       (repeat (repeat (21 # 10)%Q 32) 67 ++ repeat (repeat (21 # 10)%Q 32) 5)
       (repeat (repeat (1 # 2)%Q 96) 15)
       (primed (1 # 10))).
Proof.
  assert (H1 : forall s, ready (primed s) melFive embFixed (classifier s))
    by (intro s; repeat split).
  assert (H2 : forall s, melShaped (melBuffer (primed s)))
    by (intro s; apply Forall_repeat; reflexivity).
  assert (H3 : forall s, embeddingShaped (embeddingBuffer (primed s)))
    by (intro s; apply Forall_repeat; reflexivity).
  assert (H4 : forall t, length (run embFixed t) = 96)
    by (intro t; reflexivity).
  assert (H5 : length zeroFrame = FRAME_LENGTH) by reflexivity.
  split; [apply H1|]. split; [apply H2|]. split; [apply H3|].
  split; [exact H4|]. split; [exact H5|].
  split.
  - destruct (processFrame_slides_windows (primed (9 # 10)) melFive embFixed
                (classifier (9 # 10)) zeroFrame (H1 _) (H2 _) (H3 _) H4 H5)
      as (E & _).
    rewrite E. vm_compute. reflexivity.
  - destruct (processFrame_slides_windows (primed (1 # 10)) melFive embFixed
                (classifier (1 # 10)) zeroFrame (H1 _) (H2 _) (H3 _) H4 H5)
      as (E & _).
    rewrite E. vm_compute. reflexivity.
Defined.

(** *** Shutdown *)

Lemma releaseSession_none (field : Detector -> option InferenceSession)
    (clear : Detector -> Detector) (d : Detector) :
  field d = None -> releaseSession field clear d = (inr tt, d).
Proof. intro H. unfold releaseSession. ww_run. rewrite H. reflexivity. Qed.

Lemma bind_inr {A B : Type} (m : M A) (k : A -> M B) (d d' : Detector)
    (b : B) :
  bind m k d = (inr b, d') ->
  exists a d1, m d = (inr a, d1) /\ k a d1 = (inr b, d').
Proof.
  unfold bind. destruct (m d) as [[e|a] d1]; intro H; [discriminate H|].
  exists a, d1. split; [reflexivity|exact H].
Qed.

(** A second [release()] returns and changes nothing. *)
Lemma ww_release_idempotent (d d' : Detector) :
  release d = (inr tt, d') -> release d' = (inr tt, d').
Proof.
  intro H.
  assert (R : isReleased d' = true).
  { unfold release in H.
    apply bind_inr in H as (d0 & d1 & G & H). unfold get in G.
    injection G as <- <-.
    destruct (isReleased d) eqn:E; cbn [negb] in H.
    - unfold ret in H. injection H as <-. exact E.
    - apply bind_inr in H as (u1 & d2 & _ & H).
      apply bind_inr in H as (u2 & d3 & _ & H).
      apply bind_inr in H as (u3 & d4 & _ & H).
      unfold modify in H. injection H as <-. reflexivity. }
  unfold release. unfold bind at 1. unfold get at 1. rewrite R. reflexivity.
Qed.

Lemma releaseSession_returns (field : Detector -> option InferenceSession)
    (clear : Detector -> Detector) (d : Detector) :
  (forall s, field d = Some s -> releaseOutcome s = Returned) ->
  releaseSession field clear d
  = (inr tt, match field d with Some _ => clear d | None => d end).
Proof.
  intro H. unfold releaseSession. unfold bind, get.
  destruct (field d) as [s|]; [|reflexivity].
  rewrite (H s eq_refl). reflexivity.
Qed.

(** [release()] returns when the sessions' own [release()] calls do. *)
Lemma ww_release_returns (d : Detector) :
  (forall s, In (Some s) [melSession d; embeddingSession d; wakeWordSession d]
             -> releaseOutcome s = Returned) ->
  exists d', release d = (inr tt, d') /\
             (isReleased d = false -> isReleased d' = true).
Proof.
  intro H. unfold release. unfold bind at 1. unfold get at 1.
  destruct (isReleased d) eqn:E; cbn [negb].
  { exists d. split; [reflexivity|]. discriminate. }
  unfold bind at 1. rewrite releaseSession_returns.
  2:{ intros s Hs. apply H. rewrite <- Hs. left. reflexivity. }
  set (d1 := match melSession d with
             | Some _ => set_melSession None d | None => d end).
  assert (F1 : embeddingSession d1 = embeddingSession d /\
               wakeWordSession d1 = wakeWordSession d)
    by (unfold d1; destruct (melSession d); split; reflexivity).
  unfold bind at 1. rewrite releaseSession_returns.
  2:{ intros s Hs. apply H. rewrite <- Hs, (proj1 F1).
      right; left. reflexivity. }
  set (d2 := match embeddingSession d1 with
             | Some _ => set_embeddingSession None d1 | None => d1 end).
  assert (F2 : wakeWordSession d2 = wakeWordSession d).
  { unfold d2. destruct (embeddingSession d1); [|apply F1].
    ww_fields. apply F1. }
  unfold bind at 1. rewrite releaseSession_returns.
  2:{ intros s Hs. apply H. rewrite <- Hs, F2.
      right; right; left. reflexivity. }
  unfold modify. eexists. split; [reflexivity|]. reflexivity.
Qed.

(** C9: the failing input.  A detector whose melspectrogram session
    rejects its own [release()]: the detector's [release()] throws what the
    session threw and leaves the detector unreleased, where the
    specification has [release()] never throw. *)
Theorem release_propagates_session_failure :
  fst (create (sampleEnv stubborn (1 # 10)) noOptions)
    = inr (sampleDetector stubborn (1 # 10)) /\
  release (sampleDetector stubborn (1 # 10))
    = (inl (RuntimeError "dispose failed"), sampleDetector stubborn (1 # 10)) /\
  isReleased (snd (release (sampleDetector stubborn (1 # 10)))) = false.
Proof. repeat split. Qed.

End WakeWordFacts.

(** ** The scripted source *)

Section EmulatedFacts.

Import Emulated ECSpec.

Local Open Scope nat_scope.

Ltac ec_fields :=
  cbn [set_audioBuffer set_frameCallback set_running set_released
       set_position set_delivered
       audioBuffer frameCallback running released position frameLength
       sampleRate realtime delivered].

(** *** Rounding up *)

Lemma ceilDiv_zero (a b : nat) : 0 < b -> ceilDiv a b = 0 -> a = 0.
Proof.
  unfold ceilDiv. intros Hb H.
  pose proof (Nat.div_mod_eq a b) as D.
  destruct (a mod b =? 0) eqn:E; [|lia].
  apply Nat.eqb_eq in E. assert (a / b = 0) by lia. nia.
Qed.

Lemma ceilDiv_step (a b : nat) :
  0 < b -> 0 < a -> ceilDiv a b = S (ceilDiv (a - b) b).
Proof.
  intros Hb Ha. unfold ceilDiv.
  destruct (Nat.le_gt_cases b a) as [Hle|Hlt].
  - assert (E1 : (a - b) / b = a / b - 1).
    { symmetry. apply Nat.div_unique with (a mod b).
      - apply Nat.mod_upper_bound. lia.
      - pose proof (Nat.div_mod_eq a b) as D.
        assert (1 <= a / b) by (apply Nat.div_le_lower_bound; lia).
        nia. }
    assert (E2 : (a - b) mod b = a mod b).
    { symmetry. apply Nat.mod_unique with (a / b - 1).
      - apply Nat.mod_upper_bound. lia.
      - pose proof (Nat.div_mod_eq a b) as D.
        assert (1 <= a / b) by (apply Nat.div_le_lower_bound; lia).
        nia. }
    rewrite E1, E2.
    assert (1 <= a / b) by (apply Nat.div_le_lower_bound; lia).
    lia.
  - replace (a - b) with 0 by lia.
    rewrite (Nat.div_small a b), (Nat.mod_small a b) by lia.
    rewrite Nat.Div0.div_0_l, Nat.Div0.mod_0_l.
    destruct (a =? 0) eqn:E; [apply Nat.eqb_eq in E; lia|]. reflexivity.
Qed.

(** [ceilDiv a b] is the least number of blocks of [b] that cover [a]. *)
Lemma ceilDiv_spec (a b : nat) :
  0 < b -> a <= ceilDiv a b * b /\ ceilDiv a b * b < a + b.
Proof.
  intro Hb. unfold ceilDiv.
  pose proof (Nat.div_mod_eq a b) as D.
  pose proof (Nat.mod_upper_bound a b ltac:(lia)) as U.
  destruct (a mod b =? 0) eqn:E.
  - apply Nat.eqb_eq in E. nia.
  - apply Nat.eqb_neq in E. nia.
Qed.

(** *** One frame *)

Lemma skipn_repeat {A : Type} (x : A) (n k : nat) :
  skipn k (repeat x n) = repeat x (n - k).
Proof.
  revert k. induction n as [|n IH]; intros [|k]; try reflexivity.
  cbn [repeat skipn Nat.sub]. apply IH.
Qed.

Lemma frameAt_chunkAt (c : Channel) :
  frameAt c = chunkAt (audioBuffer c) (frameLength c) (position c).
Proof.
  unfold frameAt, chunkAt, slice. cbv zeta.
  set (buf := audioBuffer c). set (F := frameLength c). set (p := position c).
  assert (E : firstn (Nat.min (p + F) (length buf) - p) (skipn p buf)
              = firstn F (skipn p buf)).
  { destruct (Nat.le_gt_cases (p + F) (length buf)) as [H|H].
    - rewrite Nat.min_l by exact H. f_equal. lia.
    - rewrite Nat.min_r by lia.
      rewrite !firstn_all2; [reflexivity| |]; rewrite length_skipn; lia. }
  rewrite E.
  destruct (length (firstn F (skipn p buf)) <? F) eqn:C.
  - rewrite skipn_repeat. reflexivity.
  - apply Nat.ltb_ge in C.
    replace (F - length (firstn F (skipn p buf))) with 0 by lia.
    cbn [repeat]. rewrite app_nil_r. reflexivity.
Qed.

Lemma chunkAt_length (buffer : list Z) (F p : nat) :
  length (chunkAt buffer F p) = F.
Proof.
  unfold chunkAt. cbv zeta. rewrite length_app, repeat_length.
  pose proof (firstn_le_length F (skipn p buffer)). lia.
Qed.

(** *** The emission loop *)

Lemma chunks_step (buffer : list Z) (F p n : nat) :
  chunks buffer F p (S n) = chunkAt buffer F p :: chunks buffer F (p + F) n.
Proof.
  unfold chunks. cbn [seq map]. rewrite Nat.add_0_r. f_equal.
  rewrite <- seq_shift, map_map. apply map_ext. intro k.
  f_equal. lia.
Qed.

(** Left alone, the loop delivers the frames that cover the rest of the
    buffer, moves the cursor past them, and clears the running flag. *)
Lemma emitLoop_undisturbed (stoppedAsleep : nat -> bool)
    (callback : FrameCallback) (fuel : nat) (c : Channel) :
  frameCallback c = Some callback ->
  attentive callback -> undisturbed stoppedAsleep ->
  running c = true -> released c = false -> 0 < frameLength c ->
  ceilDiv (length (audioBuffer c) - position c) (frameLength c) <= fuel ->
  emitLoop stoppedAsleep fuel c
  = Some
      (set_running false
         (set_position
            (position c
             + ceilDiv (length (audioBuffer c) - position c) (frameLength c)
               * frameLength c)
            (set_delivered
               (delivered c
                ++ chunks (audioBuffer c) (frameLength c) (position c)
                     (ceilDiv (length (audioBuffer c) - position c)
                              (frameLength c)))
               c))).
Proof.
  intros Hcb Hatt Hund. revert c Hcb.
  induction fuel as [|fuel IH]; intros c Hcb Hrun Hrel HF Hfuel.
  - assert (Hn : ceilDiv (length (audioBuffer c) - position c) (frameLength c) = 0)
      by lia.
    pose proof (ceilDiv_zero _ _ HF Hn) as Hz.
    rewrite Hn. cbn [emitLoop]. rewrite Hrun, Hrel. cbn [negb andb].
    destruct (position c <? length (audioBuffer c)) eqn:E;
      [apply Nat.ltb_lt in E; lia|].
    unfold chunks. cbn [seq map]. rewrite app_nil_r, Nat.add_0_r.
    destruct c; reflexivity.
  - cbn [emitLoop]. rewrite Hrun, Hrel. cbn [negb andb].
    destruct (position c <? length (audioBuffer c)) eqn:E.
    + apply Nat.ltb_lt in E.
      rewrite Hcb. unfold invoke. rewrite Hatt, frameAt_chunkAt. ec_fields.
      rewrite Hrun.
      assert (Hstep : ceilDiv (length (audioBuffer c) - position c) (frameLength c)
                      = S (ceilDiv (length (audioBuffer c)
                                    - (position c + frameLength c))
                                   (frameLength c))).
      { rewrite ceilDiv_step by lia. do 2 f_equal. lia. }
      rewrite Hstep in Hfuel |- *.
      match goal with
      | |- emitLoop _ _ (if ?b then (if ?a then _ else ?x) else ?y) = _ =>
          replace (if b then (if a then snd (stop x) else x) else y) with x
            by (rewrite Hund; destruct b; reflexivity)
      end.
      rewrite IH; ec_fields; try assumption; try lia.
      rewrite chunks_step, <- app_assoc. cbn [app].
      rewrite Nat.mul_succ_l.
      replace (position c + frameLength c
               + ceilDiv (length (audioBuffer c)
                          - (position c + frameLength c)) (frameLength c)
                 * frameLength c)
        with (position c
              + (ceilDiv (length (audioBuffer c)
                          - (position c + frameLength c)) (frameLength c)
                 * frameLength c + frameLength c)) by lia.
      reflexivity.
    + apply Nat.ltb_ge in E.
      replace (length (audioBuffer c) - position c) with 0 by lia.
      unfold ceilDiv. rewrite Nat.Div0.div_0_l, Nat.Div0.mod_0_l.
      cbn [Nat.eqb Nat.add Nat.mul]. unfold chunks. cbn [seq map].
      rewrite app_nil_r, Nat.add_0_r. destruct c; reflexivity.
Qed.

(** *** start() *)

Lemma start_undisturbed (stoppedAsleep : nat -> bool)
    (callback : FrameCallback) (fuel : nat) (c : Channel) :
  frameCallback c = Some callback ->
  attentive callback -> undisturbed stoppedAsleep ->
  running c = false -> released c = false -> position c = 0 ->
  delivered c = [] ->
  0 < frameLength c -> audioBuffer c <> [] ->
  ceilDiv (length (audioBuffer c)) (frameLength c) <= fuel ->
  start stoppedAsleep fuel c
  = Some
      (Returned,
       set_running false
         (set_position
            (ceilDiv (length (audioBuffer c)) (frameLength c) * frameLength c)
            (set_delivered
               (chunks (audioBuffer c) (frameLength c) 0
                  (ceilDiv (length (audioBuffer c)) (frameLength c)))
               c))).
Proof.
  intros Hcb Hatt Hund Hrun Hrel Hpos Hdel HF Hbuf Hfuel.
  unfold start. rewrite Hrel, Hrun.
  destruct (length (audioBuffer c) =? 0) eqn:E.
  { apply Nat.eqb_eq, length_zero_iff_nil in E. contradiction. }
  rewrite (emitLoop_undisturbed stoppedAsleep callback); ec_fields;
    try assumption; try reflexivity;
    rewrite ?Hpos, ?Nat.sub_0_r; try assumption.
  rewrite Hdel. cbn [app Nat.add]. reflexivity.
Qed.

Lemma nth_chunks (buffer : list Z) (F n k : nat) :
  k < n -> nth k (chunks buffer F 0 n) [] = chunkAt buffer F (k * F).
Proof.
  intro H. unfold chunks.
  rewrite (nth_indep _ [] (chunkAt buffer F (0 + 0 * F)))
    by (rewrite length_map, length_seq; exact H).
  rewrite (map_nth (fun j => chunkAt buffer F (0 + j * F)) (seq 0 n) 0 k).
  rewrite seq_nth by exact H. reflexivity.
Qed.

Lemma last_chunks (buffer : list Z) (F m : nat) :
  last (chunks buffer F 0 (S m)) [] = chunkAt buffer F (m * F).
Proof.
  unfold chunks. rewrite seq_S, map_app. cbn [map Nat.add].
  apply last_last.
Qed.

(** A frame that lies inside the buffer is a plain slice of it. *)
Lemma chunkAt_full (buffer : list Z) (F p : nat) :
  p + F <= length buffer ->
  chunkAt buffer F p = firstn F (skipn p buffer).
Proof.
  intro H. unfold chunkAt. cbv zeta.
  rewrite length_firstn, length_skipn.
  replace (F - Nat.min F (length buffer - p)) with 0 by lia.
  cbn [repeat]. apply app_nil_r.
Qed.

(** A frame that reaches past the end holds the rest of the buffer and
    then zeros. *)
Lemma chunkAt_short (buffer : list Z) (F p : nat) :
  length buffer <= p + F ->
  chunkAt buffer F p
  = skipn p buffer ++ repeat 0%Z (F - (length buffer - p)).
Proof.
  intro H. unfold chunkAt. cbv zeta.
  rewrite firstn_all2 by (rewrite length_skipn; lia).
  rewrite length_skipn. reflexivity.
Qed.

(** C7.  A channel made from a buffer whose length L is no multiple of the
    frame length F, with a callback registered, is started and left alone.
    The emission loop comes to an end; the callback has then been invoked
    ceil(L/F) times (which is one more than the quotient L/F, and the value
    of [getTotalFrames]); every frame has F samples; the first L/F frames
    are the consecutive slices of the buffer; the last frame is the
    remaining L mod F samples followed by zeros. *)
Theorem start_pads_last_frame
    (buffer : list Z) (options : EmulatedChannelOptions)
    (callback : FrameCallback) (stoppedAsleep : nat -> bool) (fuel : nat) :
  let c := onFrame callback (fromBuffer buffer options) in
  let F := frameLength c in
  let L := length buffer in
  0 < F -> L mod F <> 0 ->
  attentive callback -> undisturbed stoppedAsleep ->
  ceilDiv L F <= fuel ->
  exists c',
    start stoppedAsleep fuel c = Some (Returned, c') /\
    length (delivered c') = ceilDiv L F /\
    ceilDiv L F = L / F + 1 /\
    L <= ceilDiv L F * F < L + F /\
    ceilDiv L F = getTotalFrames c /\
    Forall (fun f => length f = F) (delivered c') /\
    (forall k, k < L / F ->
               nth k (delivered c') [] = firstn F (skipn (k * F) buffer)) /\
    last (delivered c') []
      = skipn (L / F * F) buffer ++ repeat 0%Z (F - L mod F) /\
    isRunning c' = false /\ isComplete c' = true.
Proof.
  intros c F L HF Hmod Hatt Hund Hfuel.
  assert (Hbuf : audioBuffer c = buffer) by reflexivity.
  assert (HFc : frameLength c = F) by reflexivity.
  assert (Hne : buffer <> []).
  { intro E. apply Hmod. unfold L. rewrite E. apply Nat.Div0.mod_0_l. }
  assert (Hn : ceilDiv L F = L / F + 1).
  { unfold ceilDiv. apply Nat.eqb_neq in Hmod. rewrite Hmod. reflexivity. }
  pose proof (Nat.div_mod_eq L F) as D.
  pose proof (Nat.mod_upper_bound L F ltac:(lia)) as U.
  eexists. split.
  { apply (start_undisturbed stoppedAsleep callback); try assumption;
      try reflexivity; rewrite ?Hbuf, ?HFc; assumption. }
  ec_fields. rewrite Hbuf, HFc. fold L.
  split; [unfold chunks; rewrite length_map, length_seq; reflexivity|].
  split; [exact Hn|].
  split; [apply ceilDiv_spec; exact HF|].
  split; [reflexivity|].
  split.
  { apply Forall_forall. intros f Hf. unfold chunks in Hf.
    apply in_map_iff in Hf as (k & <- & _). apply chunkAt_length. }
  split.
  { intros k Hk. rewrite nth_chunks by lia.
    apply chunkAt_full. fold L. nia. }
  split.
  { rewrite Hn, Nat.add_1_r, last_chunks.
    rewrite chunkAt_short by (fold L; nia).
    do 2 f_equal. fold L. nia. }
  split; [reflexivity|].
  unfold isComplete. ec_fields. fold L.
  apply Nat.leb_le. pose proof (ceilDiv_spec L F HF). lia.
Qed.

Lemma start_pads_last_frame_witness :
  0 < frameLength (onFrame listener (fromBuffer sampleBuffer fastOptions)) /\
  length sampleBuffer mod 512 <> 0 /\
  attentive listener /\ undisturbed nobody /\
  ceilDiv (length sampleBuffer) 512 <= 2 /\
  exists c',
    start nobody 2 (onFrame listener (fromBuffer sampleBuffer fastOptions))
      = Some (Returned, c') /\
    length (delivered c') = 2 /\
    last (delivered c') [] = repeat 1000%Z 88 ++ repeat 0%Z 424.
Proof.
  assert (H1 : 0 < frameLength (onFrame listener
                                  (fromBuffer sampleBuffer fastOptions)))
    by (apply Nat.ltb_lt; reflexivity).
  assert (H2 : length sampleBuffer mod
                 frameLength (onFrame listener
                                (fromBuffer sampleBuffer fastOptions)) <> 0)
    by (vm_compute; discriminate).
  assert (H3 : attentive listener) by (intro f; reflexivity).
  assert (H4 : undisturbed nobody) by (intro p; reflexivity).
  assert (H5 : ceilDiv (length sampleBuffer)
                 (frameLength (onFrame listener
                                 (fromBuffer sampleBuffer fastOptions))) <= 2)
    by (apply Nat.leb_le; reflexivity).
  split; [exact H1|]. split; [exact H2|]. split; [exact H3|].
  split; [exact H4|]. split; [exact H5|].
  destruct (start_pads_last_frame sampleBuffer fastOptions listener nobody 2
              H1 H2 H3 H4 H5)
    as (c' & E & N & _ & _ & _ & _ & _ & Hlast & _).
  exists c'. split; [exact E|]. split; [exact N|]. exact Hlast.
Defined.

(** *** Pacing *)


(** *** Shutdown *)

Lemma stop_never_throws (c : Channel) : fst (stop c) = Returned.
Proof. reflexivity. Qed.

Lemma stop_idempotent (c : Channel) :
  stop (snd (stop c)) = (Returned, snd (stop c)).
Proof. reflexivity. Qed.

Lemma ec_release_never_throws (c : Channel) : fst (release c) = Returned.
Proof. unfold release. destruct (released c); reflexivity. Qed.

Lemma ec_release_idempotent (c : Channel) :
  release (snd (release c)) = (Returned, snd (release c)).
Proof. unfold release. destruct (released c) eqn:E; cbn; rewrite ?E; reflexivity. Qed.

End EmulatedFacts.

(** ** Replaying a scripted buffer *)



(** ** More on the speech segmenter *)

Section VADMore.

Import VAD VADSpec.

Ltac vad_fields :=
  cbn [set_vad set_audioBuffer set_silenceStartTime
       set_recordingStartTime set_hasDetectedSpeech set_speechStartTime
       set_isReleased set_isInitialized set_lastProbability set_lastIsSpeech
       cfg vad audioBuffer silenceStartTime recordingStartTime
       hasDetectedSpeech speechStartTime isReleased isInitialized
       lastProbability lastIsSpeech].

(** *** The silence timer *)

(** The engine's callbacks clear the silence timer or leave it alone. *)
Lemma processAudio_silence (evs : list EngineEvent) (d : Detector) :
  silenceStartTime (processAudio d evs) = None \/
  silenceStartTime (processAudio d evs) = silenceStartTime d.
Proof.
  induction evs as [|ev evs IH] using rev_ind.
  - right. reflexivity.
  - rewrite processAudio_snoc.
    destruct ev; cbn [onEvent]; vad_fields;
      first [left; reflexivity | exact IH].
Qed.

Lemma entered_silence (d : Detector) (now : Z) (frame : list Z)
    (evs : list EngineEvent) :
  silenceStartTime (entered d now frame evs) = None \/
  silenceStartTime (entered d now frame evs) = silenceStartTime d.
Proof.
  unfold entered. cbv zeta.
  match goal with |- context [processAudio ?x evs] =>
    destruct (processAudio_silence evs x) as [H|H]; rewrite H end.
  - left. reflexivity.
  - right. destruct (recordingStartTime d); reflexivity.
Qed.

(** Where the silence timer of a result comes from: a timer that runs
    after "continue" was started by this frame or ran before, and the frame
    was not speech; an "end" has measured more than the silence duration
    on such a timer. *)
Lemma afterAudio_silence (e : Detector) (now : Z) (r : VADResult)
    (d' : Detector) :
  afterAudio e now = (inr r, d') ->
  (status r = Continue ->
   forall s, silenceStartTime d' = Some s ->
             isSpeech r = false /\ (s = now \/ silenceStartTime e = Some s)) /\
  (status r = End ->
   isSpeech r = false /\
   exists s, (s = now \/ silenceStartTime e = Some s) /\
             Zabove (now - s) (silenceDuration (cfg e))).
Proof.
  destruct e as [c v ab sil rec hs sp rel ini lp ls].
  unfold afterAudio, reset, getBufferedAudio. vad_fields.
  destruct (gtZ (Finite (now - toNumber rec)) (maxRecordingDuration c))
    eqn:Tmo.
  { destruct rel; intro H; [discriminate H|].
    injection H as <- <-. cbn [status]. split; discriminate. }
  destruct ls.
  { intro H. injection H as <- <-. cbn [status isSpeech]. split.
    - intros _ s Hs. destruct hs; cbn in Hs; discriminate.
    - discriminate. }
  cbn [andb].
  destruct hs; vad_fields; cbn [negb].
  2:{ intro H. injection H as <- <-. cbn [status isSpeech]. vad_fields.
      split; [|discriminate].
      intros _ s Hs. split; [reflexivity|]. right. exact Hs. }
  destruct (ltZ (Finite (if truthy sp then now - toNumber sp else 0))
                (minSpeechDuration c)).
  { intro H. injection H as <- <-. cbn [status isSpeech]. vad_fields.
    split; [|discriminate].
    intros _ s Hs. split; [reflexivity|]. right. exact Hs. }
  destruct sil as [s0|]; vad_fields; cbn [toNumber orDefault].
  - destruct (gtZ (Finite (now - s0)) (silenceDuration c)) eqn:Sil.
    + destruct rel; intro H; [discriminate H|].
      injection H as <- <-. cbn [status isSpeech].
      split; [discriminate|]. intros _.
      split; [reflexivity|]. exists s0.
      split; [right; reflexivity|exact Sil].
    + intro H. injection H as <- <-. cbn [status isSpeech]. vad_fields.
      split; [|discriminate].
      intros _ s Hs. split; [reflexivity|]. right. exact Hs.
  - destruct (gtZ (Finite (now - now)) (silenceDuration c)) eqn:Sil.
    + destruct rel; intro H; [discriminate H|].
      injection H as <- <-. cbn [status isSpeech].
      split; [discriminate|]. intros _.
      split; [reflexivity|]. exists now.
      split; [left; reflexivity|exact Sil].
    + intro H. injection H as <- <-. cbn [status isSpeech]. vad_fields.
      split; [|discriminate].
      intros _ s Hs. injection Hs as <-. split; [reflexivity|].
      left. reflexivity.
Qed.

Lemma processFrame_silence (d : Detector) (now : Z) (frame : list Z)
    (evs : list EngineEvent) (r : VADResult) (d' : Detector) :
  live d ->
  processFrame d now frame evs = (inr r, d') ->
  (status r = Continue ->
   forall s, silenceStartTime d' = Some s ->
             isSpeech r = false /\ (s = now \/ silenceStartTime d = Some s)) /\
  (status r = End ->
   isSpeech r = false /\
   exists s, (s = now \/ silenceStartTime d = Some s) /\
             Zabove (now - s) (silenceDuration (cfg d))).
Proof.
  intros L E. rewrite processFrame_afterAudio in E by exact L.
  destruct (afterAudio_silence _ _ _ _ E) as [A B].
  destruct (entered_frame d now frame evs) as (C & _).
  split.
  - intros Hc s Hs. destruct (A Hc s Hs) as [A1 [A2|A2]].
    + split; [exact A1|]. left. exact A2.
    + split; [exact A1|]. right.
      destruct (entered_silence d now frame evs) as [F|F];
        rewrite F in A2; [discriminate|exact A2].
  - intro He. destruct (B He) as (B1 & s & [B2|B2] & B3); rewrite C in B3.
    + split; [exact B1|]. exists s. split; [left; exact B2|exact B3].
    + split; [exact B1|]. exists s. split; [|exact B3]. right.
      destruct (entered_silence d now frame evs) as [F|F];
        rewrite F in B2; [discriminate|exact B2].
Qed.

Lemma continues_inr (x : VADError + VADResult) :
  continues x -> exists r, x = inr r /\ status r = Continue.
Proof.
  unfold continues, statusOf. destruct x as [e|r]; [discriminate|].
  intro H. injection H as H. exists r. split; [reflexivity|exact H].
Qed.

Lemma run_nil (d : Detector) : run d [] = ([], d).
Proof. reflexivity. Qed.

(** A silence timer that runs at the end of a recording still in progress
    was started by one of its frames, and no frame since then was speech
    (or it ran before the frames, none of which was speech). *)
Lemma silence_origin (ins : list Input) (d : Detector) (s : Z) :
  live d ->
  Forall continues (fst (run d ins)) ->
  silenceStartTime (snd (run d ins)) = Some s ->
  (silenceStartTime d = Some s /\ Forall silentResult (fst (run d ins))) \/
  (exists pre i post,
      ins = pre ++ i :: post /\ now i = s /\
      Forall silentResult (skipn (length pre) (fst (run d ins)))).
Proof.
  revert d. induction ins as [|j rest IH]; intros d L Hc Hs.
  - left. split; [exact Hs|apply Forall_nil].
  - rewrite run_cons in Hc, Hs |- *. cbn [fst snd] in Hc, Hs |- *.
    inversion Hc as [|? ? Hj Hrest]; subst.
    destruct (continue_step d j L Hj) as (L1 & _).
    destruct (continues_inr _ Hj) as (r & Er & Sr).
    destruct (processFrame d (now j) (frame j) (events j)) as [x d1] eqn:E.
    cbn [fst snd] in *. subst x.
    destruct (processFrame_silence d (now j) (frame j) (events j) r d1 L E)
      as [A _].
    destruct (IH d1 L1 Hrest Hs) as [[S1 F1]|(pre & i & post & -> & Hi & F1)].
    + destruct (A Sr s S1) as [Q [T|T]].
      * right. exists [], j, rest. split; [reflexivity|].
        split; [symmetry; exact T|].
        cbn [length skipn]. apply Forall_cons; [exact Q|exact F1].
      * left. split; [exact T|]. apply Forall_cons; [exact Q|exact F1].
    + right. exists (j :: pre), i, post. split; [reflexivity|].
      split; [exact Hi|]. cbn [length skipn]. exact F1.
Qed.

(** *** Properties *)

(** X1. "end" takes elapsed silence.  When a frame of a recording returns
    "end", an earlier frame of the same recording was processed more than
    the silence duration before it, and neither that frame nor any frame
    since was speech.  In particular the first frame of a recording never
    returns "end". *)
Theorem end_needs_elapsed_silence
    (c : Config) (ins : list Input) (last : Input)
    (r : VADResult) (d' : Detector) :
  accepted c ->
  Forall continues (fst (run (pristine c) ins)) ->
  processFrame (snd (run (pristine c) ins))
    (now last) (frame last) (events last) = (inr r, d') ->
  status r = End ->
  isSpeech r = false /\
  exists pre i post,
    ins = pre ++ i :: post /\
    Zabove (now last - now i) (silenceDuration c) /\
    Forall silentResult (skipn (length pre) (fst (run (pristine c) ins))).
Proof.
  intros (_ & _ & Hsil & _) Hc E He.
  destruct (continue_run ins (pristine c) (pristine_live c) Hc)
    as (L & Hcfg & _).
  destruct (processFrame_silence _ _ _ _ r d' L E) as [_ B].
  destruct (B He) as (Q & s & Hs & Hd). rewrite Hcfg in Hd.
  cbn [cfg pristine] in Hd.
  split; [exact Q|].
  destruct Hs as [->|Hs].
  { unfold Zabove in Hd.
    rewrite (accepted_duration_covers _ _ Hsil) in Hd by lia.
    discriminate Hd. }
  destruct (silence_origin ins (pristine c) s (pristine_live c) Hc Hs)
    as [[S1 _]|(pre & i & post & Hins & Hi & F)].
  - discriminate S1.
  - exists pre, i, post. split; [exact Hins|].
    split; [rewrite Hi; exact Hd|exact F].
Qed.

Lemma end_needs_elapsed_silence_witness :
  exists pre i post,
    onsetRun ++ [mkInput 1300 silentFrame [FrameProcessed (4 # 10)]]
    = pre ++ i :: post /\
    Zabove (2100 - now i) (silenceDuration defaultConfig).
Proof.
  assert (H1 : accepted defaultConfig) by exact defaultConfig_accepted.
  assert (H2 : Forall continues
                 (fst (run (pristine defaultConfig)
                         (onsetRun
                          ++ [mkInput 1300 silentFrame
                                [FrameProcessed (4 # 10)]])))).
  { vm_compute. apply Forall_cons; [reflexivity|].
    apply Forall_cons; [reflexivity|]. apply Forall_nil. }
  assert (H3 : processFrame
                 (snd (run (pristine defaultConfig)
                         (onsetRun
                          ++ [mkInput 1300 silentFrame
                                [FrameProcessed (4 # 10)]])))
                 (now (mkInput 2100 silentFrame [FrameProcessed (4 # 10)]))
                 (frame (mkInput 2100 silentFrame [FrameProcessed (4 # 10)]))
                 (events (mkInput 2100 silentFrame [FrameProcessed (4 # 10)]))
               = (inr (mkResult End (4 # 10) false
                         (Some (repeat 0 (3 * VAD_FRAME_SAMPLES)))),
                  pristine defaultConfig))
    by (vm_compute; reflexivity).
  pose proof (end_needs_elapsed_silence defaultConfig
              (onsetRun ++ [mkInput 1300 silentFrame [FrameProcessed (4 # 10)]])
              (mkInput 2100 silentFrame [FrameProcessed (4 # 10)])
              (mkResult End (4 # 10) false
                 (Some (repeat 0 (3 * VAD_FRAME_SAMPLES))))
              (pristine defaultConfig) H1 H2 H3 eq_refl)
    as (_ & pre & i & post & E & D & _).
  exists pre, i, post. split; [exact E|exact D].
Defined.

(** X2.  A result carries audio exactly when it closes the recording: every
    "continue" comes without audio, and the frame that returns "end" or
    "timeout" comes with all frames of the recording, this one included, end
    to end, and leaves the detector as [create] made it. *)
Theorem result_audio_is_whole_recording
    (c : Config) (ins : list Input) (last : Input)
    (r : VADResult) (d' : Detector) :
  Forall continues (fst (run (pristine c) ins)) ->
  processFrame (snd (run (pristine c) ins))
    (now last) (frame last) (events last) = (inr r, d') ->
  (status r = Continue -> audio r = None) /\
  (status r <> Continue ->
   audio r = Some (concat (map frame (ins ++ [last]))) /\ d' = pristine c).
Proof.
  intros Hc E.
  destruct (continue_run ins (pristine c) (pristine_live c) Hc)
    as (L & Hcfg & _ & Hbuf).
  cbn [audioBuffer pristine app] in Hbuf.
  destruct (processFrame_cases _ (now last) (frame last) (events last) L)
    as (r0 & d0 & E0 & _ & _ & C).
  rewrite E in E0. injection E0 as <- <-.
  rewrite Hbuf, Hcfg in C. cbn [cfg pristine] in C. rewrite map_app.
  cbn [map].
  destruct C as [(S & _ & A & D)|[(S & _ & _ & _ & A & D)|(S & _ & A & _)]].
  - split; [rewrite S; discriminate|]. intros _. split; assumption.
  - split; [rewrite S; discriminate|]. intros _. split; assumption.
  - split; [intros _; exact A|]. intro N. contradiction.
Qed.

Lemma result_audio_is_whole_recording_witness :
  audio (mkResult End (4 # 10) false (Some (repeat 0 (3 * VAD_FRAME_SAMPLES))))
  = Some (concat (map frame
                    ((onsetRun
                      ++ [mkInput 1300 silentFrame [FrameProcessed (4 # 10)]])
                     ++ [mkInput 2100 silentFrame [FrameProcessed (4 # 10)]]))).
Proof.
  assert (H2 : Forall continues
                 (fst (run (pristine defaultConfig)
                         (onsetRun
                          ++ [mkInput 1300 silentFrame
                                [FrameProcessed (4 # 10)]])))).
  { vm_compute. apply Forall_cons; [reflexivity|].
    apply Forall_cons; [reflexivity|]. apply Forall_nil. }
  assert (H3 : processFrame
                 (snd (run (pristine defaultConfig)
                         (onsetRun
                          ++ [mkInput 1300 silentFrame
                                [FrameProcessed (4 # 10)]])))
                 (now (mkInput 2100 silentFrame [FrameProcessed (4 # 10)]))
                 (frame (mkInput 2100 silentFrame [FrameProcessed (4 # 10)]))
                 (events (mkInput 2100 silentFrame [FrameProcessed (4 # 10)]))
               = (inr (mkResult End (4 # 10) false
                         (Some (repeat 0 (3 * VAD_FRAME_SAMPLES)))),
                  pristine defaultConfig))
    by (vm_compute; reflexivity).
  pose proof (result_audio_is_whole_recording defaultConfig
                (onsetRun ++ [mkInput 1300 silentFrame [FrameProcessed (4 # 10)]])
                (mkInput 2100 silentFrame [FrameProcessed (4 # 10)])
                (mkResult End (4 # 10) false
                   (Some (repeat 0 (3 * VAD_FRAME_SAMPLES))))
                (pristine defaultConfig) H2 H3) as [_ X].
  assert (N : status (mkResult End (4 # 10) false
                        (Some (repeat 0 (3 * VAD_FRAME_SAMPLES)))) <> Continue)
    by discriminate.
  exact (proj1 (X N)).
Defined.

(** X3.  The first frame of a recording always returns "continue", whatever
    the engine reports for it: a detector fresh from [create], or back from
    [reset], "end" or "timeout", takes the frame as the start of a recording
    and buffers it. *)
Theorem first_frame_continues (c : Config) (now : Z) (frame : list Z)
    (evs : list EngineEvent) :
  accepted c ->
  exists r d',
    processFrame (pristine c) now frame evs = (inr r, d') /\
    status r = Continue /\ audio r = None /\
    audioBuffer d' = [frame] /\ recordingStartTime d' = Some now /\
    getRecordingDuration d' now = 0.
Proof.
  intros (_ & _ & Hsil & Hmax).
  destruct (processFrame_cases (pristine c) now frame evs (pristine_live c))
    as (r & d' & E & _ & _ & C).
  exists r, d'. split; [exact E|].
  cbn [cfg pristine audioBuffer app startOf recordingStartTime] in C.
  destruct C as [(S & T & _)|[(S & _)|(S & _ & A & _ & _ & R & B)]].
  - unfold Zabove in T.
    rewrite (accepted_duration_covers _ _ Hmax) in T by lia.
    discriminate T.
  - destruct (processFrame_silence _ _ _ _ r d' (pristine_live c) E)
      as [_ B].
    destruct (B S) as (_ & s & [->|Hs] & D).
    + cbn [cfg pristine] in D. unfold Zabove in D.
      rewrite (accepted_duration_covers _ _ Hsil) in D by lia.
      discriminate D.
    + discriminate Hs.
  - split; [exact S|]. split; [exact A|]. split; [exact B|].
    split; [exact R|]. unfold getRecordingDuration. rewrite R. lia.
Qed.

Lemma first_frame_continues_witness :
  accepted defaultConfig /\
  exists r d',
    processFrame (pristine defaultConfig) 1000 silentFrame
      [SpeechStart 1000; FrameProcessed (1 # 10); SpeechEnd]
    = (inr r, d') /\
    status r = Continue /\ audio r = None.
Proof.
  split; [exact defaultConfig_accepted|].
  destruct (first_frame_continues defaultConfig 1000 silentFrame
              [SpeechStart 1000; FrameProcessed (1 # 10); SpeechEnd]
              defaultConfig_accepted)
    as (r & d' & E & S & A & _).
  exists r, d'. split; [exact E|]. split; [exact S|exact A].
Defined.

(** *** The speech flag of a result *)

Lemma onEvent_coherent (d : Detector) (ev : EngineEvent) :
  coherent d -> coherent (onEvent d ev).
Proof.
  unfold coherent. intro H. destruct ev; cbn [onEvent]; vad_fields;
    first [reflexivity | exact H].
Qed.

Lemma processAudio_coherent (evs : list EngineEvent) (d : Detector) :
  coherent d -> coherent (processAudio d evs).
Proof.
  unfold processAudio. revert d.
  induction evs as [|ev evs IH]; intros d H; cbn [fold_left];
    [exact H|].
  apply IH, onEvent_coherent, H.
Qed.

Lemma entered_coherent (d : Detector) (now : Z) (frame : list Z)
    (evs : list EngineEvent) :
  coherent d -> coherent (entered d now frame evs).
Proof.
  intro H. unfold entered. cbv zeta. apply processAudio_coherent.
  unfold coherent in *. destruct (recordingStartTime d); vad_fields; exact H.
Qed.

Lemma afterAudio_coherent (e : Detector) (now : Z) :
  gtQ (Finite 0%Q) (speechThreshold (cfg e)) = false -> coherent e ->
  coherent (snd (afterAudio e now)).
Proof.
  intros Hthr H. unfold coherent in *.
  assert (Z0 : false = gtQ (Finite 0%Q) (speechThreshold (cfg e)))
    by (symmetry; exact Hthr).
  destruct e as [c v ab sil rec hs sp rel ini lp ls].
  cbn [cfg lastIsSpeech lastProbability] in *.
  unfold afterAudio, reset, getBufferedAudio. vad_fields.
  destruct (gtZ (Finite (now - toNumber rec)) (maxRecordingDuration c)).
  { destruct rel; cbn [snd]; vad_fields; assumption. }
  destruct ls.
  { cbn [snd]. destruct hs; cbn [andb negb]; vad_fields; exact H. }
  cbn [andb].
  destruct hs; vad_fields; cbn [negb]; [|exact H].
  destruct (ltZ (Finite (if truthy sp then now - toNumber sp else 0))
                (minSpeechDuration c)); [exact H|].
  destruct sil as [s|]; vad_fields;
    match goal with
    | |- context [if gtZ ?a ?b then _ else _] => destruct (gtZ a b)
    end;
    try (destruct rel); cbn [snd]; vad_fields; assumption.
Qed.

(** X4.  In every result of a detector made by [create], from the first
    frame on, the speech flag says whether the probability the result
    carries lies above the onset threshold. *)
Theorem isSpeech_matches_probability (c : Config) (ins : list Input) :
  accepted c ->
  Forall (flagged c) (fst (run (pristine c) ins)).
Proof.
  intros (Hthr & _). apply accepted_threshold_covers in Hthr.
  assert (G : forall (l : list Input) (d : Detector),
             live d -> cfg d = c -> coherent d ->
             Forall (flagged c) (fst (run d l))).
  { induction l as [|i rest IH]; intros d L Hc Hco.
    - apply Forall_nil.
    - rewrite run_cons. cbn [fst].
      pose proof (processFrame_afterAudio d (now i) (frame i) (events i) L)
        as PA.
      destruct (entered_frame d (now i) (frame i) (events i))
        as (E1 & _ & _ & _ & E5 & _).
      pose proof (entered_coherent d (now i) (frame i) (events i) Hco) as Ce.
      destruct (processFrame_cases d (now i) (frame i) (events i) L)
        as (r & d' & E & P1 & P2 & C).
      assert (Cd : coherent d').
      { replace d' with (snd (afterAudio (entered d (now i) (frame i)
                                            (events i)) (now i)))
          by (rewrite <- PA, E; reflexivity).
        apply afterAudio_coherent; [rewrite E1, Hc; exact Hthr|exact Ce]. }
      rewrite E. cbn [fst snd]. apply Forall_cons.
      + cbn [flagged]. rewrite P1, P2. unfold coherent in Ce.
        rewrite Ce, E1, Hc. reflexivity.
      + destruct C as [(_ & _ & _ & D)|[(_ & _ & _ & _ & _ & D)
                                       |(_ & _ & _ & L' & Hc' & _)]].
        * subst d'. apply IH; [apply pristine_live|cbn; exact Hc|exact Cd].
        * subst d'. apply IH; [apply pristine_live|cbn; exact Hc|exact Cd].
        * apply IH; [exact L'|rewrite Hc'; exact Hc|exact Cd]. }
  apply G; [apply pristine_live|reflexivity|].
  unfold coherent. cbn [pristine lastIsSpeech lastProbability cfg].
  symmetry. exact Hthr.
Qed.

Lemma isSpeech_matches_probability_witness :
  accepted defaultConfig /\
  Forall (flagged defaultConfig) (fst (run (pristine defaultConfig) slowRun)).
Proof.
  split; [exact defaultConfig_accepted|].
  exact (isSpeech_matches_probability defaultConfig slowRun
           defaultConfig_accepted).
Defined.

(** X5.  The segmenter never reads its offset (silence) threshold: two
    detectors that differ in it alone return the same results for the same
    frames, clock readings and engine callbacks. *)
Theorem run_ignores_silenceThreshold (s : number Q) (d : Detector)
    (ins : list Input) :
  fst (run (withSilenceThreshold s d) ins) = fst (run d ins) /\
  snd (run (withSilenceThreshold s d) ins)
  = withSilenceThreshold s (snd (run d ins)).
Proof.
  revert d. induction ins as [|i rest IH]; intro d.
  - split; reflexivity.
  - rewrite !run_cons. cbn [fst snd].
    rewrite processFrame_ignores_silenceThreshold. cbn [fst snd].
    destruct (IH (snd (processFrame d (now i) (frame i) (events i))))
      as [A B].
    rewrite A, B. split; reflexivity.
Qed.

(** X6.  A released detector turns every call down and keeps its state:
    [processFrame], [reset] and [getFrameLength] throw "VAD has been
    released".  [release] has dropped the buffered audio and the engine; it
    has not cleared the speech flag, which [hasSpeech] still reports. *)
Theorem released_detector_refuses (d : Detector) (pause : Outcome string)
    (now : Z) (frame : list Z) (evs : list EngineEvent) :
  isReleased d = false ->
  let d' := snd (release d pause) in
  fst (release d pause) = Returned /\
  isReleased d' = true /\ audioBuffer d' = [] /\ vad d' = None /\
  hasSpeech d' = hasSpeech d /\
  processFrame d' now frame evs
  = (inl (mkVADError "VAD has been released"), d') /\
  reset d' = (Threw (mkVADError "VAD has been released"), d') /\
  getFrameLength d' = inl (mkVADError "VAD has been released").
Proof.
  intro Hrel. cbv zeta. unfold release. rewrite Hrel. cbn [negb fst snd].
  unfold processFrame, reset, getFrameLength, hasSpeech. vad_fields.
  destruct (vad d) eqn:V; destruct pause; vad_fields; rewrite ?V;
    repeat split; reflexivity.
Qed.

Lemma released_detector_refuses_witness :
  isReleased (pristine defaultConfig) = false /\
  processFrame (snd (release (pristine defaultConfig) Returned)) 1000
    silentFrame [FrameProcessed (1 # 10)]
  = (inl (mkVADError "VAD has been released"),
     snd (release (pristine defaultConfig) Returned)).
Proof.
  assert (H : isReleased (pristine defaultConfig) = false) by reflexivity.
  split; [exact H|].
  exact (proj1 (proj2 (proj2 (proj2 (proj2 (proj2
           (released_detector_refuses (pristine defaultConfig) Returned 1000
              silentFrame [FrameProcessed (1 # 10)] H))))))).
Defined.

(** X7.  [create] returns a detector exactly when each of the two
    thresholds lies in [0, 1] or is NaN, each of silence duration and
    maximum recording duration is not negative (infinity included) or is
    NaN, and the engine loads; the detector then holds the configuration
    read off the options, NaN included, live and with empty state.  The
    minimum speech duration and the input sample rate are not checked. *)
Theorem create_succeeds_iff_accepted
    (o : VoiceActivityDetectorOptions) (load : EngineLoad) (d : Detector) :
  create o load = inr d <->
  (speechThreshold (configOf o) = NaN
   \/ unitInterval (speechThreshold (configOf o))) /\
  (silenceThreshold (configOf o) = NaN
   \/ unitInterval (silenceThreshold (configOf o))) /\
  (silenceDuration (configOf o) = NaN
   \/ nonNegative (silenceDuration (configOf o))) /\
  (maxRecordingDuration (configOf o) = NaN
   \/ nonNegative (maxRecordingDuration (configOf o))) /\
  load = EngineLoaded /\ d = pristine (configOf o).
Proof.
  destruct load as [|m].
  - rewrite create_inr. unfold accepted. split.
    + intros ((A & B & C & D) & E). repeat split; tauto.
    + intros (A & B & C & D & _ & E). repeat split; tauto.
  - split.
    + unfold create, initialize. destruct (construct o); discriminate.
    + intros (_ & _ & _ & _ & E & _). discriminate E.
Qed.

End VADMore.

(** ** The standalone end-of-speech detector *)

Section EOSFacts.

Import VAD VADSpec EOSSpec.

Ltac vad_fields :=
  cbn [set_vad set_audioBuffer set_silenceStartTime
       set_recordingStartTime set_hasDetectedSpeech set_speechStartTime
       set_isReleased set_isInitialized set_lastProbability set_lastIsSpeech
       cfg vad audioBuffer silenceStartTime recordingStartTime
       hasDetectedSpeech speechStartTime isReleased isInitialized
       lastProbability lastIsSpeech].

Ltac eos_fields :=
  cbn [EOS.set_silenceStartTime EOS.set_recordingStartTime
       EOS.set_hasDetectedSpeech
       EOS.speechThreshold EOS.silenceDuration EOS.maxDuration
       EOS.silenceStartTime EOS.recordingStartTime EOS.hasDetectedSpeech].

Ltac all_fields :=
  cbn [set_vad set_audioBuffer set_silenceStartTime
       set_recordingStartTime set_hasDetectedSpeech set_speechStartTime
       set_isReleased set_isInitialized set_lastProbability set_lastIsSpeech
       cfg vad audioBuffer silenceStartTime recordingStartTime
       hasDetectedSpeech speechStartTime isReleased isInitialized
       lastProbability lastIsSpeech
       speechThreshold silenceDuration maxRecordingDuration minSpeechDuration
       EOS.set_silenceStartTime EOS.set_recordingStartTime
       EOS.set_hasDetectedSpeech
       EOS.speechThreshold EOS.silenceDuration EOS.maxDuration
       EOS.silenceStartTime EOS.recordingStartTime EOS.hasDetectedSpeech
       toNumber orDefault].

Lemma eos_run_cons (d : EOS.Detector) (x : Z * Q) (rest : list (Z * Q)) :
  EOS.run d (x :: rest)
  = (fst (EOS.processFrame d (fst x) (snd x))
       :: fst (EOS.run (snd (EOS.processFrame d (fst x) (snd x))) rest),
     snd (EOS.run (snd (EOS.processFrame d (fst x) (snd x))) rest)).
Proof.
  destruct x as [t p]. cbn [EOS.run fst snd].
  destruct (EOS.processFrame d t p) as [s d']. cbn [fst snd].
  destruct (EOS.run d' rest) as [ss d'']. reflexivity.
Qed.

(** X8.  Silence before speech is not the end of speech, for the standalone
    detector as well: as long as no probability has been above the threshold
    since construction or [reset], no call returns "end", and the silence
    timer is not started. *)
Theorem eos_silence_before_speech (d : EOS.Detector) (ins : list (Z * Q)) :
  EOS.hasDetectedSpeech d = false ->
  Forall (fun x => ~ Qabove (snd x) (EOS.speechThreshold d)) ins ->
  Forall (fun s => s <> End) (fst (EOS.run d ins)) /\
  EOS.hasDetectedSpeech (snd (EOS.run d ins)) = false /\
  EOS.silenceStartTime (snd (EOS.run d ins)) = EOS.silenceStartTime d.
Proof.
  revert d. induction ins as [|x rest IH]; intros d Hs Hq.
  - split; [apply Forall_nil|]. split; [exact Hs|reflexivity].
  - inversion Hq as [|? ? Hx Hrest]; subst.
    rewrite eos_run_cons. cbn [fst snd].
    assert (Step : fst (EOS.processFrame d (fst x) (snd x)) <> End /\
                   EOS.hasDetectedSpeech
                     (snd (EOS.processFrame d (fst x) (snd x))) = false /\
                   EOS.silenceStartTime
                     (snd (EOS.processFrame d (fst x) (snd x)))
                   = EOS.silenceStartTime d /\
                   EOS.speechThreshold
                     (snd (EOS.processFrame d (fst x) (snd x)))
                   = EOS.speechThreshold d).
    { apply not_Qabove in Hx.
      destruct d as [thr sil mx ss rs hs]. cbn [EOS.hasDetectedSpeech] in Hs.
      cbn [EOS.speechThreshold] in Hx. subst hs.
      unfold EOS.processFrame. eos_fields.
      destruct rs as [t0|]; eos_fields;
        match goal with
        | |- context [if gtZ ?a ?b then _ else _] => destruct (gtZ a b)
        end;
        rewrite ?Hx; cbn [negb fst snd]; eos_fields;
        repeat split; discriminate. }
    destruct Step as (S1 & S2 & S3 & S4).
    destruct (IH (snd (EOS.processFrame d (fst x) (snd x))) S2) as (A & B & C).
    { rewrite S4. exact Hrest. }
    split; [apply Forall_cons; assumption|].
    split; [exact B|]. rewrite C. exact S3.
Qed.

Lemma eos_silence_before_speech_witness :
  EOS.hasDetectedSpeech (EOS.new None None None) = false /\
  Forall (fun s => s <> End)
         (fst (EOS.run (EOS.new None None None)
                 [(1000, (1 # 10)%Q); (5000, (2 # 10)%Q)])).
Proof.
  assert (H1 : EOS.hasDetectedSpeech (EOS.new None None None) = false)
    by reflexivity.
  assert (H2 : Forall (fun x => ~ Qabove (snd x)
                                         (EOS.speechThreshold
                                            (EOS.new None None None)))
                      [(1000, (1 # 10)%Q); (5000, (2 # 10)%Q)]).
  { apply Forall_cons; [apply not_Qabove; reflexivity|].
    apply Forall_cons; [apply not_Qabove; reflexivity|]. apply Forall_nil. }
  split; [exact H1|].
  exact (proj1 (eos_silence_before_speech (EOS.new None None None)
                  [(1000, (1 # 10)%Q); (5000, (2 # 10)%Q)] H1 H2)).
Defined.

(** X9.  The standalone detector does not reset itself.  After a call has
    returned "end" or "timeout", every later call for a frame that is not
    speech returns "end" or "timeout" again, for as long as the clock does
    not go back; only after [reset()] does a call return "continue" (for a
    maximum duration that no time span of 0 exceeds: one that is not
    negative, or NaN). *)
Theorem eos_verdict_persists (d d' : EOS.Detector) (now now' : Z) (p p' : Q)
    (s : VADStatus) :
  EOS.processFrame d now p = (s, d') ->
  s <> Continue ->
  now <= now' -> ~ Qabove p' (EOS.speechThreshold d) ->
  fst (EOS.processFrame d' now' p') <> Continue /\
  (~ Zabove 0 (EOS.maxDuration d) ->
   fst (EOS.processFrame (EOS.reset d') now' p') = Continue).
Proof.
  intros E Hs Hnow Hq. apply not_Qabove in Hq.
  destruct d as [thr sil mx ss rs hs]. cbn [EOS.speechThreshold] in Hq.
  cbn [EOS.maxDuration].
  assert (R : forall e, EOS.speechThreshold e = thr -> EOS.maxDuration e = mx ->
                        ~ Zabove 0 mx ->
                        fst (EOS.processFrame (EOS.reset e) now' p') = Continue).
  { intros [thr2 sil2 mx2 ss2 rs2 hs2]. cbn [EOS.speechThreshold EOS.maxDuration].
    intros -> -> Hmx. apply not_Zabove in Hmx.
    unfold EOS.processFrame, EOS.reset. eos_fields.
    cbn [toNumber orDefault]. rewrite Z.sub_diag, Hmx, Hq. reflexivity. }
  assert (M : forall a n, gtZ (Finite (now - a)) n = true ->
                          gtZ (Finite (now' - a)) n = true).
  { intros a n H. apply (Zabove_mono (now - a)); [lia|exact H]. }
  unfold EOS.processFrame in E. cbn [EOS.recordingStartTime] in E.
  destruct rs as [t0|]; cbn [EOS.set_recordingStartTime EOS.recordingStartTime
                             EOS.maxDuration EOS.speechThreshold
                             EOS.silenceDuration EOS.silenceStartTime
                             EOS.hasDetectedSpeech toNumber orDefault] in E.
  - destruct (gtZ (Finite (now - t0)) mx) eqn:T.
    + injection E as <- <-. split; [|apply R; reflexivity].
      unfold EOS.processFrame. eos_fields. cbn [toNumber orDefault].
      rewrite (M _ _ T). cbn. discriminate.
    + destruct (gtQ (Finite p) thr); [injection E as <- <-; contradiction|].
      destruct hs; cbn [negb] in E; [|injection E as <- <-; contradiction].
      destruct ss as [s0|];
        cbn [EOS.set_silenceStartTime EOS.silenceStartTime
             EOS.silenceDuration toNumber orDefault] in E.
      * destruct (gtZ (Finite (now - s0)) sil) eqn:S;
          [|injection E as <- <-; contradiction].
        injection E as <- <-. split; [|apply R; reflexivity].
        unfold EOS.processFrame. eos_fields. cbn [toNumber orDefault].
        destruct (gtZ (Finite (now' - t0)) mx); [cbn; discriminate|].
        rewrite Hq. cbn [negb]. rewrite (M _ _ S). cbn. discriminate.
      * destruct (gtZ (Finite (now - now)) sil) eqn:S;
          [|injection E as <- <-; contradiction].
        injection E as <- <-. split; [|apply R; reflexivity].
        unfold EOS.processFrame. eos_fields. cbn [toNumber orDefault].
        destruct (gtZ (Finite (now' - t0)) mx); [cbn; discriminate|].
        rewrite Hq. cbn [negb]. rewrite (M _ _ S). cbn. discriminate.
  - destruct (gtZ (Finite (now - now)) mx) eqn:T.
    + injection E as <- <-. split; [|apply R; reflexivity].
      unfold EOS.processFrame. eos_fields. cbn [toNumber orDefault].
      rewrite (M _ _ T). cbn. discriminate.
    + destruct (gtQ (Finite p) thr); [injection E as <- <-; contradiction|].
      destruct hs; cbn [negb] in E; [|injection E as <- <-; contradiction].
      destruct ss as [s0|];
        cbn [EOS.set_silenceStartTime EOS.silenceStartTime
             EOS.silenceDuration toNumber orDefault] in E.
      * destruct (gtZ (Finite (now - s0)) sil) eqn:S;
          [|injection E as <- <-; contradiction].
        injection E as <- <-. split; [|apply R; reflexivity].
        unfold EOS.processFrame. eos_fields. cbn [toNumber orDefault].
        destruct (gtZ (Finite (now' - now)) mx); [cbn; discriminate|].
        rewrite Hq. cbn [negb]. rewrite (M _ _ S). cbn. discriminate.
      * destruct (gtZ (Finite (now - now)) sil) eqn:S;
          [|injection E as <- <-; contradiction].
        injection E as <- <-. split; [|apply R; reflexivity].
        unfold EOS.processFrame. eos_fields. cbn [toNumber orDefault].
        destruct (gtZ (Finite (now' - now)) mx); [cbn; discriminate|].
        rewrite Hq. cbn [negb]. rewrite (M _ _ S). cbn. discriminate.
Qed.

Lemma eos_verdict_persists_witness :
  EOS.processFrame recording 31001 (1 # 10) = (Timeout, recording) /\
  fst (EOS.processFrame recording 31097 (1 # 10)) <> Continue.
Proof.
  assert (H1 : EOS.processFrame recording 31001 (1 # 10)
               = (Timeout, recording)) by reflexivity.
  assert (H2 : Timeout <> Continue) by discriminate.
  assert (H3 : 31001 <= 31097) by lia.
  assert (H4 : ~ Qabove (1 # 10) (EOS.speechThreshold recording))
    by (apply not_Qabove; reflexivity).
  split; [exact H1|].
  exact (proj1 (eos_verdict_persists recording recording 31001 31097
                  (1 # 10) (1 # 10) Timeout H1 H2 H3 H4)).
Defined.

(** *** The standalone detector and the segmenter *)

Lemma untilVerdict_cons (s : option VADStatus) (ss : list (option VADStatus)) :
  untilVerdict (s :: ss)
  = match s with
    | Some Continue => s :: untilVerdict ss
    | _ => [s]
    end.
Proof. destruct s as [[| |]|]; reflexivity. Qed.

(** One frame through both: the same status, and after "continue" the
    same state. *)
Lemma mirrors_step (t : Z) (d : Detector) (e : EOS.Detector)
    (x : (Z * Q) * list Z) :
  mirrors t d e -> ~ Zbelow 0 (minSpeechDuration (cfg d)) ->
  t <= fst (fst x) ->
  let i := rated x in
  exists r d',
    processFrame d (now i) (frame i) (events i) = (inr r, d') /\
    status r = fst (EOS.processFrame e (fst (fst x)) (snd (fst x))) /\
    cfg d' = cfg d /\
    (status r = Continue ->
     mirrors (fst (fst x)) d'
       (snd (EOS.processFrame e (fst (fst x)) (snd (fst x))))).
Proof.
  intros (L & M1 & M2 & M3 & M4 & M5 & M6 & M7) Hmin Ht. cbv zeta.
  destruct x as [[tn p] fr]. cbn [fst snd rated now frame events] in *.
  rewrite processFrame_afterAudio by exact L.
  destruct L as (L1 & L2 & L3).
  destruct d as [c v ab sil rec hs sp rel ini lp ls].
  destruct e as [thr esil emx ess ers ehs].
  destruct c as [cthr csth csil cmax cmin crate].
  cbn [cfg isReleased isInitialized vad recordingStartTime silenceStartTime
       hasDetectedSpeech speechStartTime
       speechThreshold silenceDuration maxRecordingDuration minSpeechDuration
       EOS.speechThreshold EOS.silenceDuration EOS.maxDuration
       EOS.recordingStartTime EOS.silenceStartTime EOS.hasDetectedSpeech]
    in *.
  subst rel ini v ers ess ehs thr esil emx.
  assert (Hdur : ltZ (Finite (if truthy sp then tn - toNumber sp else 0)) cmin
                 = false).
  { apply not_Zbelow. intro B. apply Hmin. revert B. apply Zbelow_anti.
    destruct sp as [s|]; cbn [truthy toNumber orDefault]; [|lia].
    specialize (M7 s eq_refl). destruct (s =? 0); cbn [negb]; lia. }
  unfold entered, afterAudio, EOS.processFrame, reset, getBufferedAudio,
    processAudio, mirrors, live.
  cbn [fold_left onEvent]. all_fields.
  destruct rec as [t0|]; all_fields.
  - destruct (gtZ (Finite (tn - t0)) cmax) eqn:Tmo.
    { eexists _, _. split; [reflexivity|]. cbn [status fst snd]. all_fields.
      split; [reflexivity|]. split; [reflexivity|]. discriminate. }
    destruct (gtQ (Finite p) cthr) eqn:Sp; cbn [andb negb].
    { destruct hs; cbn [negb]; all_fields;
        eexists _, _; (split; [reflexivity|]); cbn [status fst snd];
        all_fields; (split; [reflexivity|]); (split; [reflexivity|]);
        intros _; repeat split; intros s Hs;
        first [injection Hs as <-; lia | specialize (M7 s Hs); lia]. }
    destruct hs; cbn [negb]; all_fields.
    2:{ eexists _, _. split; [reflexivity|]. cbn [status fst snd].
        all_fields. split; [reflexivity|]. split; [reflexivity|].
        intros _. repeat split. intros s Hs. specialize (M7 s Hs). lia. }
    rewrite Hdur.
    destruct sil as [s0|]; all_fields.
    + destruct (gtZ (Finite (tn - s0)) csil);
        eexists _, _; (split; [reflexivity|]); cbn [status fst snd];
        all_fields; (split; [reflexivity|]); (split; [reflexivity|]);
        first [ discriminate
              | intros _; repeat split;
                intros s Hs; specialize (M7 s Hs); lia ].
    + destruct (gtZ (Finite (tn - tn)) csil);
        eexists _, _; (split; [reflexivity|]); cbn [status fst snd];
        all_fields; (split; [reflexivity|]); (split; [reflexivity|]);
        first [ discriminate
              | intros _; repeat split;
                intros s Hs; specialize (M7 s Hs); lia ].
  - destruct (gtZ (Finite (tn - tn)) cmax) eqn:Tmo.
    { eexists _, _. split; [reflexivity|]. cbn [status fst snd]. all_fields.
      split; [reflexivity|]. split; [reflexivity|]. discriminate. }
    destruct (gtQ (Finite p) cthr) eqn:Sp; cbn [andb negb].
    { destruct hs; cbn [negb]; all_fields;
        eexists _, _; (split; [reflexivity|]); cbn [status fst snd];
        all_fields; (split; [reflexivity|]); (split; [reflexivity|]);
        intros _; repeat split; intros s Hs;
        first [injection Hs as <-; lia | specialize (M7 s Hs); lia]. }
    destruct hs; cbn [negb]; all_fields.
    2:{ eexists _, _. split; [reflexivity|]. cbn [status fst snd].
        all_fields. split; [reflexivity|]. split; [reflexivity|].
        intros _. repeat split. intros s Hs. specialize (M7 s Hs). lia. }
    rewrite Hdur.
    destruct sil as [s0|]; all_fields.
    + destruct (gtZ (Finite (tn - s0)) csil);
        eexists _, _; (split; [reflexivity|]); cbn [status fst snd];
        all_fields; (split; [reflexivity|]); (split; [reflexivity|]);
        first [ discriminate
              | intros _; repeat split;
                intros s Hs; specialize (M7 s Hs); lia ].
    + destruct (gtZ (Finite (tn - tn)) csil);
        eexists _, _; (split; [reflexivity|]); cbn [status fst snd];
        all_fields; (split; [reflexivity|]); (split; [reflexivity|]);
        first [ discriminate
              | intros _; repeat split;
                intros s Hs; specialize (M7 s Hs); lia ].
Qed.

Lemma mirrors_run (ins : list ((Z * Q) * list Z)) (t : Z) (d : Detector)
    (e : EOS.Detector) :
  mirrors t d e -> ~ Zbelow 0 (minSpeechDuration (cfg d)) ->
  notBefore t (map (fun x => fst (fst x)) ins) ->
  untilVerdict (map statusOf (fst (run d (map rated ins))))
  = untilVerdict (map Some (fst (EOS.run e (map fst ins)))).
Proof.
  revert t d e. induction ins as [|x rest IH]; intros t d e M Hmin Hasc.
  - reflexivity.
  - cbn [map notBefore] in Hasc. destruct Hasc as [Ht Hrest].
    destruct (mirrors_step t d e x M Hmin Ht) as (r & d' & E & S & C & N).
    cbv zeta in E. cbn [map]. rewrite run_cons, eos_run_cons.
    rewrite E. cbn [fst snd map statusOf]. rewrite !untilVerdict_cons, <- S.
    destruct (status r) eqn:St; try reflexivity.
    f_equal. apply (IH (fst (fst x))); [apply N; reflexivity| |exact Hrest].
    rewrite C. exact Hmin.
Qed.

(** X10.  The standalone detector is the segmenter's decision without the
    minimum speech duration.  For a segmenter made with a minimum speech
    duration that 0 is not below (0 or less, or NaN) whose engine reports
    one probability per frame and nothing else, and a standalone detector
    made with the same threshold and durations, fed the same probabilities
    at the same clock readings (a clock that does not go back): the
    statuses agree up to and including the first "end" or "timeout"; after
    it the two differ, the segmenter having reset itself. *)
Theorem standalone_agrees_with_segmenter
    (c : Config) (ins : list ((Z * Q) * list Z)) :
  ~ Zbelow 0 (minSpeechDuration c) ->
  ascending (map (fun x => fst (fst x)) ins) ->
  untilVerdict (map statusOf (fst (run (pristine c) (map rated ins))))
  = untilVerdict (map Some (fst (EOS.run (standalone c) (map fst ins)))).
Proof.
  intros Hmin Hasc. destruct ins as [|x rest]; [reflexivity|].
  apply (mirrors_run (x :: rest) (fst (fst x))).
  - unfold mirrors, standalone, EOS.new. cbn.
    repeat split. discriminate.
  - exact Hmin.
  - cbn [map notBefore ascending] in *. split; [lia|exact Hasc].
Qed.

Lemma standalone_agrees_with_segmenter_witness :
  ~ Zbelow 0 (minSpeechDuration promptConfig) /\
  ascending (map (fun x => fst (fst x)) utterance) /\
  untilVerdict
    (map statusOf (fst (run (pristine promptConfig) (map rated utterance))))
  = [Some Continue; Some Continue; Some End] /\
  untilVerdict
    (map Some (fst (EOS.run (standalone promptConfig) (map fst utterance))))
  = [Some Continue; Some Continue; Some End].
Proof.
  assert (H1 : ~ Zbelow 0 (minSpeechDuration promptConfig))
    by (apply not_Zbelow; reflexivity).
  assert (H2 : ascending (map (fun x => fst (fst x)) utterance))
    by (cbn; lia).
  assert (H3 : untilVerdict
                 (map Some (fst (EOS.run (standalone promptConfig)
                                   (map fst utterance))))
               = [Some Continue; Some Continue; Some End])
    by (vm_compute; reflexivity).
  split; [exact H1|]. split; [exact H2|]. split; [|exact H3].
  rewrite <- H3.
  exact (standalone_agrees_with_segmenter promptConfig utterance H1 H2).
Defined.

End EOSFacts.

(** ** More on the trigger spotter *)

Section WakeWordMore.

Import WakeWord WWSpec.

Local Open Scope nat_scope.

Ltac ww_fields :=
  cbn [set_melSession set_embeddingSession set_wakeWordSession
       set_melBuffer set_embeddingBuffer set_isReleased set_isInitialized
       melSession embeddingSession wakeWordSession melBuffer embeddingBuffer
       sensitivity isReleased isInitialized modelPath wakeWord].

Ltac ww_run := unfold bind, get, ret, modify, lift, throw.

(** *** Creation *)

(** What [create] does, by cases on its environment. *)
Lemma create_cases (env : Env) (options : WakeWordDetectorOptions) :
  sensitivityOf options = NaN \/ unitInterval (sensitivityOf options) ->
  let d0 := mkDetector None None None [] [] (sensitivityOf options)
              false false (modelDir env options) (wakeWordOf options) in
  let checks := [ExistsSync (melFile env options);
                 ExistsSync (embeddingFile env options);
                 ExistsSync (wakeWordFile env options)] in
  create env options
  = if negb (existsSync env (melFile env options)) then
      (inl (notFound "Melspectrogram model" (melFile env options)),
       [ExistsSync (melFile env options)])
    else if negb (existsSync env (embeddingFile env options)) then
      (inl (notFound "Embedding model" (embeddingFile env options)),
       [ExistsSync (melFile env options);
        ExistsSync (embeddingFile env options)])
    else if negb (existsSync env (wakeWordFile env options)) then
      (inl (notFound "Wake word model" (wakeWordFile env options)), checks)
    else
      match createSession env (melFile env options) with
      | inl m =>
          (inl (loadFailed m),
           checks ++ [CreateSession (melFile env options)])
      | inr s1 =>
          match createSession env (embeddingFile env options) with
          | inl m =>
              (inl (loadFailed m),
               checks ++ [CreateSession (melFile env options);
                          CreateSession (embeddingFile env options)])
          | inr s2 =>
              match createSession env (wakeWordFile env options) with
              | inl m =>
                  (inl (loadFailed m),
                   checks ++ [CreateSession (melFile env options);
                              CreateSession (embeddingFile env options);
                              CreateSession (wakeWordFile env options)])
              | inr s3 =>
                  (inr (mkDetector (Some s1) (Some s2) (Some s3) [] []
                          (sensitivityOf options) false true
                          (modelDir env options) (wakeWordOf options)),
                   checks ++ [CreateSession (melFile env options);
                              CreateSession (embeddingFile env options);
                              CreateSession (wakeWordFile env options)])
              end
          end
      end.
Proof.
  intro Hs. apply threshold_check in Hs.
  cbv zeta. unfold create, construct. cbv zeta.
  fold (sensitivityOf options) (modelDir env options) (wakeWordOf options).
  rewrite Hs.
  unfold initialize. cbv zeta. ww_fields.
  fold (melFile env options) (embeddingFile env options)
       (wakeWordFile env options).
  destruct (existsSync env (melFile env options)); cbn [negb];
    [|reflexivity].
  destruct (existsSync env (embeddingFile env options)); cbn [negb];
    [|reflexivity].
  destruct (existsSync env (wakeWordFile env options)); cbn [negb];
    [|reflexivity].
  destruct (createSession env (melFile env options)); [reflexivity|].
  destruct (createSession env (embeddingFile env options)); [reflexivity|].
  destruct (createSession env (wakeWordFile env options)); reflexivity.
Qed.

(** X11.  When one of the three model files is missing, and the sensitivity
    is one the constructor lets through (inside [0, 1], or NaN), [create]
    fails with a model error that names the download command, and no
    inference session is created: the existence checks all come before
    the first load. *)
Theorem missing_model_loads_nothing
    (env : Env) (options : WakeWordDetectorOptions) (file : string) :
  sensitivityOf options = NaN \/ unitInterval (sensitivityOf options) ->
  In file [melFile env options; embeddingFile env options;
           wakeWordFile env options] ->
  existsSync env file = false ->
  exists what path,
    fst (create env options) = inl (notFound what path) /\
    existsSync env path = false /\
    forallb (fun call => negb (isSessionCreation call))
            (snd (create env options)) = true.
Proof.
  intros Hs Hin Hmiss.
  rewrite (create_cases env options Hs). cbv zeta.
  destruct (existsSync env (melFile env options)) eqn:E1; cbn [negb].
  2:{ eexists _, _. split; [reflexivity|]. split; [exact E1|reflexivity]. }
  destruct (existsSync env (embeddingFile env options)) eqn:E2; cbn [negb].
  2:{ eexists _, _. split; [reflexivity|]. split; [exact E2|reflexivity]. }
  destruct (existsSync env (wakeWordFile env options)) eqn:E3; cbn [negb].
  2:{ eexists _, _. split; [reflexivity|]. split; [exact E3|reflexivity]. }
  exfalso. destruct Hin as [<-|[<-|[<-|[]]]]; congruence.
Qed.

Lemma missing_model_loads_nothing_witness :
  exists what path,
    fst (create incompleteEnv noOptions) = inl (notFound what path) /\
    existsSync incompleteEnv path = false /\
    snd (create incompleteEnv noOptions)
    = [ExistsSync "/srv/grimm/models/melspectrogram.onnx";
       ExistsSync "/srv/grimm/models/embedding_model.onnx"].
Proof.
  assert (H1 : sensitivityOf noOptions = NaN
               \/ unitInterval (sensitivityOf noOptions))
    by (apply threshold_check; reflexivity).
  assert (H2 : In (embeddingFile incompleteEnv noOptions)
                  [melFile incompleteEnv noOptions;
                   embeddingFile incompleteEnv noOptions;
                   wakeWordFile incompleteEnv noOptions])
    by (right; left; reflexivity).
  assert (H3 : existsSync incompleteEnv (embeddingFile incompleteEnv noOptions)
               = false) by reflexivity.
  destruct (missing_model_loads_nothing incompleteEnv noOptions
              (embeddingFile incompleteEnv noOptions) H1 H2 H3)
    as (what & path & E & M & _).
  exists what, path. split; [exact E|]. split; [exact M|reflexivity].
Defined.

(** X12.  [create] returns a detector exactly when the sensitivity lies in
    [0, 1] or is NaN, the three model files exist at the paths the
    environment's [path.join] gives for them, and the three sessions load;
    the detector then holds the three sessions, empty windows and the
    values read off the options (a sensitivity of NaN included), and is
    initialised and not released. *)
Theorem create_succeeds_iff (env : Env) (options : WakeWordDetectorOptions)
    (d : Detector) :
  fst (create env options) = inr d <->
  (sensitivityOf options = NaN \/ unitInterval (sensitivityOf options)) /\
  existsSync env (melFile env options) = true /\
  existsSync env (embeddingFile env options) = true /\
  existsSync env (wakeWordFile env options) = true /\
  exists s1 s2 s3,
    createSession env (melFile env options) = inr s1 /\
    createSession env (embeddingFile env options) = inr s2 /\
    createSession env (wakeWordFile env options) = inr s3 /\
    d = mkDetector (Some s1) (Some s2) (Some s3) [] []
          (sensitivityOf options) false true
          (modelDir env options) (wakeWordOf options).
Proof.
  split.
  - intro H.
    assert (Hs : sensitivityOf options = NaN
                 \/ unitInterval (sensitivityOf options)).
    { apply threshold_check.
      unfold create, construct in H. cbv zeta in H.
      fold (sensitivityOf options) in H.
      destruct (ltQ (sensitivityOf options) (Finite 0%Q)
                || gtQ (sensitivityOf options) (Finite 1%Q));
        [discriminate H|reflexivity]. }
    rewrite (create_cases env options Hs) in H. cbv zeta in H.
    destruct (existsSync env (melFile env options)); cbn [negb] in H;
      [|discriminate H].
    destruct (existsSync env (embeddingFile env options)); cbn [negb] in H;
      [|discriminate H].
    destruct (existsSync env (wakeWordFile env options)); cbn [negb] in H;
      [|discriminate H].
    destruct (createSession env (melFile env options)) as [?|s1];
      [discriminate H|].
    destruct (createSession env (embeddingFile env options)) as [?|s2];
      [discriminate H|].
    destruct (createSession env (wakeWordFile env options)) as [?|s3];
      [discriminate H|].
    cbn [fst] in H. injection H as <-.
    split; [exact Hs|]. repeat (split; [reflexivity|]).
    exists s1, s2, s3. repeat split.
  - intros (Hs & E1 & E2 & E3 & s1 & s2 & s3 & C1 & C2 & C3 & ->).
    rewrite (create_cases env options Hs). cbv zeta.
    rewrite E1, E2, E3, C1, C2, C3. reflexivity.
Qed.

(** *** Frames that are turned down *)

(** A frame that is turned down changes nothing. *)
Lemma processFrame_turns_down (d : Detector) (frame : list Z) :
  isReleased d = true \/ isInitialized d = false \/
  length frame <> FRAME_LENGTH ->
  processFrame frame d
  = (inl (if isReleased d then WakeWordError "Detector has been released"
          else if isInitialized d then invalidFrameLength (length frame)
          else WakeWordError "Detector not initialized"),
     d).
Proof.
  intro H. unfold processFrame. ww_run.
  destruct (isReleased d); [reflexivity|].
  destruct (isInitialized d); cbn [negb]; [|reflexivity].
  destruct H as [H|[H|H]]; try discriminate H.
  apply Nat.eqb_neq in H. rewrite H. reflexivity.
Qed.

Lemma runFrames_cons (d : Detector) (f : list Z) (rest : list (list Z)) :
  runFrames d (f :: rest)
  = (fst (processFrame f d) :: fst (runFrames (snd (processFrame f d)) rest),
     snd (runFrames (snd (processFrame f d)) rest)).
Proof.
  cbn [runFrames]. destruct (processFrame f d) as [r d']. cbn [fst snd].
  destruct (runFrames d' rest) as [rs d'']. reflexivity.
Qed.

Lemma runFrames_app (pre post : list (list Z)) (d : Detector) :
  runFrames d (pre ++ post)
  = (fst (runFrames d pre) ++ fst (runFrames (snd (runFrames d pre)) post),
     snd (runFrames (snd (runFrames d pre)) post)).
Proof.
  revert d. induction pre as [|f pre IH]; intro d.
  - cbn [app runFrames fst snd]. destruct (runFrames d post). reflexivity.
  - cbn [app]. rewrite !runFrames_cons, IH. reflexivity.
Qed.

(** X13.  A frame of the wrong length costs one error and nothing else.
    Wherever in a stream a frame of another length than 1280 stands,
    [processFrame] throws for it and leaves both windows and every other
    field as they were: the results for the frames before and after it,
    and the detector at the end, are those of the stream without it. *)
Theorem wrong_length_frame_is_skipped
    (d : Detector) (pre post : list (list Z)) (bad : list Z) :
  length bad <> FRAME_LENGTH ->
  let d' := snd (runFrames d pre) in
  exists message,
    runFrames d (pre ++ bad :: post)
    = (fst (runFrames d pre)
         ++ inl (WakeWordError message) :: fst (runFrames d' post),
       snd (runFrames d' post)) /\
    runFrames d (pre ++ post)
    = (fst (runFrames d pre) ++ fst (runFrames d' post),
       snd (runFrames d' post)).
Proof.
  intro H. cbv zeta.
  pose proof (processFrame_turns_down (snd (runFrames d pre)) bad
                (or_intror (or_intror H))) as E.
  assert (M : exists message,
             (if isReleased (snd (runFrames d pre))
              then WakeWordError "Detector has been released"
              else if isInitialized (snd (runFrames d pre))
                   then invalidFrameLength (length bad)
                   else WakeWordError "Detector not initialized")
             = WakeWordError message).
  { destruct (isReleased (snd (runFrames d pre))); [eexists; reflexivity|].
    destruct (isInitialized (snd (runFrames d pre))); eexists; reflexivity. }
  destruct M as (message & M). rewrite M in E.
  exists message. split; [|apply runFrames_app].
  rewrite runFrames_app, runFrames_cons, E. reflexivity.
Qed.

Lemma wrong_length_frame_is_skipped_witness :
  length (repeat 0%Z 512) <> FRAME_LENGTH /\
  exists message,
    runFrames (primed (1 # 10)) ([zeroFrame] ++ repeat 0%Z 512 :: [zeroFrame])
    = (fst (runFrames (primed (1 # 10)) [zeroFrame])
         ++ inl (WakeWordError message)
            :: fst (runFrames (snd (runFrames (primed (1 # 10)) [zeroFrame]))
                      [zeroFrame]),
       snd (runFrames (snd (runFrames (primed (1 # 10)) [zeroFrame]))
              [zeroFrame])).
Proof.
  assert (H : length (repeat 0%Z 512) <> FRAME_LENGTH)
    by (vm_compute; discriminate).
  split; [exact H|].
  destruct (wrong_length_frame_is_skipped (primed (1 # 10)) [zeroFrame]
              [zeroFrame] (repeat 0%Z 512) H) as (message & E & _).
  exists message. exact E.
Defined.

(** *** Warm-up *)

Lemma melFramesOf_length (mel : InferenceSession) (frame : list Z) :
  exists t, length (melFramesOf mel frame) = length (run mel t) / 32.
Proof.
  unfold melFramesOf. cbv zeta. eexists.
  rewrite length_map, length_seq, length_map. reflexivity.
Qed.

(** While the mel window stays below its capacity the embedding loop does
    nothing. *)
Lemma embedLoop_idle (fuel : nat) (d : Detector) :
  length (melBuffer d) < MEL_BUFFER_SIZE -> embedLoop fuel d = (inr tt, d).
Proof.
  intro H. apply Nat.leb_gt in H.
  destruct fuel; cbn [embedLoop]; unfold bind, get; rewrite H; reflexivity.
Qed.

Lemma processFrame_idle (d : Detector) (mel : InferenceSession)
    (frame : list Z) :
  isReleased d = false -> isInitialized d = true -> melSession d = Some mel ->
  length frame = FRAME_LENGTH ->
  length (melBuffer d ++ melFramesOf mel frame) < MEL_BUFFER_SIZE ->
  length (embeddingBuffer d) < 16 ->
  processFrame frame d
  = (inr false, set_melBuffer (melBuffer d ++ melFramesOf mel frame) d).
Proof.
  intros Hrel Hini Hmel Hlen Hcap Hemb.
  unfold processFrame. unfold bind at 1. unfold get at 1.
  rewrite Hrel, Hini. cbn [negb]. rewrite Hlen, Nat.eqb_refl. cbn [negb].
  unfold bind at 1. rewrite (computeMelspectrogram_eq d mel frame Hmel).
  unfold bind at 1. unfold modify at 1.
  unfold bind at 1. unfold get at 1.
  unfold bind at 1. rewrite embedLoop_idle by (ww_fields; exact Hcap).
  unfold bind at 1. unfold get at 1. ww_fields.
  apply Nat.leb_gt in Hemb. rewrite Hemb. reflexivity.
Qed.

(** X14.  No trigger during warm-up.  With a mel model that yields at most
    five mel frames per audio frame, a detector whose windows are empty
    (fresh from [create], after [reset], after a detection) returns [false]
    for its first 15 frames whatever they hold and whatever the classifier
    would say: the mel window stays below its capacity of 76 and no
    embedding is computed.  More generally this holds for as many frames as
    leave the mel window below capacity. *)
Theorem warmup_frames_never_trigger
    (d : Detector) (mel : InferenceSession) (frames : list (list Z)) :
  isReleased d = false -> isInitialized d = true -> melSession d = Some mel ->
  (forall t, length (run mel t) / 32 <= MEL_FRAMES_PER_CHUNK) ->
  Forall (fun f => length f = FRAME_LENGTH) frames ->
  length (melBuffer d) + MEL_FRAMES_PER_CHUNK * length frames
    < MEL_BUFFER_SIZE ->
  length (embeddingBuffer d) < 16 ->
  fst (runFrames d frames) = repeat (inr false) (length frames) /\
  embeddingBuffer (snd (runFrames d frames)) = embeddingBuffer d /\
  melBuffer (snd (runFrames d frames))
  = melBuffer d ++ concat (map (melFramesOf mel) frames).
Proof.
  intros Hrel Hini Hmel Hfive Hframes. revert d Hrel Hini Hmel.
  induction Hframes as [|f rest Hf _ IH]; intros d Hrel Hini Hmel Hcap Hemb.
  - cbn. rewrite app_nil_r. repeat split.
  - cbn [length] in Hcap.
    destruct (melFramesOf_length mel f) as (t & Ht).
    pose proof (Hfive t) as H5. rewrite <- Ht in H5.
    assert (Hroom : length (melBuffer d ++ melFramesOf mel f)
                    < MEL_BUFFER_SIZE)
      by (rewrite length_app; unfold MEL_FRAMES_PER_CHUNK in *; lia).
    rewrite runFrames_cons.
    rewrite (processFrame_idle d mel f Hrel Hini Hmel Hf Hroom Hemb).
    cbn [fst snd].
    set (d1 := set_melBuffer (melBuffer d ++ melFramesOf mel f) d).
    assert (Hcap1 : length (melBuffer d1)
                    + MEL_FRAMES_PER_CHUNK * length rest < MEL_BUFFER_SIZE).
    { unfold d1. ww_fields. rewrite length_app.
      unfold MEL_FRAMES_PER_CHUNK in *. lia. }
    destruct (IH d1 Hrel Hini Hmel Hcap1 Hemb) as (A & B & C).
    rewrite A, B, C. unfold d1. ww_fields. cbn [repeat length map concat].
    rewrite <- app_assoc. repeat split.
Qed.

Lemma warmup_frames_never_trigger_witness :
  fst (runFrames (sampleDetector melFive (9 # 10)) (repeat zeroFrame 15))
  = repeat (inr false) 15 /\
  embeddingBuffer
    (snd (runFrames (sampleDetector melFive (9 # 10)) (repeat zeroFrame 15)))
  = [].
Proof.
  assert (H1 : isReleased (sampleDetector melFive (9 # 10)) = false)
    by reflexivity.
  assert (H2 : isInitialized (sampleDetector melFive (9 # 10)) = true)
    by reflexivity.
  assert (H3 : melSession (sampleDetector melFive (9 # 10)) = Some melFive)
    by reflexivity.
  assert (H4 : forall t, length (run melFive t) / 32 <= MEL_FRAMES_PER_CHUNK)
    by (intro t; apply Nat.leb_le; reflexivity).
  assert (H5 : Forall (fun f => length f = FRAME_LENGTH) (repeat zeroFrame 15))
    by (apply Forall_repeat; reflexivity).
  assert (H6 : length (melBuffer (sampleDetector melFive (9 # 10)))
               + MEL_FRAMES_PER_CHUNK * length (repeat zeroFrame 15)
               < MEL_BUFFER_SIZE)
    by (apply Nat.ltb_lt; reflexivity).
  assert (H7 : length (embeddingBuffer (sampleDetector melFive (9 # 10))) < 16)
    by (apply Nat.ltb_lt; reflexivity).
  destruct (warmup_frames_never_trigger (sampleDetector melFive (9 # 10))
              melFive (repeat zeroFrame 15) H1 H2 H3 H4 H5 H6 H7)
    as (A & B & _).
  split; [exact A|exact B].
Defined.

(** *** Bounded windows *)

Lemma turns_at_most_one (n : nat) :
  n < MEL_BUFFER_SIZE + EMBEDDING_WINDOW_SLIDE -> turns n <= 1.
Proof.
  intro H. destruct (Nat.lt_ge_cases n MEL_BUFFER_SIZE) as [L|G].
  - rewrite turns_below by exact L. lia.
  - rewrite turns_one by (split; assumption). lia.
Qed.

(** X15.  The windows stay bounded, however long the stream.  With a mel
    model that yields at most eight mel frames per audio frame, a ready
    detector that holds fewer than 76 mel frames and fewer than 16
    embeddings takes every frame of the right length without throwing, and
    holds fewer than 76 mel frames and fewer than 16 embeddings again after
    each. *)
Theorem windows_stay_bounded
    (d : Detector) (mel emb ww : InferenceSession) (frames : list (list Z)) :
  ready d mel emb ww ->
  melShaped (melBuffer d) -> embeddingShaped (embeddingBuffer d) ->
  (forall t, length (run emb t) = 96) ->
  (forall t, length (run mel t) / 32 <= EMBEDDING_WINDOW_SLIDE) ->
  Forall (fun f => length f = FRAME_LENGTH) frames ->
  length (melBuffer d) < MEL_BUFFER_SIZE ->
  length (embeddingBuffer d) < 16 ->
  Forall returned (fst (runFrames d frames)) /\
  length (melBuffer (snd (runFrames d frames))) < MEL_BUFFER_SIZE /\
  length (embeddingBuffer (snd (runFrames d frames))) < 16.
Proof.
  intros R Sm Se Hshape Hmel Hframes. revert d R Sm Se.
  induction Hframes as [|f rest Hf _ IH]; intros d R Sm Se Bm Be.
  - split; [apply Forall_nil|]. split; assumption.
  - rewrite runFrames_cons. cbn [fst snd].
    destruct (processFrame_keeps_shape d mel emb ww f R Sm Se Hshape Hf)
      as (R' & Sm' & Se' & _).
    pose proof (processFrame_closed_form d mel emb ww f R Sm Se Hshape Hf)
      as E. cbv zeta in E.
    destruct (melFramesOf_length mel f) as (t & Ht).
    pose proof (Hmel t) as H8. rewrite <- Ht in H8.
    set (mel0 := melBuffer d ++ melFramesOf mel f) in *.
    assert (L0 : length mel0 < MEL_BUFFER_SIZE + EMBEDDING_WINDOW_SLIDE)
      by (unfold mel0; rewrite length_app; lia).
    pose proof (turns_at_most_one _ L0) as K.
    pose proof (turns_leaves (length mel0)) as (T1 & _).
    set (k := turns (length mel0)) in *.
    set (emb1 := embeddingBuffer d ++ map (embeddingAt emb mel0) (seq 0 k))
      in *.
    assert (L1 : length emb1 <= 16)
      by (unfold emb1; rewrite length_app, length_map, length_seq; lia).
    assert (Step : returned (fst (processFrame f d)) /\
                   length (melBuffer (snd (processFrame f d)))
                     < MEL_BUFFER_SIZE /\
                   length (embeddingBuffer (snd (processFrame f d))) < 16).
    { rewrite E.
      destruct (16 <=? length emb1) eqn:C;
        [destruct (exceeds (scoreOf ww emb1) (sensitivity d))|];
        cbn [fst snd]; unfold withWindows; ww_fields.
      - split; [eexists; reflexivity|].
        cbn [length]. unfold MEL_BUFFER_SIZE. split; lia.
      - split; [eexists; reflexivity|].
        rewrite !length_skipn. apply Nat.leb_le in C. split; lia.
      - split; [eexists; reflexivity|].
        rewrite length_skipn. apply Nat.leb_gt in C. split; lia. }
    destruct Step as (S1 & S2 & S3).
    destruct (IH (snd (processFrame f d)) R' Sm' Se' S2 S3) as (A & B & C).
    split; [apply Forall_cons; assumption|]. split; assumption.
Qed.

Lemma windows_stay_bounded_witness :
  Forall returned (fst (runFrames (primed (1 # 10)) [zeroFrame; zeroFrame])) /\
  length (melBuffer (snd (runFrames (primed (1 # 10)) [zeroFrame; zeroFrame])))
    < MEL_BUFFER_SIZE /\
  length (embeddingBuffer
            (snd (runFrames (primed (1 # 10)) [zeroFrame; zeroFrame]))) < 16.
Proof.
  assert (H1 : ready (primed (1 # 10)) melFive embFixed (classifier (1 # 10)))
    by (repeat split).
  assert (H2 : melShaped (melBuffer (primed (1 # 10))))
    by (apply Forall_repeat; reflexivity).
  assert (H3 : embeddingShaped (embeddingBuffer (primed (1 # 10))))
    by (apply Forall_repeat; reflexivity).
  assert (H4 : forall t, length (run embFixed t) = 96)
    by (intro t; reflexivity).
  assert (H5 : forall t, length (run melFive t) / 32 <= EMBEDDING_WINDOW_SLIDE)
    by (intro t; apply Nat.leb_le; reflexivity).
  assert (H6 : Forall (fun f => length f = FRAME_LENGTH) [zeroFrame; zeroFrame]).
  { apply Forall_cons; [reflexivity|].
    apply Forall_cons; [reflexivity|]. apply Forall_nil. }
  assert (H7 : length (melBuffer (primed (1 # 10))) < MEL_BUFFER_SIZE)
    by (apply Nat.ltb_lt; reflexivity).
  assert (H8 : length (embeddingBuffer (primed (1 # 10))) < 16)
    by (apply Nat.ltb_lt; reflexivity).
  exact (windows_stay_bounded (primed (1 # 10)) melFive embFixed
           (classifier (1 # 10)) [zeroFrame; zeroFrame]
           H1 H2 H3 H4 H5 H6 H7 H8).
Defined.

(** *** After release *)

(** X16.  When the three sessions release without throwing, [release()]
    returns, and afterwards the detector turns every call down without
    changing: [processFrame], [reset] and [getFrameLength] throw "Detector
    has been released". *)
Theorem released_spotter_refuses (d : Detector) (frame : list Z) :
  isReleased d = false ->
  (forall s, In (Some s) [melSession d; embeddingSession d; wakeWordSession d]
             -> releaseOutcome s = Returned) ->
  exists d',
    release d = (inr tt, d') /\ isReleased d' = true /\
    processFrame frame d'
    = (inl (WakeWordError "Detector has been released"), d') /\
    reset d' = (inl (WakeWordError "Detector has been released"), d') /\
    getFrameLength d'
    = (inl (WakeWordError "Detector has been released"), d') /\
    release d' = (inr tt, d').
Proof.
  intros Hrel Hs.
  destruct (ww_release_returns d Hs) as (d' & E & R).
  specialize (R Hrel). exists d'.
  split; [exact E|]. split; [exact R|].
  unfold processFrame, reset, getFrameLength. ww_run. rewrite R.
  repeat (split; [reflexivity|]).
  apply (ww_release_idempotent d d' E).
Qed.

Lemma released_spotter_refuses_witness :
  exists d',
    release (sampleDetector melFive (1 # 10)) = (inr tt, d') /\
    processFrame zeroFrame d'
    = (inl (WakeWordError "Detector has been released"), d').
Proof.
  assert (H1 : isReleased (sampleDetector melFive (1 # 10)) = false)
    by reflexivity.
  assert (H2 : forall s,
             In (Some s) [melSession (sampleDetector melFive (1 # 10));
                          embeddingSession (sampleDetector melFive (1 # 10));
                          wakeWordSession (sampleDetector melFive (1 # 10))]
             -> releaseOutcome s = Returned).
  { intros s [E|[E|[E|[]]]]; injection E as <-; reflexivity. }
  destruct (released_spotter_refuses (sampleDetector melFive (1 # 10))
              zeroFrame H1 H2) as (d' & E & _ & P & _).
  exists d'. split; [exact E|exact P].
Defined.

End WakeWordMore.

(** ** More on the scripted source *)

Section EmulatedMore.

Import Emulated ECSpec.

Local Open Scope nat_scope.

Ltac ec_fields :=
  cbn [set_audioBuffer set_frameCallback set_running set_released
       set_position set_delivered
       audioBuffer frameCallback running released position frameLength
       sampleRate realtime delivered].


(** *** Frames *)

Lemma chunks_zero (buffer : list Z) (F p : nat) : chunks buffer F p 0 = [].
Proof. reflexivity. Qed.

Lemma chunks_length (buffer : list Z) (F p n : nat) :
  length (chunks buffer F p n) = n.
Proof. unfold chunks. rewrite length_map, length_seq. reflexivity. Qed.

Lemma chunks_app (buffer : list Z) (F p m k : nat) :
  chunks buffer F p (m + k)
  = chunks buffer F p m ++ chunks buffer F (p + m * F) k.
Proof.
  revert p. induction m as [|m IH]; intro p.
  - cbn [Nat.add Nat.mul]. rewrite chunks_zero, Nat.add_0_r. reflexivity.
  - cbn [Nat.add]. rewrite !chunks_step, IH. cbn [app]. do 3 f_equal.
    cbn [Nat.mul]. lia.
Qed.

Lemma chunks_snoc (buffer : list Z) (F p m : nat) :
  chunks buffer F p (S m)
  = chunks buffer F p m ++ [chunkAt buffer F (p + m * F)].
Proof.
  replace (S m) with (m + 1) by lia. rewrite chunks_app.
  rewrite chunks_step, chunks_zero. reflexivity.
Qed.

Lemma ceilDiv_small (b : nat) : ceilDiv 0 b = 0.
Proof.
  unfold ceilDiv. rewrite Nat.Div0.div_0_l, Nat.Div0.mod_0_l. reflexivity.
Qed.

Lemma ceilDiv_sub (a b m : nat) :
  0 < b -> m <= ceilDiv a b -> ceilDiv (a - m * b) b = ceilDiv a b - m.
Proof.
  intro Hb. revert a. induction m as [|m IH]; intros a Hm.
  - cbn [Nat.mul]. rewrite !Nat.sub_0_r. reflexivity.
  - destruct (Nat.eq_dec a 0) as [->|Ha].
    + rewrite ceilDiv_small in Hm. lia.
    + rewrite (ceilDiv_step a b) in Hm |- * by lia.
      replace (a - S m * b) with (a - b - m * b) by (cbn [Nat.mul]; lia).
      rewrite IH by lia. lia.
Qed.

(** End to end, the frames that cover the rest of a buffer are that rest
    followed by the zeros that fill the last frame. *)
Lemma concat_chunks (buffer : list Z) (F : nat) (n p : nat) :
  0 < F -> ceilDiv (length buffer - p) F = n ->
  concat (chunks buffer F p n)
  = skipn p buffer ++ repeat 0%Z (n * F - (length buffer - p)).
Proof.
  intro HF. revert p. induction n as [|n IH]; intros p Hn.
  - apply ceilDiv_zero in Hn; [|exact HF].
    rewrite chunks_zero, skipn_all2 by lia. reflexivity.
  - assert (Hpos : 0 < length buffer - p).
    { destruct (Nat.eq_dec (length buffer - p) 0) as [E|E]; [|lia].
      rewrite E, ceilDiv_small in Hn. discriminate. }
    rewrite ceilDiv_step in Hn by lia. injection Hn as Hn.
    replace (length buffer - p - F) with (length buffer - (p + F)) in Hn by lia.
    rewrite chunks_step. cbn [concat]. rewrite (IH (p + F) Hn).
    destruct (Nat.le_gt_cases (p + F) (length buffer)) as [C|C].
    + rewrite chunkAt_full by exact C. rewrite app_assoc.
      rewrite (Nat.add_comm p F), <- skipn_skipn, firstn_skipn.
      f_equal. f_equal. cbn [Nat.mul]. lia.
    + rewrite chunkAt_short by lia.
      replace (length buffer - (p + F)) with 0 in Hn |- * by lia.
      rewrite ceilDiv_small in Hn. subst n.
      rewrite (@skipn_all2 _ (p + F) buffer) by lia.
      cbn [Nat.mul Nat.add Nat.sub repeat app].
      rewrite app_nil_r, Nat.add_0_r. reflexivity.
Qed.

(** *** What a callback hears *)

Lemma heard_attentive (callback : FrameCallback) (frames : list (list Z)) :
  attentive callback -> heard callback frames = frames.
Proof.
  intro H. induction frames as [|f rest IH]; [reflexivity|].
  cbn [heard]. rewrite H, IH. reflexivity.
Qed.

Lemma heard_prefix (callback : FrameCallback) (frames : list (list Z)) :
  heard callback frames = firstn (length (heard callback frames)) frames.
Proof.
  induction frames as [|f rest IH]; [reflexivity|].
  cbn [heard]. destruct (callback f).
  - reflexivity.
  - cbn [length firstn]. f_equal. exact IH.
Qed.

Lemma heard_length (callback : FrameCallback) (frames : list (list Z)) :
  length (heard callback frames) <= length frames.
Proof.
  induction frames as [|f rest IH]; [reflexivity|].
  cbn [heard]. destruct (callback f); cbn [length]; lia.
Qed.

(** *** The emission loop, with a callback that may stop the channel *)

Lemma emitLoop_halted (stoppedAsleep : nat -> bool) (fuel : nat)
    (c : Channel) :
  running c = false -> emitLoop stoppedAsleep fuel c = Some c.
Proof.
  intro H. destruct fuel; cbn [emitLoop]; rewrite H; cbn [andb];
    destruct c; cbn in *; subst; reflexivity.
Qed.

Lemma emitLoop_heard (stoppedAsleep : nat -> bool)
    (callback : FrameCallback) (fuel : nat) (c : Channel) :
  frameCallback c = Some callback ->
  undisturbed stoppedAsleep ->
  running c = true -> released c = false -> 0 < frameLength c ->
  ceilDiv (length (audioBuffer c) - position c) (frameLength c) <= fuel ->
  let frames :=
    heard callback
      (chunks (audioBuffer c) (frameLength c) (position c)
         (ceilDiv (length (audioBuffer c) - position c) (frameLength c))) in
  emitLoop stoppedAsleep fuel c
  = Some
      (set_running false
         (set_position (position c + length frames * frameLength c)
            (set_delivered (delivered c ++ frames) c))).
Proof.
  intros Hcb Hund. cbv zeta. revert c Hcb.
  induction fuel as [|fuel IH]; intros c Hcb Hrun Hrel HF Hfuel.
  - assert (Hn : ceilDiv (length (audioBuffer c) - position c) (frameLength c) = 0)
      by lia.
    pose proof (ceilDiv_zero _ _ HF Hn) as Hz.
    rewrite Hn. cbn [emitLoop]. rewrite Hrun, Hrel. cbn [negb andb].
    destruct (position c <? length (audioBuffer c)) eqn:E;
      [apply Nat.ltb_lt in E; lia|].
    rewrite chunks_zero. cbn [heard length Nat.mul].
    rewrite app_nil_r, Nat.add_0_r. destruct c; reflexivity.
  - cbn [emitLoop]. rewrite Hrun, Hrel. cbn [negb andb].
    destruct (position c <? length (audioBuffer c)) eqn:E.
    + apply Nat.ltb_lt in E.
      rewrite Hcb, frameAt_chunkAt.
      assert (Hstep : ceilDiv (length (audioBuffer c) - position c) (frameLength c)
                      = S (ceilDiv (length (audioBuffer c)
                                    - (position c + frameLength c))
                                   (frameLength c))).
      { rewrite ceilDiv_step by lia. do 2 f_equal. lia. }
      rewrite Hstep in Hfuel |- *. rewrite chunks_step. cbn [heard].
      unfold invoke.
      destruct (callback (chunkAt (audioBuffer c) (frameLength c) (position c)))
        eqn:Hstop.
      * unfold stop. cbn [snd]. ec_fields.
        rewrite Bool.andb_false_r. cbn [andb].
        rewrite emitLoop_halted by reflexivity.
        cbn [length Nat.mul]. rewrite Nat.add_0_r. reflexivity.
      * ec_fields. rewrite Hrun.
        match goal with
        | |- emitLoop _ _ (if ?b then (if ?a then _ else ?x) else ?y) = _ =>
            replace (if b then (if a then snd (stop x) else x) else y) with x
              by (rewrite Hund; destruct b; reflexivity)
        end.
        rewrite IH; ec_fields; try assumption; try lia.
        rewrite <- app_assoc. cbn [app length Nat.mul].
        f_equal; f_equal; lia.
    + apply Nat.ltb_ge in E.
      replace (length (audioBuffer c) - position c) with 0 by lia.
      rewrite ceilDiv_small, chunks_zero. cbn [heard length Nat.mul].
      rewrite app_nil_r, Nat.add_0_r. destruct c; reflexivity.
Qed.

(** [start()] on a channel that is left alone while it sleeps. *)
Lemma start_heard (stoppedAsleep : nat -> bool)
    (callback : FrameCallback) (fuel : nat) (c : Channel) :
  frameCallback c = Some callback ->
  undisturbed stoppedAsleep ->
  running c = false -> released c = false ->
  0 < frameLength c -> audioBuffer c <> [] ->
  ceilDiv (length (audioBuffer c) - position c) (frameLength c) <= fuel ->
  let frames :=
    heard callback
      (chunks (audioBuffer c) (frameLength c) (position c)
         (ceilDiv (length (audioBuffer c) - position c) (frameLength c))) in
  start stoppedAsleep fuel c
  = Some
      (Returned,
       set_running false
         (set_position (position c + length frames * frameLength c)
            (set_delivered (delivered c ++ frames) c))).
Proof.
  intros Hcb Hund Hrun Hrel HF Hbuf Hfuel. cbv zeta.
  unfold start. rewrite Hrel, Hrun.
  destruct (length (audioBuffer c) =? 0) eqn:E.
  { apply Nat.eqb_eq, length_zero_iff_nil in E. contradiction. }
  rewrite (emitLoop_heard stoppedAsleep callback); ec_fields;
    try assumption; try reflexivity.
Qed.

(** *** The emission loop, whoever stops it *)





(** [start()] on a channel whose callback never stops it and that is left
    alone while it sleeps: the frames from the cursor to the end. *)
Lemma start_from (stoppedAsleep : nat -> bool)
    (callback : FrameCallback) (fuel : nat) (c : Channel) :
  frameCallback c = Some callback ->
  attentive callback -> undisturbed stoppedAsleep ->
  running c = false -> released c = false ->
  0 < frameLength c -> audioBuffer c <> [] ->
  ceilDiv (length (audioBuffer c) - position c) (frameLength c) <= fuel ->
  let n := ceilDiv (length (audioBuffer c) - position c) (frameLength c) in
  start stoppedAsleep fuel c
  = Some
      (Returned,
       set_running false
         (set_position (position c + n * frameLength c)
            (set_delivered
               (delivered c
                ++ chunks (audioBuffer c) (frameLength c) (position c) n)
               c))).
Proof.
  intros Hcb Hatt Hund Hrun Hrel HF Hbuf Hfuel. cbv zeta.
  rewrite (start_heard stoppedAsleep callback) by assumption. cbv zeta.
  rewrite heard_attentive by exact Hatt. rewrite chunks_length. reflexivity.
Qed.

Lemma app_same_length {A : Type} (a b c d : list A) :
  length a = length b -> a ++ c = b ++ d -> c = d.
Proof.
  intros L E. apply (f_equal (skipn (length a))) in E.
  rewrite skipn_app, skipn_all, Nat.sub_diag in E. rewrite L in E.
  rewrite skipn_app, skipn_all, Nat.sub_diag in E. exact E.
Qed.

Lemma heard_split (callback : FrameCallback) (pre post : list (list Z))
    (f : list Z) :
  Forall (fun g => callback g = false) pre -> callback f = true ->
  heard callback (pre ++ f :: post) = pre ++ [f].
Proof.
  intros Hpre Hf. induction Hpre as [|g pre Hg _ IH].
  - cbn [app heard]. rewrite Hf. reflexivity.
  - cbn [app heard]. rewrite Hg, IH. reflexivity.
Qed.

(** *** Properties *)



(** X18.  A callback that calls [stop()] while it handles a frame gets no
    further frame: with the channel otherwise left alone, the frames
    delivered are those up to and including the first on which the callback
    stops, and the cursor stands right behind that frame. *)
Theorem stop_in_callback_ends_emission
    (buffer : list Z) (options : EmulatedChannelOptions)
    (callback : FrameCallback) (stoppedAsleep : nat -> bool) (fuel : nat)
    (pre post : list (list Z)) (f : list Z) :
  let c := onFrame callback (fromBuffer buffer options) in
  let F := frameLength c in
  0 < F -> buffer <> [] -> undisturbed stoppedAsleep ->
  ceilDiv (length buffer) F <= fuel ->
  chunks buffer F 0 (ceilDiv (length buffer) F) = pre ++ f :: post ->
  Forall (fun g => callback g = false) pre -> callback f = true ->
  exists c',
    start stoppedAsleep fuel c = Some (Returned, c') /\
    delivered c' = pre ++ [f] /\
    getPosition c' = (length pre + 1) * F /\
    isRunning c' = false.
Proof.
  intros c F HF Hne Hund Hfuel Hsplit Hpre Hf.
  eexists. split.
  { apply (start_heard stoppedAsleep callback); try assumption;
      try reflexivity.
    change (position c) with 0. rewrite Nat.sub_0_r. exact Hfuel. }
  ec_fields. change (position c) with 0. change (delivered c) with (@nil (list Z)).
  change (audioBuffer c) with buffer. fold F.
  rewrite Nat.sub_0_r, Hsplit, heard_split by assumption.
  cbn [app Nat.add]. unfold getPosition, isRunning. ec_fields.
  rewrite length_app. cbn [length].
  split; [reflexivity|]. split; reflexivity.
Qed.

Lemma stop_in_callback_ends_emission_witness :
  exists c',
    start nobody 3 (onFrame impatient (fromBuffer longBuffer fastOptions))
    = Some (Returned, c') /\
    delivered c' = [repeat 7%Z 512] /\
    getPosition c' = 512 /\
    isRunning c' = false.
Proof.
  assert (H1 : 0 < frameLength (onFrame impatient
                                  (fromBuffer longBuffer fastOptions)))
    by (apply Nat.ltb_lt; reflexivity).
  assert (H2 : longBuffer <> []) by discriminate.
  assert (H3 : undisturbed nobody) by (intro p; reflexivity).
  assert (H4 : ceilDiv (length longBuffer)
                 (frameLength (onFrame impatient
                                 (fromBuffer longBuffer fastOptions))) <= 3)
    by (apply Nat.leb_le; reflexivity).
  assert (H5 : chunks longBuffer
                 (frameLength (onFrame impatient
                                 (fromBuffer longBuffer fastOptions))) 0
                 (ceilDiv (length longBuffer)
                    (frameLength (onFrame impatient
                                    (fromBuffer longBuffer fastOptions))))
               = [] ++ repeat 7%Z 512
                    :: [repeat 7%Z 512; repeat 7%Z 176 ++ repeat 0%Z 336])
    by (vm_compute; reflexivity).
  assert (H6 : Forall (fun g => impatient g = false) []) by apply Forall_nil.
  assert (H7 : impatient (repeat 7%Z 512) = true) by reflexivity.
  exact (stop_in_callback_ends_emission longBuffer fastOptions impatient
           nobody 3 [] _ (repeat 7%Z 512) H1 H2 H3 H4 H5 H6 H7).
Defined.

(** X19.  After a callback has stopped the channel, a second [start()] goes
    on where the first one ended: between them the two runs deliver every
    frame of the buffer, in order and each once. *)
Theorem stopped_channel_resumes
    (buffer : list Z) (options : EmulatedChannelOptions)
    (callback listener2 : FrameCallback) (stoppedAsleep : nat -> bool)
    (fuel : nat) (pre post : list (list Z)) (f : list Z) :
  let c := onFrame callback (fromBuffer buffer options) in
  let F := frameLength c in
  0 < F -> buffer <> [] -> undisturbed stoppedAsleep ->
  ceilDiv (length buffer) F <= fuel ->
  chunks buffer F 0 (ceilDiv (length buffer) F) = pre ++ f :: post ->
  Forall (fun g => callback g = false) pre -> callback f = true ->
  attentive listener2 ->
  exists c' c'',
    start stoppedAsleep fuel c = Some (Returned, c') /\
    delivered c' = pre ++ [f] /\
    start stoppedAsleep fuel (onFrame listener2 c') = Some (Returned, c'') /\
    delivered c'' = pre ++ f :: post /\
    isRunning c'' = false.
Proof.
  intros c F HF Hne Hund Hfuel Hsplit Hpre Hf Hatt.
  set (n := ceilDiv (length buffer) F) in *.
  set (m := length pre + 1).
  assert (Hlen : n = m + length post).
  { pose proof (f_equal (@length _) Hsplit) as E.
    rewrite chunks_length, length_app in E. cbn [length] in E.
    unfold m. lia. }
  assert (Hpost : chunks buffer F (m * F) (ceilDiv (length buffer - m * F) F)
                  = post).
  { rewrite ceilDiv_sub by (fold n; lia). fold n.
    replace (n - m) with (length post) by lia.
    pose proof (chunks_app buffer F 0 m (length post)) as A.
    rewrite <- Hlen, Hsplit in A. cbn [Nat.add] in A.
    replace (pre ++ f :: post) with ((pre ++ [f]) ++ post) in A
      by (rewrite <- app_assoc; reflexivity).
    apply app_same_length in A; [symmetry; exact A|].
    rewrite chunks_length, length_app. reflexivity. }
  eexists. eexists. split.
  { apply (start_heard stoppedAsleep callback); try assumption;
      try reflexivity.
    change (position c) with 0. rewrite Nat.sub_0_r. exact Hfuel. }
  change (position c) with 0. change (delivered c) with (@nil (list Z)).
  change (audioBuffer c) with buffer. fold F.
  rewrite Nat.sub_0_r. fold n. rewrite Hsplit, heard_split by assumption.
  rewrite length_app. cbn [length app Nat.add]. fold m.
  split; [reflexivity|]. split.
  { rewrite (start_from stoppedAsleep listener2); unfold onFrame; ec_fields;
      try assumption; try reflexivity.
    change (audioBuffer c) with buffer. fold F.
    rewrite ceilDiv_sub by (fold n; lia). fold n. lia. }
  unfold onFrame, isRunning. ec_fields.
  change (audioBuffer c) with buffer. fold F. rewrite Hpost.
  rewrite <- app_assoc. split; reflexivity.
Qed.

Lemma stopped_channel_resumes_witness :
  exists c' c'',
    start nobody 3 (onFrame impatient (fromBuffer longBuffer fastOptions))
    = Some (Returned, c') /\
    delivered c' = [repeat 7%Z 512] /\
    start nobody 3 (onFrame listener c') = Some (Returned, c'') /\
    delivered c''
    = [repeat 7%Z 512; repeat 7%Z 512; repeat 7%Z 176 ++ repeat 0%Z 336] /\
    isRunning c'' = false.
Proof.
  assert (H1 : 0 < frameLength (onFrame impatient
                                  (fromBuffer longBuffer fastOptions)))
    by (apply Nat.ltb_lt; reflexivity).
  assert (H2 : longBuffer <> []) by discriminate.
  assert (H3 : undisturbed nobody) by (intro p; reflexivity).
  assert (H4 : ceilDiv (length longBuffer)
                 (frameLength (onFrame impatient
                                 (fromBuffer longBuffer fastOptions))) <= 3)
    by (apply Nat.leb_le; reflexivity).
  assert (H5 : chunks longBuffer
                 (frameLength (onFrame impatient
                                 (fromBuffer longBuffer fastOptions))) 0
                 (ceilDiv (length longBuffer)
                    (frameLength (onFrame impatient
                                    (fromBuffer longBuffer fastOptions))))
               = [] ++ repeat 7%Z 512
                    :: [repeat 7%Z 512; repeat 7%Z 176 ++ repeat 0%Z 336])
    by (vm_compute; reflexivity).
  assert (H6 : Forall (fun g => impatient g = false) []) by apply Forall_nil.
  assert (H7 : impatient (repeat 7%Z 512) = true) by reflexivity.
  assert (H8 : attentive listener) by (intro g; reflexivity).
  exact (stopped_channel_resumes longBuffer fastOptions impatient listener
           nobody 3 [] _ (repeat 7%Z 512) H1 H2 H3 H4 H5 H6 H7 H8).
Defined.



(** X21.  A channel that has played its buffer to the end plays nothing when
    started again; after [reset()] it plays the buffer once more, and after
    [prependAudio(intro)] it plays the new buffer, [intro] followed by the
    old one, from its first sample. *)
Theorem replay_needs_rewinding
    (buffer intro : list Z) (options : EmulatedChannelOptions)
    (callback : FrameCallback) (stoppedAsleep : nat -> bool) (fuel : nat) :
  let c := onFrame callback (fromBuffer buffer options) in
  let F := frameLength c in
  let frames := chunks buffer F 0 (ceilDiv (length buffer) F) in
  0 < F -> buffer <> [] ->
  attentive callback -> undisturbed stoppedAsleep ->
  ceilDiv (length intro + length buffer) F <= fuel ->
  exists c' again rewound extended,
    start stoppedAsleep fuel c = Some (Returned, c') /\
    delivered c' = frames /\
    start stoppedAsleep fuel c' = Some (Returned, again) /\
    delivered again = frames /\
    start stoppedAsleep fuel (reset c') = Some (Returned, rewound) /\
    delivered rewound = frames ++ frames /\
    start stoppedAsleep fuel (prependAudio intro c')
    = Some (Returned, extended) /\
    delivered extended
    = frames ++ chunks (intro ++ buffer) F 0
                  (ceilDiv (length intro + length buffer) F).
Proof.
  intros c F frames HF Hne Hatt Hund Hfuel.
  set (n := ceilDiv (length buffer) F) in *.
  assert (Hcover : length buffer <= n * F)
    by (apply (ceilDiv_spec (length buffer) F HF)).
  assert (Hmono : n <= ceilDiv (length intro + length buffer) F).
  { pose proof (ceilDiv_spec (length buffer) F HF) as [_ A].
    pose proof (ceilDiv_spec (length intro + length buffer) F HF) as [B _].
    fold n in A. nia. }
  eexists. eexists. eexists. eexists. split.
  { apply (start_from stoppedAsleep callback); try assumption;
      try reflexivity.
    change (position c) with 0. change (audioBuffer c) with buffer. fold F.
    rewrite Nat.sub_0_r. fold n. lia. }
  change (position c) with 0. change (delivered c) with (@nil (list Z)).
  change (audioBuffer c) with buffer. fold F.
  rewrite Nat.sub_0_r. fold n. cbn [Nat.add app]. ec_fields.
  split; [reflexivity|]. split.
  { rewrite (start_from stoppedAsleep callback); ec_fields;
      try assumption; try reflexivity.
    change (audioBuffer c) with buffer. fold F.
    replace (length buffer - n * F) with 0 by lia.
    rewrite ceilDiv_small. lia. }
  ec_fields. change (audioBuffer c) with buffer. fold F.
  replace (length buffer - n * F) with 0 by lia.
  rewrite ceilDiv_small, chunks_zero, app_nil_r.
  split; [reflexivity|]. split.
  { rewrite (start_from stoppedAsleep callback); unfold reset; ec_fields;
      try assumption; try reflexivity.
    change (audioBuffer c) with buffer. fold F.
    rewrite Nat.sub_0_r. fold n. lia. }
  unfold reset. ec_fields. change (audioBuffer c) with buffer. fold F.
  rewrite Nat.sub_0_r. fold n.
  split; [reflexivity|]. split.
  { rewrite (start_from stoppedAsleep callback);
      unfold prependAudio, concatenateAudio; ec_fields;
      try assumption; try reflexivity.
    - change (audioBuffer c) with buffer.
      intro E. apply app_eq_nil in E as [_ E]. contradiction.
    - change (audioBuffer c) with buffer. fold F.
      rewrite Nat.sub_0_r, length_app. exact Hfuel. }
  unfold prependAudio, concatenateAudio. ec_fields.
  change (audioBuffer c) with buffer. fold F.
  rewrite Nat.sub_0_r, length_app. reflexivity.
Qed.


Lemma replay_needs_rewinding_witness :
  exists c' again rewound extended,
    start nobody 3 (onFrame listener (fromBuffer sampleBuffer fastOptions))
    = Some (Returned, c') /\
    delivered c' = chunks sampleBuffer 512 0 2 /\
    start nobody 3 c' = Some (Returned, again) /\
    delivered again = chunks sampleBuffer 512 0 2 /\
    start nobody 3 (reset c') = Some (Returned, rewound) /\
    delivered rewound
    = chunks sampleBuffer 512 0 2 ++ chunks sampleBuffer 512 0 2 /\
    start nobody 3 (prependAudio [1; 2; 3]%Z c') = Some (Returned, extended) /\
    delivered extended
    = chunks sampleBuffer 512 0 2
      ++ chunks ([1; 2; 3]%Z ++ sampleBuffer) 512 0 2.
Proof.
  assert (H1 : 0 < frameLength (onFrame listener
                                  (fromBuffer sampleBuffer fastOptions)))
    by (apply Nat.ltb_lt; reflexivity).
  assert (H2 : sampleBuffer <> []) by discriminate.
  assert (H3 : attentive listener) by (intro g; reflexivity).
  assert (H4 : undisturbed nobody) by (intro p; reflexivity).
  assert (H5 : ceilDiv (length [1; 2; 3]%Z + length sampleBuffer)
                 (frameLength (onFrame listener
                                 (fromBuffer sampleBuffer fastOptions))) <= 3)
    by (apply Nat.leb_le; reflexivity).
  exact (replay_needs_rewinding sampleBuffer [1; 2; 3]%Z fastOptions listener
           nobody 3 H1 H2 H3 H4 H5).
Defined.

(** X22.  Audio appended to a channel that has played its buffer to the end
    is played from the cursor, which stands behind the zeros that filled the
    last frame: of the appended samples, as many as there were such zeros
    are never delivered.  End to end, the new frames are the appended audio
    without those first samples, followed by zeros. *)
Theorem appended_audio_starts_behind_the_padding
    (buffer extra : list Z) (options : EmulatedChannelOptions)
    (callback : FrameCallback) (stoppedAsleep : nat -> bool)
    (fuel fuel2 : nat) :
  let c := onFrame callback (fromBuffer buffer options) in
  let F := frameLength c in
  let n := ceilDiv (length buffer) F in
  let gap := n * F - length buffer in
  0 < F -> buffer <> [] ->
  attentive callback -> undisturbed stoppedAsleep ->
  n <= fuel -> ceilDiv (length extra - gap) F <= fuel2 ->
  exists c' c'' fresh,
    start stoppedAsleep fuel c = Some (Returned, c') /\
    delivered c' = chunks buffer F 0 n /\
    start stoppedAsleep fuel2 (appendAudio extra c') = Some (Returned, c'') /\
    delivered c'' = chunks buffer F 0 n ++ fresh /\
    concat fresh
    = skipn gap extra
      ++ repeat 0%Z (length fresh * F - (length extra - gap)).
Proof.
  intros c F n gap HF Hne Hatt Hund Hfuel Hfuel2.
  assert (Hcover : length buffer <= n * F)
    by (apply (ceilDiv_spec (length buffer) F HF)).
  assert (Hrest : length (buffer ++ extra) - n * F = length extra - gap)
    by (rewrite length_app; unfold gap; lia).
  eexists. eexists.
  exists (chunks (buffer ++ extra) F (n * F) (ceilDiv (length extra - gap) F)).
  split.
  { apply (start_from stoppedAsleep callback); try assumption;
      try reflexivity.
    change (position c) with 0. change (audioBuffer c) with buffer. fold F.
    rewrite Nat.sub_0_r. exact Hfuel. }
  change (position c) with 0. change (delivered c) with (@nil (list Z)).
  change (audioBuffer c) with buffer. fold F.
  rewrite Nat.sub_0_r. fold n. cbn [Nat.add app]. ec_fields.
  split; [reflexivity|]. split.
  { rewrite (start_from stoppedAsleep callback);
      unfold appendAudio, concatenateAudio; ec_fields;
      try assumption; try reflexivity.
    - change (audioBuffer c) with buffer.
      intro E. apply app_eq_nil in E as [E _]. contradiction.
    - change (audioBuffer c) with buffer. fold F. rewrite Hrest.
      exact Hfuel2. }
  unfold appendAudio, concatenateAudio. ec_fields.
  change (audioBuffer c) with buffer. fold F. rewrite Hrest.
  split; [reflexivity|].
  rewrite (concat_chunks (buffer ++ extra) F
             (ceilDiv (length extra - gap) F) (n * F) HF)
    by (rewrite Hrest; reflexivity).
  rewrite chunks_length, Hrest. f_equal.
  rewrite skipn_app, skipn_all2 by exact Hcover. reflexivity.
Qed.

Lemma appended_audio_starts_behind_the_padding_witness :
  exists c' c'' fresh,
    start nobody 2 (onFrame listener (fromBuffer sampleBuffer fastOptions))
    = Some (Returned, c') /\
    delivered c' = chunks sampleBuffer 512 0 2 /\
    start nobody 2 (appendAudio (repeat 5%Z 500) c') = Some (Returned, c'') /\
    delivered c'' = chunks sampleBuffer 512 0 2 ++ fresh /\
    concat fresh
    = skipn 424 (repeat 5%Z 500)
      ++ repeat 0%Z (length fresh * 512 - (500 - 424)).
Proof.
  assert (H1 : 0 < frameLength (onFrame listener
                                  (fromBuffer sampleBuffer fastOptions)))
    by (apply Nat.ltb_lt; reflexivity).
  assert (H2 : sampleBuffer <> []) by discriminate.
  assert (H3 : attentive listener) by (intro g; reflexivity).
  assert (H4 : undisturbed nobody) by (intro p; reflexivity).
  assert (H5 : ceilDiv (length sampleBuffer)
                 (frameLength (onFrame listener
                                 (fromBuffer sampleBuffer fastOptions))) <= 2)
    by (apply Nat.leb_le; reflexivity).
  assert (H6 : ceilDiv
                 (length (repeat 5%Z 500)
                  - (ceilDiv (length sampleBuffer)
                       (frameLength (onFrame listener
                                       (fromBuffer sampleBuffer fastOptions)))
                     * frameLength (onFrame listener
                                      (fromBuffer sampleBuffer fastOptions))
                     - length sampleBuffer))
                 (frameLength (onFrame listener
                                 (fromBuffer sampleBuffer fastOptions))) <= 2)
    by (apply Nat.leb_le; reflexivity).
  exact (appended_audio_starts_behind_the_padding sampleBuffer
           (repeat 5%Z 500) fastOptions listener nobody 2 2
           H1 H2 H3 H4 H5 H6).
Defined.

(** X23.  Put end to end, the frames a channel delivers when it plays a
    buffer undisturbed are the buffer followed by fewer zeros than a frame
    is long: no sample is lost, repeated or reordered. *)
Theorem delivered_frames_concatenate
    (buffer : list Z) (options : EmulatedChannelOptions)
    (callback : FrameCallback) (stoppedAsleep : nat -> bool) (fuel : nat) :
  let c := onFrame callback (fromBuffer buffer options) in
  let F := frameLength c in
  0 < F -> buffer <> [] ->
  attentive callback -> undisturbed stoppedAsleep ->
  ceilDiv (length buffer) F <= fuel ->
  exists c' padding,
    start stoppedAsleep fuel c = Some (Returned, c') /\
    concat (delivered c') = buffer ++ repeat 0%Z padding /\
    padding < F /\
    length buffer + padding = getTotalFrames c * F.
Proof.
  intros c F HF Hne Hatt Hund Hfuel.
  set (n := ceilDiv (length buffer) F) in *.
  pose proof (ceilDiv_spec (length buffer) F HF) as [C1 C2]. fold n in C1, C2.
  eexists. exists (n * F - length buffer). split.
  { apply (start_from stoppedAsleep callback); try assumption;
      try reflexivity.
    change (position c) with 0. change (audioBuffer c) with buffer. fold F.
    rewrite Nat.sub_0_r. exact Hfuel. }
  change (position c) with 0. change (delivered c) with (@nil (list Z)).
  change (audioBuffer c) with buffer. fold F.
  rewrite Nat.sub_0_r. fold n. cbn [Nat.add app]. ec_fields.
  split.
  { rewrite (concat_chunks buffer F n 0 HF)
      by (rewrite Nat.sub_0_r; reflexivity).
    rewrite Nat.sub_0_r. reflexivity. }
  split; [lia|].
  unfold getTotalFrames. change (audioBuffer c) with buffer. fold F. fold n.
  lia.
Qed.

Lemma delivered_frames_concatenate_witness :
  exists c' padding,
    start nobody 2 (onFrame listener (fromBuffer sampleBuffer fastOptions))
    = Some (Returned, c') /\
    concat (delivered c') = sampleBuffer ++ repeat 0%Z padding /\
    padding < 512 /\
    length sampleBuffer + padding = 2 * 512.
Proof.
  assert (H1 : 0 < frameLength (onFrame listener
                                  (fromBuffer sampleBuffer fastOptions)))
    by (apply Nat.ltb_lt; reflexivity).
  assert (H2 : sampleBuffer <> []) by discriminate.
  assert (H3 : attentive listener) by (intro g; reflexivity).
  assert (H4 : undisturbed nobody) by (intro p; reflexivity).
  assert (H5 : ceilDiv (length sampleBuffer)
                 (frameLength (onFrame listener
                                 (fromBuffer sampleBuffer fastOptions))) <= 2)
    by (apply Nat.leb_le; reflexivity).
  exact (delivered_frames_concatenate sampleBuffer fastOptions listener
           nobody 2 H1 H2 H3 H4 H5).
Defined.

(** With a frame length of 0 the cursor does not advance. *)
Lemma emitLoop_stuck (stoppedAsleep : nat -> bool)
    (callback : FrameCallback) (fuel : nat) (c : Channel) :
  frameCallback c = Some callback ->
  attentive callback -> undisturbed stoppedAsleep ->
  running c = true -> released c = false -> frameLength c = 0 ->
  position c < length (audioBuffer c) ->
  emitLoop stoppedAsleep fuel c = None.
Proof.
  intros Hcb Hatt Hund. revert c Hcb.
  induction fuel as [|fuel IH]; intros c Hcb Hrun Hrel HF Hpos;
    cbn [emitLoop]; rewrite Hrun, Hrel; cbn [negb andb];
    apply Nat.ltb_lt in Hpos; rewrite Hpos; [reflexivity|].
  rewrite Hcb. unfold invoke. rewrite Hatt. ec_fields. rewrite Hrun.
  match goal with
  | |- emitLoop _ _ (if ?b then (if ?a then _ else ?x) else ?y) = _ =>
      replace (if b then (if a then snd (stop x) else x) else y) with x
        by (rewrite Hund; destruct b; reflexivity)
  end.
  apply IH; ec_fields; try assumption; try reflexivity.
  rewrite HF, Nat.add_0_r. apply Nat.ltb_lt. exact Hpos.
Qed.

(** X24.  The constructor takes any frame length, and a frame length of 0
    makes [start()] run for ever: the cursor never advances, so the
    emission loop of a channel that holds audio and is not stopped does
    not come to an end, however many turns it is given. *)
Theorem zero_frame_length_never_finishes
    (buffer : list Z) (options : EmulatedChannelOptions)
    (callback : FrameCallback) (stoppedAsleep : nat -> bool) (fuel : nat) :
  opt_frameLength options = Some 0 -> buffer <> [] ->
  attentive callback -> undisturbed stoppedAsleep ->
  getFrameLength (onFrame callback (fromBuffer buffer options)) = 0 /\
  start stoppedAsleep fuel (onFrame callback (fromBuffer buffer options))
  = None.
Proof.
  intros HF Hne Hatt Hund.
  assert (F0 : frameLength (onFrame callback (fromBuffer buffer options)) = 0).
  { unfold onFrame, fromBuffer, new. ec_fields.
    cbn [opt_frameLength]. rewrite HF. reflexivity. }
  split; [exact F0|].
  unfold start.
  change (released (onFrame callback (fromBuffer buffer options))) with false.
  change (running (onFrame callback (fromBuffer buffer options))) with false.
  change (audioBuffer (onFrame callback (fromBuffer buffer options)))
    with buffer.
  destruct (length buffer =? 0) eqn:E.
  { apply Nat.eqb_eq, length_zero_iff_nil in E. contradiction. }
  cbv iota.
  rewrite (emitLoop_stuck stoppedAsleep callback); ec_fields;
    try assumption; try reflexivity.
  change (audioBuffer (onFrame callback (fromBuffer buffer options)))
    with buffer.
  change (position (onFrame callback (fromBuffer buffer options))) with 0.
  apply Nat.eqb_neq in E. lia.
Qed.

Lemma zero_frame_length_never_finishes_witness :
  start nobody 1000
    (onFrame listener
       (fromBuffer sampleBuffer (mkOptions None (Some false) (Some 0) None)))
  = None.
Proof.
  assert (H1 : opt_frameLength (mkOptions None (Some false) (Some 0) None)
               = Some 0) by reflexivity.
  assert (H2 : sampleBuffer <> []) by discriminate.
  assert (H3 : attentive listener) by (intro g; reflexivity).
  assert (H4 : undisturbed nobody) by (intro p; reflexivity).
  exact (proj2 (zero_frame_length_never_finishes sampleBuffer
                  (mkOptions None (Some false) (Some 0) None) listener nobody
                  1000 H1 H2 H3 H4)).
Defined.
End EmulatedMore.

(** ** WAV files *)

Section WavFacts.

Import Wav WavSpec.

Local Open Scope nat_scope.

(** *** Bytes and little-endian numbers *)

Lemma byteValue_byteOf (v : Z) : byteValue (byteOf v) = (v mod 256)%Z.
Proof.
  unfold byteValue, byteOf.
  pose proof (Z.mod_pos_bound v 256 ltac:(lia)) as B.
  destruct (Byte.of_N (Z.to_N (v mod 256))) as [b|] eqn:E.
  - apply Byte.to_of_N in E. rewrite E. apply Z2N.id. lia.
  - apply Byte.of_N_None_iff in E. lia.
Qed.

Lemma byteValue_range (b : Byte.byte) : (0 <= byteValue b < 256)%Z.
Proof.
  unfold byteValue. pose proof (Byte.to_N_bounded b). lia.
Qed.

Lemma littleEndian_S (w : nat) (v : Z) :
  littleEndian (S w) v = byteOf v :: littleEndian w (v / 256).
Proof.
  unfold littleEndian. cbn [seq map]. f_equal.
  - f_equal. cbn. apply Z.div_1_r.
  - rewrite <- seq_shift, map_map. apply map_ext. intro k.
    f_equal. rewrite Nat2Z.inj_succ, Z.pow_succ_r by lia.
    rewrite Z.div_div by lia. reflexivity.
Qed.

Lemma littleEndian_length (w : nat) (v : Z) : length (littleEndian w v) = w.
Proof. unfold littleEndian. rewrite length_map, length_seq. reflexivity. Qed.

Lemma fromLittleEndian_littleEndian (w : nat) (v : Z) :
  fromLittleEndian (littleEndian w v) = (v mod 256 ^ Z.of_nat w)%Z.
Proof.
  revert v. induction w as [|w IH]; intro v.
  - cbn. symmetry. apply Z.mod_1_r.
  - rewrite littleEndian_S. cbn [fromLittleEndian fold_right].
    fold (fromLittleEndian (littleEndian w (v / 256))).
    rewrite IH, byteValue_byteOf, Nat2Z.inj_succ, Z.pow_succ_r by lia.
    rewrite Z.rem_mul_r by lia. reflexivity.
Qed.

Lemma fromLittleEndian_range (bytes : list Byte.byte) :
  (0 <= fromLittleEndian bytes < 256 ^ Z.of_nat (length bytes))%Z.
Proof.
  induction bytes as [|b bytes IH].
  - cbn. lia.
  - cbn [fromLittleEndian fold_right length].
    fold (fromLittleEndian bytes).
    rewrite Nat2Z.inj_succ, Z.pow_succ_r by lia.
    pose proof (byteValue_range b). nia.
Qed.

Lemma toSigned16_pattern (v : Z) :
  int16 v -> toSigned16 (v mod 65536) = v.
Proof.
  unfold int16, toSigned16. intro H.
  destruct (Z.leb_spec 32768 (v mod 65536)) as [C|C].
  - assert (v < 0)%Z.
    { destruct (Z.lt_ge_cases v 0) as [N|N]; [exact N|].
      rewrite Z.mod_small in C by lia. lia. }
    assert (E : (v mod 65536 = v + 65536)%Z).
    { symmetry. apply Z.mod_unique with (-1)%Z; lia. }
    lia.
  - destruct (Z.lt_ge_cases v 0) as [N|N].
    + assert (E : (v mod 65536 = v + 65536)%Z).
      { symmetry. apply Z.mod_unique with (-1)%Z; lia. }
      lia.
    + apply Z.mod_small. lia.
Qed.

Lemma toSigned16_int16 (bytes : list Byte.byte) :
  length bytes = 2 -> int16 (toSigned16 (fromLittleEndian bytes)).
Proof.
  intro L. pose proof (fromLittleEndian_range bytes) as R. rewrite L in R.
  change (256 ^ Z.of_nat 2)%Z with 65536%Z in R.
  unfold int16, toSigned16.
  destruct (Z.leb_spec 32768 (fromLittleEndian bytes)); lia.
Qed.

(** *** Writing into a buffer that is zero from the cursor on *)

Lemma store_next (pre bytes : list Byte.byte) (k : nat) :
  store (pre ++ repeat Byte.x00 (length bytes + k)) (length pre) bytes
  = (pre ++ bytes) ++ repeat Byte.x00 k.
Proof.
  unfold store.
  rewrite firstn_app, firstn_all, Nat.sub_diag, firstn_O, app_nil_r.
  rewrite skipn_app, skipn_all2 by lia.
  replace (length pre + length bytes - length pre) with (length bytes) by lia.
  rewrite skipn_repeat.
  replace (length bytes + k - length bytes) with k by lia.
  cbn [app]. rewrite <- app_assoc. reflexivity.
Qed.

Lemma write_next (s : string) (pre : list Byte.byte) (k offset : nat) :
  offset = length pre ->
  write s offset
    (pre ++ repeat Byte.x00 (length (list_byte_of_string s) + k))
  = inr ((pre ++ list_byte_of_string s) ++ repeat Byte.x00 k).
Proof.
  intros ->. unfold write. rewrite length_app, repeat_length.
  destruct (length pre + (length (list_byte_of_string s) + k) <? length pre)
    eqn:E; [apply Nat.ltb_lt in E; lia|].
  rewrite firstn_all2 by lia. rewrite store_next. reflexivity.
Qed.

Lemma writeUIntLE_next (w : nat) (v : Z) (pre : list Byte.byte)
    (k offset : nat) :
  offset = length pre -> (0 <= v < 256 ^ Z.of_nat w)%Z ->
  writeUIntLE w v offset (pre ++ repeat Byte.x00 (w + k))
  = inr ((pre ++ littleEndian w v) ++ repeat Byte.x00 k).
Proof.
  intros -> R. unfold writeUIntLE.
  destruct (Z.ltb_spec v 0); [lia|].
  destruct (Z.leb_spec (256 ^ Z.of_nat w) v); [lia|]. cbn [orb].
  rewrite length_app, repeat_length.
  destruct (length pre + (w + k) <? length pre + w) eqn:E;
    [apply Nat.ltb_lt in E; lia|].
  rewrite <- (littleEndian_length w v) at 1. rewrite store_next.
  reflexivity.
Qed.

Lemma writeInt16LE_next (v : Z) (pre : list Byte.byte) (k offset : nat) :
  offset = length pre -> int16 v ->
  writeInt16LE v offset (pre ++ repeat Byte.x00 (2 + k))
  = inr ((pre ++ littleEndian 2 v) ++ repeat Byte.x00 k).
Proof.
  intros -> R. unfold int16 in R. unfold writeInt16LE.
  destruct (Z.ltb_spec v (-32768)); [lia|].
  destruct (Z.ltb_spec 32767 v); [lia|]. cbn [orb].
  rewrite length_app, repeat_length.
  destruct (length pre + (2 + k) <? length pre + 2) eqn:E;
    [apply Nat.ltb_lt in E; lia|].
  rewrite <- (littleEndian_length 2 v) at 1. rewrite store_next.
  reflexivity.
Qed.

Lemma pcm_length (samples : list Z) : length (pcm samples) = length samples * 2.
Proof.
  induction samples as [|s rest IH]; [reflexivity|].
  unfold pcm in *. cbn [flat_map]. rewrite length_app, IH. reflexivity.
Qed.

Lemma writeSamples_next (samples : list Z) (pre : list Byte.byte)
    (offset : nat) :
  offset = length pre -> Forall int16 samples ->
  writeSamples samples offset
    (pre ++ repeat Byte.x00 (length samples * 2))
  = inr (pre ++ pcm samples).
Proof.
  revert pre offset.
  induction samples as [|s rest IH]; intros pre offset E H.
  - cbn. reflexivity.
  - inversion H as [|? ? Hs Hrest]; subst.
    cbn [writeSamples length Nat.mul Nat.add].
    change (S (S (length rest * 2))) with (2 + length rest * 2).
    rewrite writeInt16LE_next by (reflexivity || assumption).
    cbn [bindE]. rewrite IH; [|rewrite length_app; reflexivity|exact Hrest].
    unfold pcm. cbn [flat_map]. rewrite <- app_assoc. reflexivity.
Qed.

Lemma headerBytes_length (rate : Z) (count : nat) :
  length (headerBytes rate count) = 44.
Proof. reflexivity. Qed.

(** What [createWavBuffer] writes: the canonical header, then the samples. *)
Lemma createWavBuffer_bytes (samples : list Z) (rate : option Z) :
  Forall int16 samples ->
  fits (rate ?? SAMPLE_RATE) (length samples) ->
  createWavBuffer samples rate
  = inr (headerBytes (rate ?? SAMPLE_RATE) (length samples) ++ pcm samples).
Proof.
  intros Hs [Hr Hn]. unfold createWavBuffer. cbv zeta.
  set (r := rate ?? SAMPLE_RATE) in *. set (m := length samples * 2) in *.
  change (16 / 8)%Z with 2%Z.
  replace (r * 1 * 2)%Z with (r * 2)%Z by lia.
  change (1 * 2)%Z with 2%Z.
  unfold alloc, writeUInt32LE, writeUInt16LE.
  change (repeat Byte.x00 (44 + m))
    with ([] ++ repeat Byte.x00 (length (list_byte_of_string "RIFF") + (40 + m))).
  rewrite write_next by reflexivity. cbn [bindE].
  change (40 + m) with (4 + (36 + m)).
  rewrite writeUIntLE_next; [|reflexivity|change (256 ^ Z.of_nat 4)%Z with 4294967296%Z; lia].
  cbn [bindE].
  change (36 + m) with (length (list_byte_of_string "WAVE") + (32 + m)).
  rewrite write_next by reflexivity. cbn [bindE].
  change (32 + m) with (length (list_byte_of_string "fmt ") + (28 + m)).
  rewrite write_next by reflexivity. cbn [bindE].
  change (28 + m) with (4 + (24 + m)).
  rewrite writeUIntLE_next; [|reflexivity|change (256 ^ Z.of_nat 4)%Z with 4294967296%Z; lia].
  cbn [bindE].
  change (24 + m) with (2 + (22 + m)).
  rewrite writeUIntLE_next; [|reflexivity|change (256 ^ Z.of_nat 2)%Z with 65536%Z; lia].
  cbn [bindE].
  change (22 + m) with (2 + (20 + m)).
  rewrite writeUIntLE_next; [|reflexivity|change (256 ^ Z.of_nat 2)%Z with 65536%Z; lia].
  cbn [bindE].
  change (20 + m) with (4 + (16 + m)).
  rewrite writeUIntLE_next; [|reflexivity|change (256 ^ Z.of_nat 4)%Z with 4294967296%Z; lia].
  cbn [bindE].
  change (16 + m) with (4 + (12 + m)).
  rewrite writeUIntLE_next; [|reflexivity|change (256 ^ Z.of_nat 4)%Z with 4294967296%Z; lia].
  cbn [bindE].
  change (12 + m) with (2 + (10 + m)).
  rewrite writeUIntLE_next; [|reflexivity|change (256 ^ Z.of_nat 2)%Z with 65536%Z; lia].
  cbn [bindE].
  change (10 + m) with (2 + (8 + m)).
  rewrite writeUIntLE_next; [|reflexivity|change (256 ^ Z.of_nat 2)%Z with 65536%Z; lia].
  cbn [bindE].
  change (8 + m) with (length (list_byte_of_string "data") + (4 + m)).
  rewrite write_next by reflexivity. cbn [bindE].
  rewrite writeUIntLE_next; [|reflexivity|change (256 ^ Z.of_nat 4)%Z with 4294967296%Z; unfold m; lia].
  cbn [bindE]. change (0 + m) with m. unfold m.
  rewrite writeSamples_next; [|reflexivity|exact Hs].
  unfold headerBytes. cbn [app]. rewrite <- !app_assoc. reflexivity.
Qed.

(** *** Reading a canonical header *)

Lemma fromLittleEndian_small (w : nat) (v : Z) :
  (0 <= v < 256 ^ Z.of_nat w)%Z ->
  fromLittleEndian (littleEndian w v) = v.
Proof.
  intro R. rewrite fromLittleEndian_littleEndian. apply Z.mod_small. exact R.
Qed.

Lemma parseWavHeader_raw (rate : Z) (s : Z) (rest : list Z) :
  let count := length (s :: rest) in
  parseWavHeader (headerBytes rate count ++ pcm (s :: rest))
  = inr (mkWavHeader "RIFF"
           (fromLittleEndian (littleEndian 4 (Z.of_nat (36 + count * 2))))
           "WAVE" "fmt " 16 1 1
           (fromLittleEndian (littleEndian 4 rate))
           (fromLittleEndian (littleEndian 4 (rate * 2)))
           2 16 "data"
           (fromLittleEndian (littleEndian 4 (Z.of_nat (count * 2))))
           44).
Proof.
  reflexivity.
Qed.

Lemma parseWavHeader_canonical (rate : Z) (samples : list Z) :
  samples <> [] -> fits rate (length samples) ->
  parseWavHeader (headerBytes rate (length samples) ++ pcm samples)
  = inr (headerOf rate (length samples)).
Proof.
  intros Hne [Hr Hn]. destruct samples as [|s rest]; [contradiction|].
  rewrite parseWavHeader_raw. cbv zeta.
  rewrite !fromLittleEndian_small;
    try (change (256 ^ Z.of_nat 4)%Z with 4294967296%Z; lia).
  reflexivity.
Qed.

(** *** The samples behind the header *)

Lemma subarray_at (pre bytes rest : list Byte.byte) (offset stop : nat) :
  offset = length pre -> stop = offset + length bytes ->
  subarray (pre ++ bytes ++ rest) offset stop = bytes.
Proof.
  intros -> ->. unfold subarray.
  rewrite skipn_app, skipn_all, Nat.sub_diag. cbn [skipn app].
  replace (length pre + length bytes - length pre) with (length bytes) by lia.
  rewrite firstn_app, firstn_all, Nat.sub_diag, firstn_O. apply app_nil_r.
Qed.

Lemma view_pcm (samples : list Z) (pre : list Byte.byte) :
  Forall int16 samples ->
  map (fun i =>
         toSigned16
           (fromLittleEndian
              (subarray (pre ++ pcm samples) (length pre + i * 2)
                        (length pre + i * 2 + 2))))
      (seq 0 (length samples))
  = samples.
Proof.
  revert pre. induction samples as [|s rest IH]; intros pre H.
  - reflexivity.
  - inversion H as [|? ? Hs Hrest]; subst.
    cbn [length seq map]. f_equal.
    + unfold pcm. cbn [flat_map].
      rewrite (subarray_at pre (littleEndian 2 s));
        [|lia|rewrite littleEndian_length; lia].
      rewrite fromLittleEndian_littleEndian.
      apply toSigned16_pattern. exact Hs.
    + rewrite <- seq_shift, map_map.
      rewrite <- (IH (pre ++ littleEndian 2 s) Hrest) at 2.
      apply map_ext. intro i.
      unfold pcm. cbn [flat_map]. rewrite <- app_assoc.
      rewrite length_app, littleEndian_length.
      do 3 f_equal; lia.
Qed.

Lemma int16View_pcm (samples : list Z) (pre : list Byte.byte) :
  length pre mod 2 = 0 -> Forall int16 samples ->
  int16View (pre ++ pcm samples) (length pre) (length samples) = inr samples.
Proof.
  intros E H. unfold int16View. rewrite E. cbn [Nat.eqb negb].
  rewrite length_app, pcm_length.
  destruct (length pre + length samples * 2 <? length pre + length samples * 2)
    eqn:C; [apply Nat.ltb_lt in C; lia|].
  rewrite view_pcm by exact H. reflexivity.
Qed.

Lemma subarray_rest (pre bytes : list Byte.byte) (offset stop : nat) :
  offset = length pre -> stop = offset + length bytes ->
  subarray (pre ++ bytes) offset stop = bytes.
Proof.
  intros E1 E2. rewrite <- (app_nil_r bytes) at 1.
  apply subarray_at; assumption.
Qed.

(** [loadWavFile] on a canonical file: the checks on the format, then the
    samples. *)
Lemma loadWavFile_canonical (rate : Z) (samples : list Z) (path : string) :
  samples <> [] -> Forall int16 samples -> fits rate (length samples) ->
  loadWavFile (Some (headerBytes rate (length samples) ++ pcm samples)) path
  = if (rate =? SAMPLE_RATE)%Z then inr samples
    else inl (Error (String.append "Unsupported sample rate: "
                       (String.append (showZ rate) " (expected 16000)"))).
Proof.
  intros Hne Hs Hf. unfold loadWavFile.
  rewrite parseWavHeader_canonical by assumption. cbn [bindE].
  unfold headerOf.
  cbn [audioFormat bitsPerSample numChannels sampleRate dataOffset dataSize].
  change (negb (1 =? 1)%Z) with false. change (negb (16 =? 16)%Z) with false.
  cbv iota.
  destruct (rate =? SAMPLE_RATE)%Z eqn:E; cbn [negb]; [|reflexivity].
  rewrite Nat2Z.id.
  rewrite (subarray_rest (headerBytes rate (length samples)) (pcm samples)
             44 (44 + length samples * 2));
    [|reflexivity|rewrite pcm_length; reflexivity].
  rewrite pcm_length, Nat.div_mul by discriminate.
  apply (int16View_pcm samples (headerBytes rate (length samples)));
    [reflexivity|exact Hs].
Qed.

(** *** Any file that parses *)

Lemma bindE_inr {A B : Type} (m : Thrown + A) (k : A -> Thrown + B) (b : B) :
  bindE m k = inr b -> exists a, m = inr a /\ k a = inr b.
Proof.
  destruct m as [e|a]; cbn [bindE]; [discriminate|].
  intro H. exists a. split; [reflexivity|exact H].
Qed.

(** A chunk search that succeeds has found the chunk's name in the buffer,
    with the eight bytes of the chunk header and at least one more byte
    inside the buffer. *)
Lemma findChunk_found (name : string) (buffer : list Byte.byte)
    (fuel offset o : nat) (size : Z) :
  findChunk name buffer fuel offset = inr (Some (o, size)) ->
  offset <= o /\ o + 8 < length buffer /\
  toStringAscii buffer o (o + 4) = name /\
  readUInt32LE buffer (o + 4) = inr size.
Proof.
  revert offset. induction fuel as [|fuel IH]; intros offset H;
    cbn [findChunk] in H;
    destruct (offset <? length buffer - 8) eqn:C; try discriminate;
    apply Nat.ltb_lt in C;
    apply bindE_inr in H as (chunkSize & R & H);
    destruct (String.eqb (toStringAscii buffer offset (offset + 4)) name) eqn:E;
    try discriminate.
  - injection H as <- <-. apply String.eqb_eq in E.
    split; [lia|]. split; [lia|]. split; assumption.
  - injection H as <- <-. apply String.eqb_eq in E.
    split; [lia|]. split; [lia|]. split; assumption.
  - apply IH in H. destruct H as (H1 & H2). split; [lia|exact H2].
Qed.

(** The searches of [parseWavHeader] do not run out of turns: with as many
    turns as the buffer has bytes, more turns change nothing. *)
Lemma findChunk_fuel (name : string) (buffer : list Byte.byte)
    (fuel fuel' offset : nat) :
  length buffer <= offset + fuel -> fuel <= fuel' ->
  findChunk name buffer fuel offset = findChunk name buffer fuel' offset.
Proof.
  revert fuel' offset. induction fuel as [|fuel IH]; intros fuel' offset L F.
  - destruct fuel'; cbn [findChunk];
      destruct (offset <? length buffer - 8) eqn:C; try reflexivity;
      apply Nat.ltb_lt in C; lia.
  - destruct fuel' as [|fuel']; [lia|]. cbn [findChunk].
    destruct (offset <? length buffer - 8) eqn:C; [|reflexivity].
    destruct (readUInt32LE buffer (offset + 4)) as [e|chunkSize];
      cbn [bindE]; [reflexivity|].
    destruct (String.eqb (toStringAscii buffer offset (offset + 4)) name);
      [reflexivity|].
    apply IH; lia.
Qed.

Lemma parseWavHeader_inr (buffer : list Byte.byte) (h : WavHeader) :
  parseWavHeader buffer = inr h ->
  riffId h = "RIFF"%string /\ waveId h = "WAVE"%string /\
  fmtId h = "fmt "%string /\ dataId h = "data"%string /\
  28 <= dataOffset h < length buffer /\
  toStringAscii buffer (dataOffset h - 8) (dataOffset h - 4) = "data"%string /\
  readUInt32LE buffer (dataOffset h - 4) = inr (dataSize h).
Proof.
  unfold parseWavHeader. cbv zeta.
  destruct (String.eqb (toStringAscii buffer 0 4) "RIFF") eqn:E1;
    cbn [negb]; [|discriminate].
  intro H. apply bindE_inr in H as (fileSize & _ & H).
  destruct (String.eqb (toStringAscii buffer 8 12) "WAVE") eqn:E2;
    cbn [negb] in H; [|discriminate].
  apply bindE_inr in H as (fmt & Ffmt & H).
  destruct fmt as [[offset fmtSize]|]; [|discriminate].
  apply bindE_inr in H as (? & _ & H).
  apply bindE_inr in H as (? & _ & H).
  apply bindE_inr in H as (? & _ & H).
  apply bindE_inr in H as (? & _ & H).
  apply bindE_inr in H as (? & _ & H).
  apply bindE_inr in H as (? & _ & H).
  apply bindE_inr in H as (data & Fdata & H).
  destruct data as [[offset' size']|]; [|discriminate].
  injection H as <-.
  cbn [riffId waveId fmtId dataId dataOffset dataSize].
  apply String.eqb_eq in E1, E2.
  apply findChunk_found in Ffmt as (F1 & _).
  apply findChunk_found in Fdata as (D1 & D2 & D3 & D4).
  split; [exact E1|]. split; [exact E2|]. split; [reflexivity|].
  split; [reflexivity|]. split; [lia|].
  replace (offset' + 8 - 8) with offset' by lia.
  replace (offset' + 8 - 4) with (offset' + 4) by lia.
  split; assumption.
Qed.

Lemma int16View_inr (buffer : list Byte.byte) (byteOffset count : nat)
    (samples : list Z) :
  int16View buffer byteOffset count = inr samples ->
  byteOffset mod 2 = 0 /\ byteOffset + count * 2 <= length buffer /\
  length samples = count /\ Forall int16 samples.
Proof.
  unfold int16View.
  destruct (byteOffset mod 2 =? 0) eqn:E; cbn [negb]; [|discriminate].
  destruct (length buffer <? byteOffset + count * 2) eqn:C; [discriminate|].
  intro H. injection H as <-.
  apply Nat.eqb_eq in E. apply Nat.ltb_ge in C.
  split; [exact E|]. split; [exact C|].
  split; [rewrite length_map, length_seq; reflexivity|].
  apply Forall_forall. intros v Hv. apply in_map_iff in Hv as (i & <- & Hi).
  apply in_seq in Hi. apply toSigned16_int16.
  unfold subarray. rewrite length_firstn, length_skipn. lia.
Qed.

(** Each entry of the view is made of two neighbouring bytes of the
    buffer, the low one first. *)
Lemma int16View_nth (buffer : list Byte.byte) (byteOffset count : nat)
    (samples : list Z) (i : nat) :
  int16View buffer byteOffset count = inr samples -> i < count ->
  exists lo hi,
    nth_error buffer (byteOffset + 2 * i) = Some lo /\
    nth_error buffer (byteOffset + 2 * i + 1) = Some hi /\
    nth_error samples i
    = Some (toSigned16 (byteValue lo + 256 * byteValue hi)%Z).
Proof.
  unfold int16View.
  destruct (byteOffset mod 2 =? 0); cbn [negb]; [|discriminate].
  destruct (length buffer <? byteOffset + count * 2) eqn:C; [discriminate|].
  apply Nat.ltb_ge in C. intros H Hi. injection H as <-.
  destruct (nth_error buffer (byteOffset + 2 * i)) as [lo|] eqn:Lo.
  2:{ apply nth_error_None in Lo. lia. }
  destruct (nth_error buffer (byteOffset + 2 * i + 1)) as [hi|] eqn:Hi'.
  2:{ apply nth_error_None in Hi'. lia. }
  exists lo, hi. split; [reflexivity|]. split; [reflexivity|].
  rewrite nth_error_map, nth_error_seq.
  apply Nat.ltb_lt in Hi as Hlt. rewrite Hlt. cbn [option_map Nat.add].
  do 2 f_equal. unfold subarray.
  replace (byteOffset + i * 2 + 2 - (byteOffset + i * 2)) with 2 by lia.
  replace (byteOffset + i * 2) with (byteOffset + 2 * i) by lia.
  rewrite (skipn_nth_error buffer _ lo Lo).
  replace (S (byteOffset + 2 * i)) with (byteOffset + 2 * i + 1) by lia.
  rewrite (skipn_nth_error buffer _ hi Hi').
  cbn [firstn fromLittleEndian fold_right]. lia.
Qed.

(** *** Writing a recording and reading it back *)

(** X25.  A recording written by [createWavBuffer] at the default rate and
    read by [loadWavFile] comes back sample for sample.  The recording holds
    at least one sample, its samples are 16-bit values, and its size fits
    the header's 32-bit fields; the file has 44 bytes of header and two
    bytes per sample. *)
Theorem wav_round_trip (samples : list Z) (path : string) :
  samples <> [] -> Forall int16 samples ->
  (Z.of_nat (length samples) * 2 + 36 < 4294967296)%Z ->
  exists buffer,
    createWavBuffer samples None = inr buffer /\
    length buffer = 44 + length samples * 2 /\
    loadWavFile (Some buffer) path = inr samples.
Proof.
  intros Hne Hs Hn.
  assert (Hf : fits (None ?? SAMPLE_RATE) (length samples)).
  { split; [unfold orDefault, SAMPLE_RATE; lia|lia]. }
  exists (headerBytes SAMPLE_RATE (length samples) ++ pcm samples).
  split; [apply (createWavBuffer_bytes samples None); assumption|].
  split; [rewrite length_app, pcm_length; reflexivity|].
  rewrite loadWavFile_canonical by assumption. reflexivity.
Qed.

Lemma wav_round_trip_witness :
  threeSamples <> [] /\ Forall int16 threeSamples /\
  exists buffer,
    createWavBuffer threeSamples None = inr buffer /\
    length buffer = 50 /\
    loadWavFile (Some buffer) "mic.wav" = inr threeSamples.
Proof.
  assert (H1 : threeSamples <> []) by discriminate.
  assert (H2 : Forall int16 threeSamples).
  { apply Forall_cons; [unfold int16; lia|].
    apply Forall_cons; [unfold int16; lia|].
    apply Forall_cons; [unfold int16; lia|]. apply Forall_nil. }
  assert (H3 : (Z.of_nat (length threeSamples) * 2 + 36 < 4294967296)%Z)
    by (cbn; lia).
  split; [exact H1|]. split; [exact H2|].
  exact (wav_round_trip threeSamples "mic.wav" H1 H2 H3).
Defined.

(** X26.  The header [createWavBuffer] writes, read by [parseWavHeader],
    says what was written: PCM, one channel, 16 bits, the given sample rate,
    twice that many bytes a second, a file size of the buffer's length less
    8, a data chunk of two bytes per sample that starts at byte 44. *)
Theorem header_describes_recording (samples : list Z) (rate : Z) :
  samples <> [] -> Forall int16 samples ->
  (0 <= rate < 2147483648)%Z ->
  (Z.of_nat (length samples) * 2 + 36 < 4294967296)%Z ->
  exists buffer,
    createWavBuffer samples (Some rate) = inr buffer /\
    parseWavHeader buffer
    = inr (mkWavHeader "RIFF" (Z.of_nat (length buffer) - 8) "WAVE" "fmt "
             16 1 1 rate (rate * 2) 2 16 "data"
             (Z.of_nat (length samples) * 2) 44).
Proof.
  intros Hne Hs Hr Hn.
  assert (Hf : fits (Some rate ?? SAMPLE_RATE) (length samples))
    by (split; [exact Hr|lia]).
  exists (headerBytes rate (length samples) ++ pcm samples).
  split; [apply (createWavBuffer_bytes samples (Some rate)); assumption|].
  rewrite parseWavHeader_canonical by assumption.
  unfold headerOf. rewrite length_app, pcm_length.
  change (length (headerBytes rate (length samples))) with 44.
  do 2 f_equal; lia.
Qed.

Lemma header_describes_recording_witness :
  exists buffer,
    createWavBuffer threeSamples (Some 8000%Z) = inr buffer /\
    parseWavHeader buffer
    = inr (mkWavHeader "RIFF" 42 "WAVE" "fmt " 16 1 1 8000 16000 2 16
             "data" 6 44).
Proof.
  assert (H1 : threeSamples <> []) by discriminate.
  assert (H2 : Forall int16 threeSamples).
  { apply Forall_cons; [unfold int16; lia|].
    apply Forall_cons; [unfold int16; lia|].
    apply Forall_cons; [unfold int16; lia|]. apply Forall_nil. }
  assert (H3 : (0 <= 8000 < 2147483648)%Z) by lia.
  assert (H4 : (Z.of_nat (length threeSamples) * 2 + 36 < 4294967296)%Z)
    by (cbn; lia).
  destruct (header_describes_recording threeSamples 8000 H1 H2 H3 H4)
    as (buffer & C & P).
  exists buffer. split; [exact C|].
  assert (L : length buffer = 50).
  { change (createWavBuffer threeSamples (Some 8000%Z))
      with (@inr Thrown _ (headerBytes 8000 3 ++ pcm threeSamples)) in C.
    injection C as <-. reflexivity. }
  rewrite L in P. exact P.
Defined.

(** X27.  A recording without samples makes a file that does not load: the
    file is the 44 header bytes, and [parseWavHeader] looks for a chunk only
    where more than eight bytes follow, so the empty data chunk at the end
    is not found. *)
Theorem empty_recording_does_not_load (rate : option Z) (path : string) :
  (0 <= rate ?? SAMPLE_RATE < 2147483648)%Z ->
  exists buffer,
    createWavBuffer [] rate = inr buffer /\
    length buffer = 44 /\
    loadWavFile (Some buffer) path
    = inl (Error "Invalid WAV file: missing data chunk").
Proof.
  intro Hr. exists (headerBytes (rate ?? SAMPLE_RATE) 0).
  split.
  { rewrite (createWavBuffer_bytes [] rate);
      [cbn [pcm flat_map length]; rewrite app_nil_r; reflexivity
      |apply Forall_nil|split; [exact Hr|cbn [length Nat.mul Nat.add]; lia]]. }
  split; reflexivity.
Qed.

Lemma empty_recording_does_not_load_witness :
  (0 <= None ?? SAMPLE_RATE < 2147483648)%Z /\
  exists buffer,
    createWavBuffer [] None = inr buffer /\
    length buffer = 44 /\
    loadWavFile (Some buffer) "empty.wav"
    = inl (Error "Invalid WAV file: missing data chunk").
Proof.
  assert (H : (0 <= None ?? SAMPLE_RATE < 2147483648)%Z)
    by (unfold orDefault, SAMPLE_RATE; lia).
  split; [exact H|].
  exact (empty_recording_does_not_load None "empty.wav" H).
Defined.



(** X29.  Whatever the file holds, samples come back from [loadWavFile] only
    when the file exists and its header parses as PCM, 16 bits, mono, 16000
    Hz, with the data chunk at an even offset.  The samples are then read
    off the file's bytes from that offset on: sample [i] is the signed
    16-bit number whose low byte is the byte at offset + 2i and whose high
    byte is the byte after it; there are as many samples as the data chunk
    announces or as the file still holds, whichever is less. *)
Theorem loadWavFile_returns_only_pcm16 (file : option (list Byte.byte))
    (path : string) (samples : list Z) :
  loadWavFile file path = inr samples ->
  exists buffer h,
    file = Some buffer /\ parseWavHeader buffer = inr h /\
    audioFormat h = 1%Z /\ bitsPerSample h = 16%Z /\ numChannels h = 1%Z /\
    sampleRate h = 16000%Z /\
    dataOffset h mod 2 = 0 /\ 28 <= dataOffset h < length buffer /\
    length samples
    = Nat.min (Z.to_nat (dataSize h)) (length buffer - dataOffset h) / 2 /\
    dataOffset h + length samples * 2 <= length buffer /\
    Forall int16 samples /\
    forall i, i < length samples ->
      exists lo hi,
        nth_error buffer (dataOffset h + 2 * i) = Some lo /\
        nth_error buffer (dataOffset h + 2 * i + 1) = Some hi /\
        nth_error samples i
        = Some (toSigned16 (byteValue lo + 256 * byteValue hi)%Z).
Proof.
  unfold loadWavFile. destruct file as [buffer|]; [|discriminate].
  intro H. apply bindE_inr in H as (h & P & H).
  destruct (audioFormat h =? 1)%Z eqn:E1; cbn [negb] in H; [|discriminate].
  destruct (bitsPerSample h =? 16)%Z eqn:E2; cbn [negb] in H; [|discriminate].
  destruct (numChannels h =? 1)%Z eqn:E3; cbn [negb] in H; [|discriminate].
  destruct (sampleRate h =? SAMPLE_RATE)%Z eqn:E4; cbn [negb] in H;
    [|discriminate].
  apply Z.eqb_eq in E1, E2, E3, E4.
  pose proof (fun i => int16View_nth buffer _ _ samples i H) as Vn.
  apply int16View_inr in H as (V1 & V2 & V3 & V4).
  pose proof (parseWavHeader_inr buffer h P) as (_ & _ & _ & _ & B & _).
  exists buffer, h.
  split; [reflexivity|]. split; [exact P|].
  split; [exact E1|]. split; [exact E2|]. split; [exact E3|].
  split; [exact E4|]. split; [exact V1|]. split; [exact B|].
  split.
  { rewrite V3. unfold subarray. rewrite length_firstn, length_skipn.
    f_equal. f_equal. lia. }
  split; [rewrite V3; exact V2|]. split; [exact V4|].
  intros i Hi. apply Vn. rewrite <- V3. exact Hi.
Qed.

Lemma loadWavFile_returns_only_pcm16_witness :
  exists buffer h,
    Some (headerBytes 16000 3 ++ pcm threeSamples) = Some buffer /\
    parseWavHeader buffer = inr h /\
    audioFormat h = 1%Z /\ bitsPerSample h = 16%Z /\ numChannels h = 1%Z /\
    sampleRate h = 16000%Z /\
    dataOffset h mod 2 = 0 /\ 28 <= dataOffset h < length buffer /\
    length threeSamples
    = Nat.min (Z.to_nat (dataSize h)) (length buffer - dataOffset h) / 2 /\
    dataOffset h + length threeSamples * 2 <= length buffer /\
    Forall int16 threeSamples /\
    forall i, i < length threeSamples ->
      exists lo hi,
        nth_error buffer (dataOffset h + 2 * i) = Some lo /\
        nth_error buffer (dataOffset h + 2 * i + 1) = Some hi /\
        nth_error threeSamples i
        = Some (toSigned16 (byteValue lo + 256 * byteValue hi)%Z).
Proof.
  apply (loadWavFile_returns_only_pcm16
           (Some (headerBytes 16000 3 ++ pcm threeSamples)) "mic.wav"
           threeSamples).
  vm_compute. reflexivity.
Defined.

(** X30.  [concatenateAudio(a, b)] never throws; it returns the samples of
    [a] followed by those of [b], which is what the scripted source's
    [prependAudio] and [appendAudio] store. *)
Theorem concatenateAudio_appends (a b : list Z) :
  concatenateAudio a b = inr (Emulated.concatenateAudio a b) /\
  Emulated.concatenateAudio a b = a ++ b.
Proof.
  split; [|reflexivity].
  unfold concatenateAudio, typedSet, Emulated.concatenateAudio. cbv zeta.
  rewrite repeat_length. cbn [Nat.add].
  destruct (length a <=? length a + length b) eqn:E;
    [|apply Nat.leb_gt in E; lia].
  cbn [bindE firstn app]. rewrite skipn_repeat, length_app, !repeat_length.
  replace (length a + length b - length a) with (length b) by lia.
  destruct (length a + length b <=? length a + length b) eqn:E2;
    [|apply Nat.leb_gt in E2; lia].
  rewrite firstn_app, firstn_all, Nat.sub_diag, firstn_O, app_nil_r.
  rewrite skipn_all2 by (rewrite length_app, repeat_length; lia).
  rewrite app_nil_r. reflexivity.
Qed.

End WavFacts.
